(** * kdreact-migrate: the dependency resolver and the rewrite pipeline

    A shallow embedding of [src/index.ts] (class [ReactMigrationTool] and the
    command-line actions around it) together with the properties that the
    specification states about it.

    JavaScript strings are sequences of UTF-16 code units; they are modelled
    as [list N], one number per code unit.  Regular expressions are embedded
    as a small syntax with a backtracking matcher that follows the order in
    which an ECMAScript engine explores alternatives (left alternative first,
    greedy quantifiers longest first, lazy quantifiers shortest first). *)

From Stdlib Require Import List NArith ZArith String Ascii Bool Lia.
From stdpp Require Import base option list gmap.
Import ListNotations.

Set Default Proof Using "Type".

(** ** JavaScript strings *)

Abbreviation jsstring := (list N).

(** [u "abc"] is the JavaScript string whose code units are the characters of
    the literal. *)
Definition u (s : string) : jsstring :=
  map N_of_ascii (list_ascii_of_string s).

Definition LF : jsstring := [10%N].
Definition DQ : jsstring := [34%N].

Module JS.

(** [lit_prefix l s] strips the literal [l] from the front of [s]. *)
Fixpoint lit_prefix (l s : jsstring) : option jsstring :=
  match l, s with
  | [], _ => Some s
  | a :: l', b :: s' => if N.eqb a b then lit_prefix l' s' else None
  | _ :: _, [] => None
  end.

(** [String.prototype.startsWith] *)
Definition startsWith (s pat : jsstring) : bool :=
  match lit_prefix pat s with Some _ => true | None => false end.

(** [String.prototype.includes] *)
Fixpoint includes (s pat : jsstring) : bool :=
  if startsWith s pat then true
  else match s with
       | [] => false
       | _ :: s' => includes s' pat
       end.

(** Relational comparison of two strings ([a < b]): lexicographic on code
    units. *)
Fixpoint lt (a b : jsstring) : bool :=
  match a, b with
  | _, [] => false
  | [], _ :: _ => true
  | x :: a', y :: b' =>
      if (x <? y)%N then true
      else if (y <? x)%N then false
      else lt a' b'
  end.

(** [a >= b] on strings is [!(a < b)]. *)
Definition ge (a b : jsstring) : bool := negb (lt a b).

(** Truthiness of a string value that may be [undefined]. *)
Definition truthy (v : option jsstring) : bool :=
  match v with
  | Some (_ :: _) => true
  | _ => false
  end.

(** [GetSubstitution] for a string pattern (no captures): in the replacement
    text [$$] stands for a dollar sign, [$&] for the matched text, [$`] for
    the text before the match and [$'] for the text after it; every other
    use of [$] is literal. *)
Fixpoint getSubstitution (matched before after repl : jsstring) : jsstring :=
  match repl with
  | [] => []
  | c :: r =>
      if N.eqb c 36 then
        match r with
        | d :: r' =>
            if N.eqb d 36 then 36%N :: getSubstitution matched before after r'
            else if N.eqb d 38 then matched ++ getSubstitution matched before after r'
            else if N.eqb d 96 then before ++ getSubstitution matched before after r'
            else if N.eqb d 39 then after ++ getSubstitution matched before after r'
            else c :: getSubstitution matched before after r
        | [] => [c]
        end
      else c :: getSubstitution matched before after r
  end.

(** [s.replace(pat, repl)] with a string pattern: the first occurrence only. *)
Fixpoint replace_str_from (before_rev s pat repl : jsstring) : jsstring :=
  match lit_prefix pat s with
  | Some rest => getSubstitution pat (rev before_rev) rest repl ++ rest
  | None =>
      match s with
      | [] => []
      | a :: s' => a :: replace_str_from (a :: before_rev) s' pat repl
      end
  end.

Definition replace_str (s pat repl : jsstring) : jsstring :=
  replace_str_from [] s pat repl.

(** The white space class [\s]: WhiteSpace and LineTerminator code units. *)
Definition isSpace (c : N) : bool :=
  existsb (N.eqb c)
    [9; 10; 11; 12; 13; 32; 160; 5760; 8232; 8233; 8239; 8287; 12288; 65279]%N
  || ((8192 <=? c)%N && (c <=? 8202)%N).

Definition isNot (x : N) (c : N) : bool := negb (N.eqb c x).
Definition anyChar (c : N) : bool := true.
Definition isOneOf (l : list N) (c : N) : bool := existsb (N.eqb c) l.

(** *** Regular expressions *)

Inductive quant := Star | Plus | Opt.

(** The fragment of the regular-expression syntax that the tool uses:
    literals, character classes, quantified character classes (greedy or
    lazy), sequence, alternation, capture groups and the end anchor. *)
Inductive regex :=
| Lit (l : jsstring)
| Cls (p : N -> bool)
| Rep (q : quant) (greedy : bool) (p : N -> bool)
| Seq (a b : regex)
| Alt (a b : regex)
| Grp (n : nat) (a : regex)
| EndAnchor.

Definition caps := list (nat * jsstring).

Definition cap (n : nat) (c : caps) : jsstring :=
  match find (fun e => Nat.eqb (fst e) n) c with
  | Some e => snd e
  | None => []
  end.

Section Matcher.
Context {X : Type}.

(** [p*]: as many as possible first, then fewer. *)
Fixpoint star_greedy (p : N -> bool) (s : jsstring)
    (k : jsstring -> option X) : option X :=
  match s with
  | c :: s' =>
      if p c then
        match star_greedy p s' k with
        | Some r => Some r
        | None => k s
        end
      else k s
  | [] => k []
  end.

(** [p*?]: as few as possible first, then more. *)
Fixpoint star_lazy (p : N -> bool) (s : jsstring)
    (k : jsstring -> option X) : option X :=
  match k s with
  | Some r => Some r
  | None =>
      match s with
      | c :: s' => if p c then star_lazy p s' k else None
      | [] => None
      end
  end.

Definition star (greedy : bool) := if greedy then star_greedy else star_lazy.

Definition rep (q : quant) (greedy : bool) (p : N -> bool) (s : jsstring)
    (k : jsstring -> option X) : option X :=
  match q with
  | Star => star greedy p s k
  | Plus =>
      match s with
      | c :: s' => if p c then star greedy p s' k else None
      | [] => None
      end
  | Opt =>
      match s with
      | c :: s' =>
          if p c then
            if greedy then
              match k s' with Some r => Some r | None => k s end
            else
              match k s with Some r => Some r | None => k s' end
          else k s
      | [] => k []
      end
  end.

(** The matcher, in continuation-passing style: [k] is what remains to be
    matched after [r]; a failing continuation makes [r] try its next
    option. *)
Fixpoint rmatch (r : regex) (s : jsstring) (c : caps)
    (k : jsstring -> caps -> option X) : option X :=
  match r with
  | Lit l =>
      match lit_prefix l s with
      | Some s' => k s' c
      | None => None
      end
  | Cls p =>
      match s with
      | a :: s' => if p a then k s' c else None
      | [] => None
      end
  | Rep q g p => rep q g p s (fun s' => k s' c)
  | Seq a b => rmatch a s c (fun s' c' => rmatch b s' c' k)
  | Alt a b =>
      match rmatch a s c k with
      | Some x => Some x
      | None => rmatch b s c k
      end
  | Grp n a =>
      rmatch a s c
        (fun s' c' => k s' ((n, firstn (length s - length s') s) :: c'))
  | EndAnchor =>
      match s with
      | [] => k [] c
      | _ :: _ => None
      end
  end.
End Matcher.

(** A match attempt anchored at the front of [s]: the matched text and the
    captures. *)
Definition exec_at (r : regex) (s : jsstring) : option (jsstring * caps) :=
  rmatch r s [] (fun s' c => Some (firstn (length s - length s') s, c)).

(** [r.test(s)] from index 0: is there a match at some position? *)
Fixpoint test (r : regex) (s : jsstring) : bool :=
  match exec_at r s with
  | Some _ => true
  | None =>
      match s with
      | [] => false
      | _ :: s' => test r s'
      end
  end.

(** [s.match(r)] for a regular expression without the [g] flag: the text of
    the leftmost match. *)
Fixpoint match_first (r : regex) (s : jsstring) : option jsstring :=
  match exec_at r s with
  | Some (m, _) => Some m
  | None =>
      match s with
      | [] => None
      | _ :: s' => match_first r s'
      end
  end.

(** [s.replace(r, f)] for a regular expression with the [g] flag: every
    match, left to right, never overlapping; [skip] counts the code units of
    the current match that are still to be dropped.  After an empty match the
    scan moves on by one code unit. *)
Fixpoint replace_from (r : regex) (f : jsstring -> caps -> jsstring)
    (skip : nat) (s : jsstring) : jsstring :=
  match skip with
  | S n =>
      match s with
      | [] => []
      | _ :: s' => replace_from r f n s'
      end
  | O =>
      match exec_at r s with
      | Some (m, c) =>
          f m c ++
          match s with
          | [] => []
          | a :: s' =>
              match length m with
              | O => a :: replace_from r f 0 s'
              | S n => replace_from r f n s'
              end
          end
      | None =>
          match s with
          | [] => []
          | a :: s' => a :: replace_from r f 0 s'
          end
      end
  end.

Definition replace_all (r : regex) (f : jsstring -> caps -> jsstring)
    (s : jsstring) : jsstring :=
  replace_from r f 0 s.

(** [s.replace(r, f)] for a regular expression without the [g] flag: the
    leftmost match only. *)
Fixpoint replace_first (r : regex) (f : jsstring -> caps -> jsstring)
    (s : jsstring) : jsstring :=
  match exec_at r s with
  | Some (m, c) => f m c ++ skipn (length m) s
  | None =>
      match s with
      | [] => []
      | a :: s' => a :: replace_first r f s'
      end
  end.

End JS.

(** ** The file system seen by the tool *)

(** A path is the list of its components below the project root:
    [path.join] appends components and [path.basename] takes the last one. *)
Abbreviation path := (list jsstring).

#[warnings="-register-all"]
Inductive node :=
| File (content : jsstring)
| Dir (entries : list (jsstring * node)).

Fixpoint lookup_entry (name : jsstring) (es : list (jsstring * node))
    : option node :=
  match es with
  | [] => None
  | (x, m) :: es' => if decide (x = name) then Some m else lookup_entry name es'
  end.

Fixpoint update_entry (name : jsstring) (f : node -> node)
    (es : list (jsstring * node)) : list (jsstring * node) :=
  match es with
  | [] => []
  | (x, m) :: es' =>
      if decide (x = name) then (x, f m) :: es'
      else (x, m) :: update_entry name f es'
  end.

Fixpoint get_node (p : path) (n : node) : option node :=
  match p with
  | [] => Some n
  | x :: p' =>
      match n with
      | Dir es =>
          match lookup_entry x es with
          | Some m => get_node p' m
          | None => None
          end
      | File _ => None
      end
  end.

Definition exists_path (p : path) (n : node) : bool :=
  match get_node p n with Some _ => true | None => false end.

Definition read_file (p : path) (n : node) : option jsstring :=
  match get_node p n with
  | Some (File c) => Some c
  | _ => None
  end.

(** Writing replaces the content of the file at [p]; a file that does not
    exist yet is created in its (existing) directory. *)
Fixpoint write_file (p : path) (c : jsstring) (n : node) : node :=
  match p with
  | [] => match n with File _ => File c | Dir _ => n end
  | x :: p' =>
      match n with
      | Dir es =>
          match lookup_entry x es with
          | Some _ => Dir (update_entry x (write_file p' c) es)
          | None =>
              match p' with
              | [] => Dir (es ++ [(x, File c)])
              | _ :: _ => n
              end
          end
      | File _ => n
      end
  end.

Definition basename (p : path) : jsstring := List.last p [].

(** ** The tool object *)

Record MigrationOptions := mkOptions {
  dryRun : bool;
  verbose : bool;
  skipDeps : bool;
  depsOnly : bool
}.

Record Tool := mkTool {
  targetVersion : jsstring;
  options : MigrationOptions;
  issues : list jsstring;
  fixes : list jsstring;
  reactFiles : list path
}.

(** [new ReactMigrationTool()] *)
Definition newTool : Tool :=
  mkTool (u "18") (mkOptions false false false false) [] [] [].

Definition pushFix (x : jsstring) (t : Tool) : Tool :=
  mkTool (targetVersion t) (options t) (issues t) (fixes t ++ [x]) (reactFiles t).

Definition pushIssue (x : jsstring) (t : Tool) : Tool :=
  mkTool (targetVersion t) (options t) (issues t ++ [x]) (fixes t) (reactFiles t).

Definition setReactFiles (l : list path) (t : Tool) : Tool :=
  mkTool (targetVersion t) (options t) (issues t) (fixes t) l.

Definition configure (v : jsstring) (o : MigrationOptions) (t : Tool) : Tool :=
  mkTool v o (issues t) (fixes t) (reactFiles t).

(** ** The rewrite rules *)

Module Rules.
Import JS.

Fixpoint cat (l : list regex) : regex :=
  match l with
  | [] => Lit []
  | [r] => r
  | r :: l' => Seq r (cat l')
  end.

(** [/ReactDOM\.render\(\s*(<[^>]+>[\s\S]*?<\/[^>]+>|<[^>]+\s*\/>),\s*([^)]+)\)/g] *)
Definition renderRegex : regex :=
  cat [ Lit (u "ReactDOM.render(");
        Rep Star true isSpace;
        Grp 1 (Alt
          (cat [ Lit (u "<"); Rep Plus true (isNot 62); Lit (u ">");
                 Rep Star false anyChar;
                 Lit (u "</"); Rep Plus true (isNot 62); Lit (u ">") ])
          (cat [ Lit (u "<"); Rep Plus true (isNot 62);
                 Rep Star true isSpace; Lit (u "/>") ]));
        Lit (u ",");
        Rep Star true isSpace;
        Grp 2 (Rep Plus true (isNot 41));
        Lit (u ")") ].

(** The replacement callback of the render rule. *)
Definition createRootCall (_match : jsstring) (c : caps) : jsstring :=
  u "const root = createRoot(" ++ cap 2 c ++ u ");" ++ LF ++
  u "root.render(" ++ cap 1 c ++ u ")".

Definition importReactDOM : jsstring := u "import ReactDOM from 'react-dom'".
Definition importRender : jsstring := u "import { render } from 'react-dom'".
Definition importCreateRoot : jsstring :=
  u "import { createRoot } from 'react-dom/client'".

Definition transformReactDOMRender (content fileName : jsstring) (t : Tool)
    : jsstring * Tool :=
  if test renderRegex content then
    let transformed :=
      if includes content importReactDOM then
        replace_str content importReactDOM importCreateRoot
      else if includes content importRender then
        replace_str content importRender importCreateRoot
      else content in
    let transformed := replace_all renderRegex createRootCall transformed in
    (transformed,
     pushFix (fileName ++ u ": Updated ReactDOM.render to createRoot API") t)
  else (content, t).

Definition componentWillMount : jsstring := u "componentWillMount".
Definition componentWillReceiveProps : jsstring := u "componentWillReceiveProps".
Definition componentWillUpdate : jsstring := u "componentWillUpdate".

(** [/componentWillReceiveProps\s*\([^)]+\)/g] *)
Definition receivePropsRegex : regex :=
  cat [ Lit componentWillReceiveProps; Rep Star true isSpace; Lit (u "(");
        Rep Plus true (isNot 41); Lit (u ")") ].

(** A replacement text without [$]: the same for every match. *)
Definition const_repl (s : jsstring) (_match : jsstring) (_c : caps) : jsstring := s.

Definition transformLifecycleMethods (content fileName : jsstring) (t : Tool)
    : jsstring * Tool :=
  let transformed := content in
  let '(transformed, t) :=
    if includes content componentWillMount then
      (replace_all (Lit componentWillMount)
         (const_repl (u "componentDidMount")) transformed,
       pushFix (fileName ++
         u ": Replaced componentWillMount with componentDidMount") t)
    else (transformed, t) in
  let '(transformed, t) :=
    if includes content componentWillReceiveProps then
      (replace_all receivePropsRegex
         (const_repl (u "componentDidUpdate(prevProps)")) transformed,
       pushFix (fileName ++
         u ": Replaced componentWillReceiveProps with componentDidUpdate") t)
    else (transformed, t) in
  let '(transformed, t) :=
    if includes content componentWillUpdate then
      (replace_all (Lit componentWillUpdate)
         (const_repl (u "componentDidUpdate")) transformed,
       pushFix (fileName ++
         u ": Replaced componentWillUpdate with componentDidUpdate") t)
    else (transformed, t) in
  (transformed, t).

Definition transformEventHandlers (content fileName : jsstring) (t : Tool)
    : jsstring * Tool :=
  let transformed := content in
  if includes content (u "SyntheticEvent") then
    (transformed,
     pushIssue (fileName ++
       u ": Review SyntheticEvent usage - React 17+ uses native events") t)
  else (transformed, t).

(** [/import React[^;]+;/] *)
Definition importReactRegex : regex :=
  cat [ Lit (u "import React"); Rep Plus true (isNot 59); Lit (u ";") ].

Definition importPropTypes : jsstring := u "import PropTypes from 'prop-types'".

Definition transformPropTypes (content fileName : jsstring) (t : Tool)
    : jsstring * Tool :=
  let transformed := content in
  if includes content (u "React.PropTypes") then
    let transformed :=
      if negb (includes content importPropTypes) then
        match match_first importReactRegex content with
        | Some importMatch =>
            replace_str transformed importMatch
              (importMatch ++ LF ++ u "import PropTypes from 'prop-types';")
        | None => transformed
        end
      else transformed in
    let transformed :=
      replace_all (Lit (u "React.PropTypes")) (const_repl (u "PropTypes"))
        transformed in
    (transformed,
     pushFix (fileName ++
       u ": Migrated React.PropTypes to prop-types package") t)
  else (transformed, t).

Definition transformReactFC (content fileName : jsstring) (t : Tool)
    : jsstring * Tool :=
  let transformed := content in
  if includes content (u "React.FC")
     || includes content (u "React.FunctionComponent") then
    (transformed,
     pushIssue (fileName ++
       u ": Consider replacing React.FC with explicit props typing") t)
  else (transformed, t).

(** The first rule of [transformFile] with its version guard
    [this.targetVersion >= '18']. *)
Definition renderStage (content fileName : jsstring) (t : Tool)
    : jsstring * Tool :=
  if ge (targetVersion t) (u "18") then
    transformReactDOMRender content fileName t
  else (content, t).

(** The rules of [transformFile] in their order, each on the output of the
    one before. *)
Definition rewritePipeline (content fileName : jsstring) (t : Tool)
    : jsstring * Tool :=
  let '(transformedContent, t) := renderStage content fileName t in
  let '(transformedContent, t) :=
    transformLifecycleMethods transformedContent fileName t in
  let '(transformedContent, t) :=
    transformEventHandlers transformedContent fileName t in
  let '(transformedContent, t) :=
    transformPropTypes transformedContent fileName t in
  transformReactFC transformedContent fileName t.

End Rules.

(** ** The dependency resolver *)

(** [versionMap[key] || dflt] for an object literal given as the list of its
    entries.  (Keys inherited from [Object.prototype] are not modelled; the
    supported target versions are not among them.) *)
Definition entry (key value : string) : string * string := (key, value).

Definition versionMapOr (versionMap : list (string * string))
    (key : jsstring) (dflt : string) : jsstring :=
  match find (fun e => bool_decide (u (fst e) = key)) versionMap with
  | Some e => if JS.truthy (Some (u (snd e))) then u (snd e) else u dflt
  | None => u dflt
  end.

Definition getTestingLibraryVersion (targetVersion : jsstring) : jsstring :=
  versionMapOr [entry "17" "^11.0.0"; entry "18" "^13.0.0"; entry "19" "^14.0.0"] targetVersion "^13.0.0".

Definition getTypesVersion (targetVersion : jsstring) : jsstring :=
  versionMapOr [entry "17" "^17.0.0"; entry "18" "^18.0.0"; entry "19" "^18.0.0"] targetVersion "^18.0.0".

Definition getReactRouterVersion (targetVersion : jsstring) : jsstring :=
  versionMapOr [entry "17" "^6.0.0"; entry "18" "^6.8.0"; entry "19" "^6.20.0"] targetVersion "^6.8.0".

Definition getReactScriptsVersion (targetVersion : jsstring) : jsstring :=
  versionMapOr [entry "17" "^5.0.0"; entry "18" "^5.0.1"; entry "19" "^5.0.1"] targetVersion "^5.0.1".

Definition getReactReduxVersion (targetVersion : jsstring) : jsstring :=
  versionMapOr [entry "17" "^8.0.0"; entry "18" "^8.0.5"; entry "19" "^9.0.0"] targetVersion "^8.0.5".

Definition getReduxToolkitVersion (targetVersion : jsstring) : jsstring :=
  versionMapOr [entry "17" "^1.8.0"; entry "18" "^1.9.0"; entry "19" "^2.0.0"] targetVersion "^1.9.0".

Definition getReactHookFormVersion (targetVersion : jsstring) : jsstring :=
  versionMapOr [entry "17" "^7.40.0"; entry "18" "^7.45.0"; entry "19" "^7.48.0"] targetVersion "^7.45.0".

Definition getFormikVersion (targetVersion : jsstring) : jsstring :=
  versionMapOr [entry "17" "^2.2.9"; entry "18" "^2.4.0"; entry "19" "^2.4.5"] targetVersion "^2.4.0".

Definition getStyledComponentsVersion (targetVersion : jsstring) : jsstring :=
  versionMapOr [entry "17" "^5.3.0"; entry "18" "^6.0.0"; entry "19" "^6.1.0"] targetVersion "^6.0.0".

Definition getEmotionVersion (targetVersion : jsstring) : jsstring :=
  versionMapOr [entry "17" "^11.10.0"; entry "18" "^11.11.0"; entry "19" "^11.11.0"] targetVersion "^11.11.0".

Definition getReactTransitionGroupVersion (targetVersion : jsstring) : jsstring :=
  versionMapOr [entry "17" "^4.4.2"; entry "18" "^4.4.5"; entry "19" "^4.4.5"] targetVersion "^4.4.5".

Definition getReactSelectVersion (targetVersion : jsstring) : jsstring :=
  versionMapOr [entry "17" "^5.4.0"; entry "18" "^5.7.0"; entry "19" "^5.8.0"] targetVersion "^5.7.0".

Definition getReactDatepickerVersion (targetVersion : jsstring) : jsstring :=
  versionMapOr [entry "17" "^4.8.0"; entry "18" "^4.16.0"; entry "19" "^4.20.0"] targetVersion "^4.16.0".

Definition getReactModalVersion (targetVersion : jsstring) : jsstring :=
  versionMapOr [entry "17" "^3.15.0"; entry "18" "^3.16.0"; entry "19" "^3.16.0"] targetVersion "^3.16.0".

Definition getReactHelmetVersion (targetVersion : jsstring) : jsstring :=
  versionMapOr [entry "17" "^6.1.0"; entry "18" "^6.1.0"; entry "19" "^6.1.0"] targetVersion "^6.1.0".

Definition getReactHelmetAsyncVersion (targetVersion : jsstring) : jsstring :=
  versionMapOr [entry "17" "^1.3.0"; entry "18" "^1.3.0"; entry "19" "^2.0.0"] targetVersion "^1.3.0".

Definition getReactVirtualizedVersion (targetVersion : jsstring) : jsstring :=
  versionMapOr [entry "17" "^9.22.3"; entry "18" "^9.22.3"; entry "19" "^9.22.3"] targetVersion "^9.22.3".

Definition getReactWindowVersion (targetVersion : jsstring) : jsstring :=
  versionMapOr [entry "17" "^1.8.6"; entry "18" "^1.8.8"; entry "19" "^1.8.8"] targetVersion "^1.8.8".

Definition getReactDndVersion (targetVersion : jsstring) : jsstring :=
  versionMapOr [entry "17" "^16.0.0"; entry "18" "^16.0.1"; entry "19" "^16.0.1"] targetVersion "^16.0.1".

Definition getReactBeautifulDndVersion (targetVersion : jsstring) : jsstring :=
  versionMapOr [entry "17" "^13.1.0"; entry "18" "^13.1.1"; entry "19" "^13.1.1"] targetVersion "^13.1.1".

Definition getReactDropzoneVersion (targetVersion : jsstring) : jsstring :=
  versionMapOr [entry "17" "^14.2.0"; entry "18" "^14.2.3"; entry "19" "^14.2.3"] targetVersion "^14.2.3".

Definition getReactTableVersion (targetVersion : jsstring) : jsstring :=
  versionMapOr [entry "17" "^7.8.0"; entry "18" "^7.8.0"; entry "19" "^7.8.0"] targetVersion "^7.8.0".

Definition getTanstackReactTableVersion (targetVersion : jsstring) : jsstring :=
  versionMapOr [entry "17" "^8.9.0"; entry "18" "^8.10.0"; entry "19" "^8.11.0"] targetVersion "^8.10.0".

Definition getReactQueryVersion (targetVersion : jsstring) : jsstring :=
  versionMapOr [entry "17" "^3.39.0"; entry "18" "^3.39.0"; entry "19" "^3.39.0"] targetVersion "^3.39.0".

Definition getTanstackReactQueryVersion (targetVersion : jsstring) : jsstring :=
  versionMapOr [entry "17" "^4.29.0"; entry "18" "^4.36.0"; entry "19" "^5.0.0"] targetVersion "^4.36.0".

Definition getReactSpringVersion (targetVersion : jsstring) : jsstring :=
  versionMapOr [entry "17" "^9.7.0"; entry "18" "^9.7.0"; entry "19" "^9.7.0"] targetVersion "^9.7.0".

Definition getFramerMotionVersion (targetVersion : jsstring) : jsstring :=
  versionMapOr [entry "17" "^10.0.0"; entry "18" "^10.16.0"; entry "19" "^11.0.0"] targetVersion "^10.16.0".

Definition getReactIntlVersion (targetVersion : jsstring) : jsstring :=
  versionMapOr [entry "17" "^6.4.0"; entry "18" "^6.5.0"; entry "19" "^6.6.0"] targetVersion "^6.5.0".

Definition getReactI18nextVersion (targetVersion : jsstring) : jsstring :=
  versionMapOr [entry "17" "^12.3.0"; entry "18" "^13.5.0"; entry "19" "^14.0.0"] targetVersion "^13.5.0".

Definition getNextVersion (targetVersion : jsstring) : jsstring :=
  versionMapOr [entry "17" "^13.0.0"; entry "18" "^14.0.0"; entry "19" "^14.0.0"] targetVersion "^14.0.0".

Definition getGatsbyVersion (targetVersion : jsstring) : jsstring :=
  versionMapOr [entry "17" "^5.0.0"; entry "18" "^5.12.0"; entry "19" "^5.12.0"] targetVersion "^5.12.0".

Definition getReactHotToastVersion (targetVersion : jsstring) : jsstring :=
  versionMapOr [entry "17" "^2.4.0"; entry "18" "^2.4.1"; entry "19" "^2.4.1"] targetVersion "^2.4.1".

Definition getReactToastifyVersion (targetVersion : jsstring) : jsstring :=
  versionMapOr [entry "17" "^9.1.0"; entry "18" "^9.1.3"; entry "19" "^10.0.0"] targetVersion "^9.1.3".

Definition getReactIconsVersion (targetVersion : jsstring) : jsstring :=
  versionMapOr [entry "17" "^4.10.0"; entry "18" "^4.12.0"; entry "19" "^5.0.0"] targetVersion "^4.12.0".

Definition getReactUseVersion (targetVersion : jsstring) : jsstring :=
  versionMapOr [entry "17" "^17.4.0"; entry "18" "^17.5.0"; entry "19" "^17.5.0"] targetVersion "^17.5.0".

Definition getReactErrorBoundaryVersion (targetVersion : jsstring) : jsstring :=
  versionMapOr [entry "17" "^4.0.0"; entry "18" "^4.0.11"; entry "19" "^4.0.11"] targetVersion "^4.0.11".

Definition getReactLoadableVersion (targetVersion : jsstring) : jsstring :=
  versionMapOr [entry "17" "^5.5.0"; entry "18" "^5.5.0"; entry "19" "^5.5.0"] targetVersion "^5.5.0".

Definition getLoadableComponentVersion (targetVersion : jsstring) : jsstring :=
  versionMapOr [entry "17" "^5.15.0"; entry "18" "^5.16.0"; entry "19" "^5.16.0"] targetVersion "^5.16.0".

Definition getReactLazyloadVersion (targetVersion : jsstring) : jsstring :=
  versionMapOr [entry "17" "^3.2.0"; entry "18" "^3.2.0"; entry "19" "^3.2.0"] targetVersion "^3.2.0".

Definition getReactIntersectionObserverVersion (targetVersion : jsstring) : jsstring :=
  versionMapOr [entry "17" "^9.4.0"; entry "18" "^9.5.0"; entry "19" "^9.5.0"] targetVersion "^9.5.0".

(** The entries of the object built by [getReactRelatedPackages], in the
    order of the literal (the order [Object.entries] follows). *)
Definition getReactRelatedPackages (targetVersion : jsstring)
    : list (jsstring * jsstring) :=
  [
    (u "@testing-library/react", getTestingLibraryVersion targetVersion);
    (u "@types/react", getTypesVersion targetVersion);
    (u "@types/react-dom", getTypesVersion targetVersion);
    (u "react-router-dom", getReactRouterVersion targetVersion);
    (u "react-router", getReactRouterVersion targetVersion);
    (u "react-scripts", getReactScriptsVersion targetVersion);
    (u "react-redux", getReactReduxVersion targetVersion);
    (u "@reduxjs/toolkit", getReduxToolkitVersion targetVersion);
    (u "react-hook-form", getReactHookFormVersion targetVersion);
    (u "formik", getFormikVersion targetVersion);
    (u "styled-components", getStyledComponentsVersion targetVersion);
    (u "@emotion/react", getEmotionVersion targetVersion);
    (u "@emotion/styled", getEmotionVersion targetVersion);
    (u "react-transition-group", getReactTransitionGroupVersion targetVersion);
    (u "react-select", getReactSelectVersion targetVersion);
    (u "react-datepicker", getReactDatepickerVersion targetVersion);
    (u "react-modal", getReactModalVersion targetVersion);
    (u "react-helmet", getReactHelmetVersion targetVersion);
    (u "react-helmet-async", getReactHelmetAsyncVersion targetVersion);
    (u "react-virtualized", getReactVirtualizedVersion targetVersion);
    (u "react-window", getReactWindowVersion targetVersion);
    (u "react-dnd", getReactDndVersion targetVersion);
    (u "react-beautiful-dnd", getReactBeautifulDndVersion targetVersion);
    (u "react-dropzone", getReactDropzoneVersion targetVersion);
    (u "react-table", getReactTableVersion targetVersion);
    (u "@tanstack/react-table", getTanstackReactTableVersion targetVersion);
    (u "react-query", getReactQueryVersion targetVersion);
    (u "@tanstack/react-query", getTanstackReactQueryVersion targetVersion);
    (u "react-spring", getReactSpringVersion targetVersion);
    (u "framer-motion", getFramerMotionVersion targetVersion);
    (u "react-intl", getReactIntlVersion targetVersion);
    (u "react-i18next", getReactI18nextVersion targetVersion);
    (u "next", getNextVersion targetVersion);
    (u "gatsby", getGatsbyVersion targetVersion);
    (u "react-hot-toast", getReactHotToastVersion targetVersion);
    (u "react-toastify", getReactToastifyVersion targetVersion);
    (u "react-icons", getReactIconsVersion targetVersion);
    (u "react-use", getReactUseVersion targetVersion);
    (u "react-error-boundary", getReactErrorBoundaryVersion targetVersion);
    (u "react-loadable", getReactLoadableVersion targetVersion);
    (u "@loadable/component", getLoadableComponentVersion targetVersion);
    (u "react-lazyload", getReactLazyloadVersion targetVersion);
    (u "react-intersection-observer", getReactIntersectionObserverVersion targetVersion)
  ].

(** The parsed manifest: the two sections the tool looks at, each a map from
    package name to version range when present, and the remaining top-level
    members, which the tool never touches. *)
Record PackageJson := mkPackageJson {
  dependencies : option (gmap jsstring jsstring);
  devDependencies : option (gmap jsstring jsstring);
  others : list (jsstring * jsstring)
}.

(** [section?.[name]] *)
Definition get_dep (section : option (gmap jsstring jsstring))
    (name : jsstring) : option jsstring :=
  match section with
  | Some m => m !! name
  | None => None
  end.

(** [section[name] = version] on a section that exists. *)
Definition set_dep (name version : jsstring)
    (section : option (gmap jsstring jsstring))
    : option (gmap jsstring jsstring) :=
  match section with
  | Some m => Some (<[name := version]> m)
  | None => None
  end.

(** [if (section?.[name]) section[name] = version] *)
Definition pin (name version : jsstring)
    (section : option (gmap jsstring jsstring))
    : option (gmap jsstring jsstring) :=
  if JS.truthy (get_dep section name) then set_dep name version section
  else section.

(** One turn of the loop over the related packages. *)
Definition updateRelated (packageJson : PackageJson)
    (entry : jsstring * jsstring) : PackageJson :=
  let '(pkg, version) := entry in
  if JS.truthy (get_dep (dependencies packageJson) pkg)
     || JS.truthy (get_dep (devDependencies packageJson) pkg)
  then
    mkPackageJson
      (pin pkg version (dependencies packageJson))
      (pin pkg version (devDependencies packageJson))
      (others packageJson)
  else packageJson.

(** The in-memory part of [updateDependencies]: what happens to the parsed
    manifest before it is written back. *)
Definition resolveDependencyUpdates (targetVersion : jsstring)
    (packageJson : PackageJson) : PackageJson :=
  let deps := pin (u "react") (u "^" ++ targetVersion)
                (dependencies packageJson) in
  let deps := pin (u "react-dom") (u "^" ++ targetVersion) deps in
  let packageJson :=
    mkPackageJson deps (devDependencies packageJson) (others packageJson) in
  fold_left updateRelated (getReactRelatedPackages targetVersion) packageJson.

(** The closed set of target versions, [['17', '18', '19']]. *)
Definition supportedVersions : list jsstring := [u "17"; u "18"; u "19"].

Definition supported (targetVersion : jsstring) : bool :=
  bool_decide (targetVersion ∈ supportedVersions).

(** ** Effects: the file system, the trace of input and output, exceptions *)

Inductive event :=
| EvRead (p : path)
| EvWrite (p : path)
| EvExec (command : jsstring).

Record World := mkWorld {
  tool : Tool;
  fs : node;
  trace : list event
}.

Inductive result (A : Type) :=
| Ok (a : A)
| Throw (message : jsstring).
Arguments Ok {A} a.
Arguments Throw {A} message.

(** A computation may change the world and either returns or throws. *)
Definition M (A : Type) : Type := World -> result A * World.

Definition ret {A : Type} (a : A) : M A := fun w => (Ok a, w).

Definition bind {A B : Type} (m : M A) (f : A -> M B) : M B :=
  fun w =>
    match m w with
    | (Ok a, w') => f a w'
    | (Throw e, w') => (Throw e, w')
    end.

Definition throw {A : Type} (message : jsstring) : M A :=
  fun w => (Throw message, w).

(** [try { m } catch (error) { h error.message }] *)
Definition try_catch {A : Type} (m : M A) (h : jsstring -> M A) : M A :=
  fun w =>
    match m w with
    | (Ok a, w') => (Ok a, w')
    | (Throw e, w') => h e w'
    end.

Declare Scope io_scope.
Delimit Scope io_scope with io.
Notation "'let*' x ':=' m 'in' k" := (bind m (fun x => k))
  (at level 10, x name, m at level 100, k at level 200, only parsing)
  : io_scope.
Notation "m ;;; k" := (bind m (fun _ => k))
  (at level 100, k at level 200, only parsing, right associativity) : io_scope.
Local Open Scope io_scope.

Definition when (b : bool) (m : M unit) : M unit :=
  if b then m else ret tt.

Fixpoint forEach {A : Type} (l : list A) (body : A -> M unit) : M unit :=
  match l with
  | [] => ret tt
  | a :: l' => body a ;;; forEach l' body
  end.

Definition getTool : M Tool := fun w => (Ok (tool w), w).

Definition modifyTool (f : Tool -> Tool) : M unit :=
  fun w => (Ok tt, mkWorld (f (tool w)) (fs w) (trace w)).

(** Run a method that returns a value and updates the tool's logs. *)
Definition onTool {A : Type} (f : Tool -> A * Tool) : M A :=
  fun w => let '(a, t) := f (tool w) in (Ok a, mkWorld t (fs w) (trace w)).

(** [fs.existsSync] *)
Definition existsSync (p : path) : M bool :=
  fun w => (Ok (exists_path p (fs w)), w).

(** [fs.readFileSync(p, 'utf8')]: throws when there is no file at [p]. *)
Definition readFileSync (p : path) : M jsstring :=
  fun w =>
    let w' := mkWorld (tool w) (fs w) (trace w ++ [EvRead p]) in
    match read_file p (fs w) with
    | Some c => (Ok c, w')
    | None => (Throw (u "ENOENT: no such file"), w')
    end.

(** [fs.writeFileSync] *)
Definition writeFileSync (p : path) (c : jsstring) : M unit :=
  fun w =>
    (Ok tt, mkWorld (tool w) (write_file p c (fs w)) (trace w ++ [EvWrite p])).

(** What the tool takes from its environment: the JSON reader and printer
    for the manifest, the rewriting of [tsconfig.json] and the outcome of the
    installer.
    - [JSON_parse_package text] is [JSON.parse(text)] followed by the reading
      of its two sections; [inl message] when that throws.
    - [tsconfig_rewrite setJsx text] is [JSON.parse(text)], then (when
      [setJsx]) [compilerOptions.jsx = 'react-jsx'], then
      [JSON.stringify(_, null, 2)]; [inl message] when that throws.
    - [npm_install fs] is the outcome of [execSync('npm install')]:
      [Some message] when it throws.  What the installer stores under
      [node_modules] is outside the modelled tree.
    - [JSON_parse_peer_react text] is [JSON.parse(text).peerDependencies?.react]
      for the manifest of an installed package; [None] when that throws. *)
Class Externals := {
  JSON_parse_package : jsstring -> jsstring + PackageJson;
  JSON_stringify_package : PackageJson -> jsstring;
  tsconfig_rewrite : bool -> jsstring -> jsstring + jsstring;
  npm_install : node -> option jsstring;
  JSON_parse_peer_react : jsstring -> option (option jsstring)
}.

Module Base.
Import JS.

Section Tool.
Context {E : Externals}.

Definition packageJsonPath : path := [u "package.json"].

Definition parsePackage (text : jsstring) : M PackageJson :=
  match JSON_parse_package text with
  | inl message => throw message
  | inr packageJson => ret packageJson
  end.

(** [/\.(jsx?|tsx?)$/] *)
Definition reactFileRegex : regex :=
  Rules.cat [ Lit (u ".");
              Alt (Seq (Lit (u "js")) (Rep Opt true (isOneOf [120%N])))
                  (Seq (Lit (u "ts")) (Rep Opt true (isOneOf [120%N])));
              EndAnchor ].

(** [getReactFiles(dir)], on the directory node found at [dir]. *)
Fixpoint getReactFiles (dir : path) (n : node) : list path :=
  match n with
  | File _ => []
  | Dir items =>
      flat_map
        (fun entry : jsstring * node =>
           let fullPath := dir ++ [fst entry] in
           match snd entry with
           | Dir _ =>
               if negb (startsWith (fst entry) (u "."))
                  && negb (bool_decide (fst entry = u "node_modules"))
               then getReactFiles fullPath (snd entry)
               else []
           | File _ =>
               if test reactFileRegex (fst entry) then [fullPath] else []
           end)
        items
  end.

Definition findReactFiles : M unit :=
  let srcPath := [u "src"] in
  let* w := (fun w => (Ok w, w)) in
  match get_node srcPath (fs w) with
  | None => modifyTool (pushIssue (u "src directory not found"))
  | Some (File _) => throw (u "ENOTDIR: not a directory, scandir")
  | Some (Dir items) =>
      modifyTool (setReactFiles (getReactFiles srcPath (Dir items)))
  end.

Definition analyzeProject : M unit :=
  let* found := existsSync packageJsonPath in
  if negb found then
    throw (u "package.json not found. Are you in a React project?")
  else
    let* text := readFileSync packageJsonPath in
    let* packageJson := parsePackage text in
    let currentReactVersion :=
      if truthy (get_dep (dependencies packageJson) (u "react"))
      then get_dep (dependencies packageJson) (u "react")
      else get_dep (devDependencies packageJson) (u "react") in
    if negb (truthy currentReactVersion) then
      throw (u "React not found in dependencies")
    else findReactFiles.

Definition updateDependencies : M unit :=
  let* text := readFileSync packageJsonPath in
  let* packageJson := parsePackage text in
  let* t := getTool in
  let packageJson := resolveDependencyUpdates (targetVersion t) packageJson in
  if negb (dryRun (options t)) then
    writeFileSync packageJsonPath (JSON_stringify_package packageJson) ;;;
    modifyTool (pushFix (u "Updated package.json with new React versions")) ;;;
    (fun w =>
       let w' := mkWorld (tool w) (fs w)
                   (trace w ++ [EvExec (u "npm install")]) in
       match npm_install (fs w) with
       | None =>
           modifyTool (pushFix (u "Installed updated dependencies")) w'
       | Some message =>
           modifyTool
             (pushIssue (u "Failed to install dependencies: " ++ message)) w'
       end)
  else
    modifyTool
      (pushFix (u "Would update package.json with new React versions (dry run)")).

Definition transformFile (filePath : path) : M unit :=
  let* content := readFileSync filePath in
  let fileName := basename filePath in
  let* transformedContent :=
    onTool (Rules.rewritePipeline content fileName) in
  let* t := getTool in
  if negb (bool_decide (transformedContent = content))
     && negb (dryRun (options t)) then
    writeFileSync filePath transformedContent ;;;
    modifyTool (pushFix (u "Transformed " ++ fileName))
  else if negb (bool_decide (transformedContent = content)) then
    modifyTool (pushFix (u "Would transform " ++ fileName ++ u " (dry run)"))
  else ret tt.

Definition transformCode : M unit :=
  let* t := getTool in
  forEach (reactFiles t) transformFile.

Definition updateTsConfig (tsConfigPath : path) : M unit :=
  try_catch
    (let* text := readFileSync tsConfigPath in
     let* t := getTool in
     match tsconfig_rewrite (ge (targetVersion t) (u "17")) text with
     | inl message => throw message
     | inr updated =>
         when (ge (targetVersion t) (u "17"))
           (modifyTool
              (pushFix (u "Updated tsconfig.json with new JSX transform"))) ;;;
         when (negb (dryRun (options t)))
           (writeFileSync tsConfigPath updated)
     end)
    (fun message =>
       modifyTool (pushIssue (u "Failed to update tsconfig.json: " ++ message))).

Definition updateJestConfig (jestConfigPath : path) : M unit :=
  try_catch
    (let* jestConfigContent := readFileSync jestConfigPath in
     let* t := getTool in
     when (ge (targetVersion t) (u "18"))
       (when (negb (includes jestConfigContent (u "setupFilesAfterEnv")))
          (modifyTool (pushIssue
             (u "Consider adding setupFilesAfterEnv for React 18 testing setup"))) ;;;
        when (negb (includes jestConfigContent (u "testEnvironment")))
          (modifyTool (pushIssue
             (u "Ensure testEnvironment is set to " ++ DQ ++ u "jsdom" ++ DQ ++
              u " for React testing")))) ;;;
     modifyTool (pushIssue
       (u "Review Jest configuration for React testing compatibility")))
    (fun message =>
       modifyTool
         (pushIssue (u "Failed to analyze Jest configuration: " ++ message))).

Definition updateEslintConfig (eslintConfigPath : path) : M unit :=
  try_catch
    (let* eslintContent := readFileSync eslintConfigPath in
     let* t := getTool in
     if negb (includes eslintContent (u "react")) then
       modifyTool (pushIssue (u "Add React plugin to ESLint configuration"))
     else
       when (negb (includes eslintContent (DQ ++ u "version" ++ DQ)))
         (modifyTool (pushIssue
            (u "Add " ++ DQ ++ u "react" ++ DQ ++ u ": { " ++ DQ ++ u "version" ++
             DQ ++ u ": " ++ DQ ++ targetVersion t ++ DQ ++
             u " } to ESLint settings"))) ;;;
       when (ge (targetVersion t) (u "17")
             && negb (includes eslintContent (u "jsx-runtime")))
         (modifyTool (pushIssue
            (u "Consider adding " ++ DQ ++ u "react/jsx-uses-react" ++ DQ ++
             u ": " ++ DQ ++ u "off" ++ DQ ++ u " and " ++ DQ ++
             u "react/react-in-jsx-scope" ++ DQ ++ u ": " ++ DQ ++ u "off" ++ DQ ++
             u " for new JSX transform"))))
    (fun message =>
       modifyTool
         (pushIssue (u "Failed to analyze ESLint configuration: " ++ message))).

Definition checkBabelConfig : M unit :=
  let babelConfigs :=
    [ [u ".babelrc"]; [u ".babelrc.js"]; [u ".babelrc.json"];
      [u "babel.config.js"]; [u "babel.config.json"] ] in
  let* w := (fun w => (Ok w, w)) in
  match find (fun configPath => exists_path configPath (fs w)) babelConfigs with
  | Some _ =>
      when (ge (targetVersion (tool w)) (u "17"))
        (modifyTool (pushIssue
           (u "Update Babel React preset to use automatic JSX runtime: {" ++ DQ ++
            u "runtime" ++ DQ ++ u ": " ++ DQ ++ u "automatic" ++ DQ ++ u "}")))
  | None => ret tt
  end.

Definition checkWebpackConfig : M unit :=
  let webpackConfigs :=
    [ [u "webpack.config.js"]; [u "webpack.config.ts"];
      [u "config"; u "webpack.config.js"] ] in
  let* w := (fun w => (Ok w, w)) in
  match find (fun configPath => exists_path configPath (fs w)) webpackConfigs with
  | Some _ =>
      modifyTool (pushIssue
        (u "Review webpack configuration for React compatibility")) ;;;
      when (ge (targetVersion (tool w)) (u "18"))
        (modifyTool (pushIssue
           (u "Ensure webpack supports React 18 features like Suspense and concurrent rendering")))
  | None => ret tt
  end.

Definition updateConfiguration : M unit :=
  let* hasTs := existsSync [u "tsconfig.json"] in
  when hasTs (updateTsConfig [u "tsconfig.json"]) ;;;
  let* hasJest := existsSync [u "jest.config.js"] in
  when hasJest (updateJestConfig [u "jest.config.js"]) ;;;
  let* hasEslint := existsSync [u ".eslintrc.js"] in
  when hasEslint (updateEslintConfig [u ".eslintrc.js"]) ;;;
  checkBabelConfig ;;;
  checkWebpackConfig.

(** How an invocation ends: normally, or through [process.exit(1)]. *)
Inductive outcome :=
| Completed
| Exit1 (message : jsstring).

(** [migrate(targetVersion, projectPath, options)]; the project root is the
    root of the modelled tree.  [generateReport] only prints. *)
Definition migrate (targetVersion : jsstring) (options : MigrationOptions)
    (w : World) : outcome * World :=
  let w := mkWorld (configure targetVersion options (tool w)) (fs w) (trace w) in
  let body : M unit :=
    analyzeProject ;;;
    when (negb (skipDeps options)) updateDependencies ;;;
    when (negb (depsOnly options)) (transformCode ;;; updateConfiguration) in
  match body w with
  | (Ok _, w') => (Completed, w')
  | (Throw message, w') => (Exit1 message, w')
  end.

(** A fresh tool object on the project [root]. *)
Definition start (root : node) : World := mkWorld newTool root [].

(** The action of the default command. *)
Definition cliMigrate (targetVersion : jsstring) (options : MigrationOptions)
    (root : node) : outcome * World :=
  if negb (bool_decide (targetVersion ∈ supportedVersions)) then
    (Exit1 (u "Unsupported target version. Use 17, 18, or 19"), start root)
  else migrate targetVersion options (start root).

(** The action of the [check] command. *)
Definition cliCheck (targetVersion : jsstring) (root : node)
    : outcome * World :=
  migrate targetVersion (mkOptions true false false false) (start root).

End Tool.
End Base.

(** ** The extended variant: peer dependencies *)

Module Extended.
Import JS.

(** The value of [parseInt]: not a number, a finite integer, or an infinity
    (for digit strings beyond the range of a double). *)
Inductive number :=
| NaN
| Num (z : Z)
| Infinity (negative : bool).

(** [a === b] on numbers: [NaN] equals nothing, itself included. *)
Definition strictEquals (a b : number) : bool :=
  match a, b with
  | Num x, Num y => Z.eqb x y
  | Infinity n, Infinity m => Bool.eqb n m
  | _, _ => false
  end.

(** The value of a digit in the given radix. *)
Definition digitValue (radix c : N) : option N :=
  let v :=
    if (48 <=? c)%N && (c <=? 57)%N then Some (c - 48)%N
    else if (97 <=? c)%N && (c <=? 122)%N then Some (c - 87)%N
    else if (65 <=? c)%N && (c <=? 90)%N then Some (c - 55)%N
    else None in
  match v with
  | Some d => if (d <? radix)%N then Some d else None
  | None => None
  end.

(** The longest prefix of digits: how many there are and their value. *)
Fixpoint readDigits (radix : N) (count : nat) (acc : N) (s : jsstring)
    : nat * N :=
  match s with
  | [] => (count, acc)
  | c :: s' =>
      match digitValue radix c with
      | Some d => readDigits radix (S count) (acc * radix + d)%N s'
      | None => (count, acc)
      end
  end.

(** An integer as a double: exact below [2^53], otherwise rounded to 53
    significant bits, ties to even; an infinity from [2^1024] on. *)
Definition roundToDouble (m : N) : option N :=
  if (m <? 2 ^ 53)%N then Some m
  else
    let e := (N.log2 m - 52)%N in
    let q := (m / 2 ^ e)%N in
    let r := (m mod 2 ^ e)%N in
    let half := (2 ^ (e - 1))%N in
    let q' := if (half <? r)%N || ((r =? half)%N && N.odd q)
              then (q + 1)%N else q in
    let v := (q' * 2 ^ e)%N in
    if (v <? 2 ^ 1024)%N then Some v else None.

Fixpoint trimStart (s : jsstring) : jsstring :=
  match s with
  | c :: s' => if isSpace c then trimStart s' else s
  | [] => []
  end.

(** [parseInt(string)] without a radix: leading white space, an optional
    sign, an optional [0x] or [0X] prefix, then the longest run of digits.
    (An engine may round a decimal literal of more than 20 significant
    digits slightly differently; that latitude is not modelled.) *)
Definition parseInt (s : jsstring) : number :=
  let s := trimStart s in
  let '(negative, s) :=
    match s with
    | c :: s' =>
        if N.eqb c 45 then (true, s')
        else if N.eqb c 43 then (false, s')
        else (false, s)
    | [] => (false, s)
    end in
  let '(radix, s) :=
    match s with
    | a :: b :: s' =>
        if N.eqb a 48 && (N.eqb b 120 || N.eqb b 88) then (16%N, s')
        else (10%N, s)
    | _ => (10%N, s)
    end in
  match readDigits radix 0 0 s with
  | (O, _) => NaN
  | (S _, m) =>
      match roundToDouble m with
      | Some v => Num (if negative then - Z.of_N v else Z.of_N v)
      | None => Infinity negative
      end
  end.

(** [s.split('.')[0]] *)
Fixpoint firstSegment (s : jsstring) : jsstring :=
  match s with
  | [] => []
  | c :: s' => if N.eqb c 46 then [] else c :: firstSegment s'
  end.

(** [version.replace(/[\^~]/, '')]: the first caret or tilde, wherever it
    stands. *)
Definition stripRangeMark (version : jsstring) : jsstring :=
  replace_first (Cls (isOneOf [94; 126]%N)) (fun _ _ => []) version.

(** [parseInt(v.split('.')[0] || '0')] *)
Definition majorOf (version : jsstring) : number :=
  let v := stripRangeMark version in
  let segment := firstSegment v in
  parseInt (if truthy (Some segment) then segment else u "0").

Definition isVersionCompatible (version1 version2 : jsstring) : bool :=
  let major1 := majorOf version1 in
  let major2 := majorOf version2 in
  strictEquals major1 major2.

(** The components of a package name used as a relative path. *)
Fixpoint splitSlash (current : jsstring) (s : jsstring) : path :=
  match s with
  | [] => match current with [] => [] | _ => [current] end
  | c :: s' =>
      if N.eqb c 47 then
        match current with
        | [] => splitSlash [] s'
        | _ => current :: splitSlash [] s'
        end
      else splitSlash (current ++ [c]) s'
  end.

Definition installedManifestPath (pkg : jsstring) : path :=
  [u "node_modules"] ++ splitSlash [] pkg ++ [u "package.json"].

Section Tool.
Context {E : Externals}.

(** The peer requirement on [react] that the installed copy of [pkg]
    declares, when such a copy exists, can be parsed and declares one. *)
Definition peerReactVersion (root : node) (pkg : jsstring) : option jsstring :=
  match read_file (installedManifestPath pkg) root with
  | Some text =>
      match JSON_parse_peer_react text with
      | Some (Some peer) => if truthy (Some peer) then Some peer else None
      | _ => None
      end
  | None => None
  end.

(** [{...dependencies, ...devDependencies}]: on a common key the second
    section wins. *)
Definition allDeps (packageJson : PackageJson) : gmap jsstring jsstring :=
  default ∅ (devDependencies packageJson) ∪ default ∅ (dependencies packageJson).

(** Does [pkg] take part in the peer analysis? *)
Definition isReactRelatedName (pkg : jsstring) : bool :=
  includes pkg (u "react")
  && negb (bool_decide (pkg = u "react"))
  && negb (bool_decide (pkg = u "react-dom")).

Definition conflictLine (pkg peerReactVersion reactVersion : jsstring)
    : jsstring :=
  pkg ++ u " requires React " ++ peerReactVersion ++
  u " but we're upgrading to " ++ reactVersion.

(** The conflicts found by the loop of [analyzePeerDependencies].  The keys
    are visited in the order of the map, which need not be the order of the
    manifest text. *)
Definition peerConflicts (root : node) (targetVersion : jsstring)
    (packageJson : PackageJson) : list jsstring :=
  let reactVersion := u "^" ++ targetVersion in
  flat_map
    (fun entry : jsstring * jsstring =>
       let pkg := fst entry in
       if isReactRelatedName pkg then
         match peerReactVersion root pkg with
         | Some peer =>
             if negb (isVersionCompatible reactVersion peer)
             then [conflictLine pkg peer reactVersion]
             else []
         | None => []
         end
       else [])
    (map_to_list (allDeps packageJson)).

Definition analyzePeerDependencies (packageJson : PackageJson) : M unit :=
  fun w =>
    let conflicts :=
      peerConflicts (fs w) (targetVersion (tool w)) packageJson in
    let reads :=
      flat_map
        (fun entry : jsstring * jsstring =>
           if isReactRelatedName (fst entry)
              && exists_path (installedManifestPath (fst entry)) (fs w)
           then [EvRead (installedManifestPath (fst entry))] else [])
        (map_to_list (allDeps packageJson)) in
    let t :=
      match conflicts with
      | [] => tool w
      | _ :: _ =>
          fold_left (fun t conflict => pushIssue (u "  - " ++ conflict) t)
            conflicts
            (pushIssue (u "Peer dependency conflicts detected:") (tool w))
      end in
    (Ok tt, mkWorld t (fs w) (trace w ++ reads)).

(** [updateDependencies] of the extended variant: the peer analysis, then
    the steps of the base variant on the same parsed manifest. *)
Definition updateDependencies : M unit :=
  (let* text := readFileSync Base.packageJsonPath in
   let* packageJson := Base.parsePackage text in
   analyzePeerDependencies packageJson ;;;
   let* t := getTool in
   let packageJson := resolveDependencyUpdates (targetVersion t) packageJson in
   if negb (dryRun (options t)) then
     writeFileSync Base.packageJsonPath (JSON_stringify_package packageJson) ;;;
     modifyTool (pushFix (u "Updated package.json with new React versions")) ;;;
     (fun w =>
        let w' := mkWorld (tool w) (fs w)
                    (trace w ++ [EvExec (u "npm install")]) in
        match npm_install (fs w) with
        | None =>
            modifyTool (pushFix (u "Installed updated dependencies")) w'
        | Some message =>
            modifyTool
              (pushIssue (u "Failed to install dependencies: " ++ message)) w'
        end)
   else
     modifyTool
       (pushFix (u "Would update package.json with new React versions (dry run)")))%io.

End Tool.
End Extended.

(** ** Notions used by the statements *)

(** The key set of a section, when the section exists. *)
Definition sectionKeys (section : option (gmap jsstring jsstring)) : option (gset jsstring) :=
  match section with
  | Some m => Some (dom m)
  | None => None
  end.

(** The names of the related packages. *)
Definition relatedNames (targetVersion : jsstring) : list jsstring :=
  map fst (getReactRelatedPackages targetVersion).

(** What the whole loop does to a pair of sections. *)
Definition pinAll (entries : list (jsstring * jsstring))
    (section : option (gmap jsstring jsstring)) :=
  fold_left (fun s e => pin (fst e) (snd e) s) entries section.


(** ** Concrete manifests and projects for the examples *)

Definition quoted (s : jsstring) : jsstring := DQ ++ s ++ DQ.

Fixpoint joinWith (sep : jsstring) (l : list jsstring) : jsstring :=
  match l with
  | [] => []
  | [x] => x
  | x :: l' => x ++ sep ++ joinWith sep l'
  end.

Definition printMember (e : jsstring * jsstring) : jsstring :=
  quoted (fst e) ++ u ":" ++ quoted (snd e).

Definition printSection (name : string)
    (section : option (gmap jsstring jsstring)) : list jsstring :=
  match section with
  | Some m =>
      [quoted (u name) ++ u ":{" ++
       joinWith (u ",") (map printMember (map_to_list m)) ++ u "}"]
  | None => []
  end.

(** A JSON text for a manifest (compact, members of a section in map
    order). *)
Definition printManifest (packageJson : PackageJson) : jsstring :=
  u "{" ++
  joinWith (u ",")
    (printSection "dependencies" (dependencies packageJson) ++
     printSection "devDependencies" (devDependencies packageJson) ++
     map (fun e => quoted (fst e) ++ u ":" ++ snd e) (others packageJson)) ++
  u "}".

(** Scenario C of the specification. *)
Definition manifestScenarioC : PackageJson :=
  mkPackageJson
    (Some {[ u "react" := u "^16.0.0"; u "react-router-dom" := u "^5.0.0" ]})
    None [].

(** [react] listed in [dependencies] with the empty range (which stands for
    any version) and in [devDependencies] with a proper one. *)
Definition manifestEmptyRange : PackageJson :=
  mkPackageJson
    (Some {[ u "react" := [] ]})
    (Some {[ u "react" := u "^16.14.0" ]}) [].

(** [react] only in [devDependencies], with the empty range. *)
Definition manifestDevEmpty : PackageJson :=
  mkPackageJson None (Some {[ u "react" := [] ]}) [].

(** [react] only in [devDependencies]; related packages in both sections. *)
Definition manifestDevOnly : PackageJson :=
  mkPackageJson
    (Some {[ u "react-router-dom" := u "^5.2.0" ]})
    (Some {[ u "react" := u "^16.14.0"; u "react-dom" := u "^16.14.0";
             u "@types/react" := u "^16.9.0" ]}) [].

(** No [react] at all. *)
Definition manifestNoReact : PackageJson :=
  mkPackageJson (Some {[ u "lodash" := u "^4.17.21" ]}) None [].

Definition demoManifests : list PackageJson :=
  [ manifestScenarioC; manifestEmptyRange; manifestDevEmpty; manifestDevOnly;
    manifestNoReact ].

(** An environment for the examples: the reader knows the texts of the
    manifests above, the installer succeeds. *)
Definition demoExternals : Externals := {|
  JSON_parse_package := fun text =>
    match find (fun m => bool_decide (printManifest m = text)) demoManifests with
    | Some m => inr m
    | None => inl (u "Unexpected token in JSON")
    end;
  JSON_stringify_package := printManifest;
  tsconfig_rewrite := fun setJsx text =>
    if bool_decide (text = u "{}") then
      inr (if setJsx
           then u "{" ++ quoted (u "compilerOptions") ++ u ":{" ++
                quoted (u "jsx") ++ u ":" ++ quoted (u "react-jsx") ++ u "}}"
           else u "{}")
    else inl (u "Unexpected token in JSON");
  npm_install := fun _ => None;
  JSON_parse_peer_react := fun text =>
    match text with
    | [] => Some None
    | _ :: _ => Some (Some text)
    end
|}.

(** Scenario A of the specification. *)
Definition contentScenarioA : jsstring :=
  u "import ReactDOM from 'react-dom';" ++ LF ++
  u "ReactDOM.render(<App/>, document.getElementById('root'))".

(** Scenario B of the specification. *)
Definition contentScenarioB : jsstring :=
  u "componentWillMount() { init(); }".

Definition contentPlain : jsstring := u "export const answer = 42;".

Definition projectOf (packageJson : PackageJson)
    (sources : list (jsstring * node)) : node :=
  Dir [ (u "package.json", File (printManifest packageJson));
        (u "tsconfig.json", File (u "{}"));
        (u "src", Dir sources) ].

Definition demoSources : list (jsstring * node) :=
  [ (u "index.js", File contentScenarioA);
    (u "plain.ts", File contentPlain);
    (u "components", Dir [ (u "Old.jsx", File contentScenarioB) ]) ].

Definition projectScenario : node := projectOf manifestScenarioC demoSources.
Definition projectNoReact : node := projectOf manifestNoReact demoSources.
Definition projectDevEmpty : node := projectOf manifestDevEmpty demoSources.
Definition projectDevOnly : node := projectOf manifestDevOnly demoSources.

(** A project without a manifest. *)
Definition projectNoManifest : node := Dir [ (u "src", Dir demoSources) ].

Definition realRun : MigrationOptions := mkOptions false false false false.
Definition dryRunOnly : MigrationOptions := mkOptions true false false false.

(** Does some rewrite rule recognize a pattern in [content]?  The detectors
    of the five rules of [transformFile], the first under its version
    guard. *)
Definition recognizes (targetVersion content : jsstring) : bool :=
  (JS.ge targetVersion (u "18") && JS.test Rules.renderRegex content)
  || JS.includes content Rules.componentWillMount
  || JS.includes content Rules.componentWillReceiveProps
  || JS.includes content Rules.componentWillUpdate
  || JS.includes content (u "SyntheticEvent")
  || JS.includes content (u "React.PropTypes")
  || JS.includes content (u "React.FC")
  || JS.includes content (u "React.FunctionComponent").

(** A tool object set up for a target version. *)
Definition toolFor (targetVersion : jsstring) (o : MigrationOptions) : Tool :=
  configure targetVersion o newTool.

(** What [receivePropsRegex] asks of the text after the method name: white
    space, an opening parenthesis, a code unit that is not a closing
    parenthesis, and a closing parenthesis somewhere after it. *)
Definition hasCloseParen (s : jsstring) : bool := existsb (N.eqb 41) s.

Definition argumentListAt (s : jsstring) : bool :=
  match Extended.trimStart s with
  | c :: s' =>
      N.eqb c 40 &&
      match s' with
      | d :: s'' => negb (N.eqb d 41) && hasCloseParen s''
      | [] => false
      end
  | [] => false
  end.

Definition receivePropsCallAt (s : jsstring) : bool :=
  match JS.lit_prefix Rules.componentWillReceiveProps s with
  | Some s' => argumentListAt s'
  | None => false
  end.

(** The first substitution of [transformLifecycleMethods]. *)
Definition replaceWillMount (s : jsstring) : jsstring :=
  JS.replace_all (JS.Lit Rules.componentWillMount)
    (Rules.const_repl (u "componentDidMount")) s.

(** The third substitution of [transformLifecycleMethods]. *)
Definition replaceWillUpdate (s : jsstring) : jsstring :=
  JS.replace_all (JS.Lit Rules.componentWillUpdate)
    (Rules.const_repl (u "componentDidUpdate")) s.

Definition isSome {A : Type} (o : option A) : bool :=
  match o with Some _ => true | None => false end.

Definition receivePropsFix (fileName : jsstring) : jsstring :=
  fileName ++ u ": Replaced componentWillReceiveProps with componentDidUpdate".

Definition contentReceivePropsNoArgs : jsstring :=
  u "componentWillReceiveProps()".

(** What Scenario A becomes: the container is cut at its first closing
    parenthesis. *)
Definition scenarioATransformed : jsstring :=
  u "import { createRoot } from 'react-dom/client';" ++ LF ++
  u "const root = createRoot(document.getElementById('root');" ++ LF ++
  u "root.render(<App/>))".

(** The two-statement form for the call of Scenario A, with the whole
    second argument as the container. *)
Definition scenarioAExpected : jsstring :=
  u "import { createRoot } from 'react-dom/client';" ++ LF ++
  u "const root = createRoot(document.getElementById('root'));" ++ LF ++
  u "root.render(<App/>)".


Definition renderFix (fileName : jsstring) : jsstring :=
  fileName ++ u ": Updated ReactDOM.render to createRoot API".



(** ** Notions for the comparison of a dry run with a real run *)

Definition withDryRun (b : bool) (o : MigrationOptions) : MigrationOptions :=
  mkOptions b (verbose o) (skipDeps o) (depsOnly o).

Definition setOptions (o : MigrationOptions) (t : Tool) : Tool :=
  mkTool (targetVersion t) o (issues t) (fixes t) (reactFiles t).

(** Appending entries to the two logs. *)
Definition addLogs (newFixes newIssues : list jsstring) (t : Tool) : Tool :=
  mkTool (targetVersion t) (options t) (issues t ++ newIssues)
    (fixes t ++ newFixes) (reactFiles t).

Definition blankTool (targetVersion : jsstring) : Tool :=
  mkTool targetVersion (mkOptions false false false false) [] [] [].

(** The output of the pipeline and the entries it logs, on a tool object
    with empty logs. *)
Definition pipelineResult (targetVersion content fileName : jsstring)
    : jsstring * Tool :=
  Rules.rewritePipeline content fileName (blankTool targetVersion).

Definition updatedManifestFix : jsstring :=
  u "Updated package.json with new React versions".
Definition wouldUpdateManifestFix : jsstring :=
  u "Would update package.json with new React versions (dry run)".
Definition installedFix : jsstring := u "Installed updated dependencies".
Definition installFailedIssue (message : jsstring) : jsstring :=
  u "Failed to install dependencies: " ++ message.
Definition transformedFix (fileName : jsstring) : jsstring :=
  u "Transformed " ++ fileName.
Definition wouldTransformFix (fileName : jsstring) : jsstring :=
  u "Would transform " ++ fileName ++ u " (dry run)".

(** An entry of the real run and the entry of the dry run that stands for
    it: the same text, or its [would] phrasing. *)
Inductive entryEquiv : jsstring -> jsstring -> Prop :=
| SameEntry (e : jsstring) : entryEquiv e e
| ManifestEntry : entryEquiv updatedManifestFix wouldUpdateManifestFix
| FileEntry (fileName : jsstring) :
    entryEquiv (transformedFix fileName) (wouldTransformFix fileName).

(** The fix log of a real run against the fix log of a dry run: entry by
    entry, except for the installer's entry, which only the real run has. *)
Inductive fixesCorrespond : list jsstring -> list jsstring -> Prop :=
| FixesNil : fixesCorrespond [] []
| FixesStep (r d : jsstring) (rs ds : list jsstring) :
    entryEquiv r d -> fixesCorrespond rs ds ->
    fixesCorrespond (r :: rs) (d :: ds)
| FixesInstalled (rs ds : list jsstring) :
    fixesCorrespond rs ds -> fixesCorrespond (installedFix :: rs) ds.

(** The same for the issue logs: equal, except for the installer's failure,
    which only the real run can have. *)
Inductive issuesCorrespond : list jsstring -> list jsstring -> Prop :=
| IssuesNil : issuesCorrespond [] []
| IssuesStep (e : jsstring) (rs ds : list jsstring) :
    issuesCorrespond rs ds -> issuesCorrespond (e :: rs) (e :: ds)
| IssuesInstallFailed (message : jsstring) (rs ds : list jsstring) :
    issuesCorrespond rs ds ->
    issuesCorrespond (installFailedIssue message :: rs) ds.

Definition isReadEvent (e : event) : Prop :=
  match e with
  | EvRead _ => True
  | _ => False
  end.

(** No two entries of a directory share a name. *)
Fixpoint uniqueNames (n : node) : Prop :=
  match n with
  | File _ => True
  | Dir es =>
      NoDup (map fst es)
      /\ (fix all (l : list (jsstring * node)) : Prop :=
            match l with
            | [] => True
            | e :: l' => uniqueNames (snd e) /\ all l'
            end) es
  end.

(** A real run [wr] and a dry run [wd] of the same migration on the tree
    [f0], with the source files [files] found by both, after the real run
    has written the files [written]. *)
Record related (f0 : node) (oR oD : MigrationOptions) (files : list path)
    (written : list path) (wr wd : World) : Prop := mkRelated {
  rel_version : targetVersion (tool wr) = targetVersion (tool wd);
  rel_files : reactFiles (tool wr) = reactFiles (tool wd);
  rel_files_real : reactFiles (tool wr) = files;
  rel_options_real : options (tool wr) = oR;
  rel_options_dry : options (tool wd) = oD;
  rel_fixes : fixesCorrespond (fixes (tool wr)) (fixes (tool wd));
  rel_issues : issuesCorrespond (issues (tool wr)) (issues (tool wd));
  rel_fs_dry : fs wd = f0;
  rel_exists : forall q, exists_path q (fs wr) = exists_path q f0;
  rel_read : forall q, ~ In q written -> read_file q (fs wr) = read_file q f0;
  rel_trace : Forall isReadEvent (trace wd)
}.

(** A rule is framed when the content it returns and the entries it logs do
    not depend on the logs so far or on the options. *)
Definition framed (rule : jsstring -> jsstring -> Tool -> jsstring * Tool)
    : Prop :=
  forall content fileName t,
    rule content fileName t =
      (fst (rule content fileName (blankTool (targetVersion t))),
       addLogs
         (fixes (snd (rule content fileName (blankTool (targetVersion t)))))
         (issues (snd (rule content fileName (blankTool (targetVersion t)))))
         t).

(** The files found below [src]: no path twice, each a file of the tree,
    each below [src]. *)
Definition sourceFiles (f0 : node) (l : list path) : Prop :=
  NoDup l
  /\ forall p, In p l ->
       (exists c, read_file p f0 = Some c)
       /\ exists rest, p = u "src" :: rest.


(** A step of the migration keeps a real run and a dry run related, while
    the real run may come to write the files [written']. *)
Definition preserves (f0 : node) (oR oD : MigrationOptions)
    (files written written' : list path) (m : M unit) : Prop :=
  forall wr wd,
    related f0 oR oD files written wr wd ->
    fst (m wr) = fst (m wd)
    /\ related f0 oR oD files written' (snd (m wr)) (snd (m wd)).

(** ** Entry points and their preconditions *)

(** The entry points that take a target version: the action of the default
    command, the action of the [check] command, and the [migrate] method of
    the exported class called on a fresh tool object. *)
Inductive operation :=
| MigrateCommand (targetVersion : jsstring) (options : MigrationOptions)
| CheckCommand (targetVersion : jsstring)
| MigrateCall (targetVersion : jsstring) (options : MigrationOptions).

Definition runOperation {E : Externals} (op : operation) (root : node)
    : Base.outcome * World :=
  match op with
  | MigrateCommand targetVersion options =>
      Base.cliMigrate targetVersion options root
  | CheckCommand targetVersion => Base.cliCheck targetVersion root
  | MigrateCall targetVersion options =>
      Base.migrate targetVersion options (Base.start root)
  end.

(** The manifest is missing, or it is read and parsed and holds no truthy
    [react] range in either section. *)
Inductive manifestFailure {E : Externals} (root : node) : Prop :=
| ManifestMissing :
    exists_path Base.packageJsonPath root = false -> manifestFailure root
| FrameworkMissing (text : jsstring) (packageJson : PackageJson) :
    read_file Base.packageJsonPath root = Some text ->
    JSON_parse_package text = inr packageJson ->
    JS.truthy (get_dep (dependencies packageJson) (u "react")) = false ->
    JS.truthy (get_dep (devDependencies packageJson) (u "react")) = false ->
    manifestFailure root.

(** The failed preconditions: a target version outside the supported ones,
    which only the default command looks at, or a manifest failure. *)
Inductive preconditionFailure {E : Externals} : operation -> node -> Prop :=
| UnsupportedVersion (targetVersion : jsstring) (options : MigrationOptions)
    (root : node) :
    targetVersion ∉ supportedVersions ->
    preconditionFailure (MigrateCommand targetVersion options) root
| BadManifest (op : operation) (root : node) :
    manifestFailure root -> preconditionFailure op root.

(** ** Notions for the discovery of source files *)

(** The extensions that [/\.(jsx?|tsx?)$/] accepts. *)
Definition reactExtensions : list jsstring :=
  [u ".js"; u ".jsx"; u ".ts"; u ".tsx"].

(** The directories that [getReactFiles] descends into: those whose name
    neither starts with a dot nor is [node_modules]. *)
Definition searched (name : jsstring) : bool :=
  negb (JS.startsWith name (u "."))
  && negb (bool_decide (name = u "node_modules")).

(** ** Notions for the runs of [migrate] *)


(** A computation that keeps the list of source files [files] of the tool
    object and adds to the trace only events that satisfy [allowed]. *)
Definition emits {A : Type} (files : list path) (allowed : event -> Prop)
    (m : M A) : Prop :=
  forall w,
    reactFiles (tool w) = files ->
    reactFiles (tool (snd (m w))) = files
    /\ exists l, trace (snd (m w)) = trace w ++ l /\ Forall allowed l.



(** Reads, and writes of files other than the manifest. *)
Definition sparesManifest (e : event) : Prop :=
  match e with
  | EvRead _ => True
  | EvWrite p => p <> Base.packageJsonPath
  | EvExec _ => False
  end.

(** Options for the examples: a real run that skips the dependencies, and
    one that does the dependencies only. *)
Definition skipDepsRun : MigrationOptions := mkOptions false false true false.

(** ** Notions for the peer analysis *)

(** [line] reports a conflict found by [analyzePeerDependencies] in the
    world [w]: a dependency of the manifest other than [react] and
    [react-dom] whose name contains [react], and whose installed copy
    declares a peer range on [react] that fails the compatibility check
    against the target range. *)
Definition reportsConflict {E : Externals} (w : World)
    (packageJson : PackageJson) (line : jsstring) : Prop :=
  exists pkg peer,
    is_Some (Extended.allDeps packageJson !! pkg)
    /\ Extended.isReactRelatedName pkg = true
    /\ Extended.peerReactVersion (fs w) pkg = Some peer
    /\ Extended.isVersionCompatible (u "^" ++ targetVersion (tool w)) peer
       = false
    /\ line = u "  - " ++
              Extended.conflictLine pkg peer (u "^" ++ targetVersion (tool w)).

(** ** The extended variant: backups *)

(** [createBackup], [copyDirectory] and [rollback] work on the parent
    directory of the project: in this module the tree of a world is that
    parent directory, the project is its entry [projectName], and a backup
    [path.join(projectRoot, '..', backupId)] is its entry [backupId] (a
    backup id is taken to be one name, as [createBackup] makes them).  The
    field [backupInfo], which nothing reads, is left out, and so are the
    trace events. *)
Module Backup.
Import JS.

(** Why a file-system call fails. *)
Inductive fsFailure :=
| NotFound
| NotADirectory
| IsADirectory
| AlreadyExists.

Fixpoint remove_entry (name : jsstring) (es : list (jsstring * node))
    : list (jsstring * node) :=
  match es with
  | [] => []
  | (x, m) :: es' =>
      if decide (x = name) then es' else (x, m) :: remove_entry name es'
  end.

(** [mkdir(p, { recursive: true })]: the directories missing on the way are
    created; an existing directory is left as it is. *)
Fixpoint mkdirp (p : path) (n : node) : fsFailure + node :=
  match p with
  | [] =>
      match n with
      | Dir _ => inr n
      | File _ => inl AlreadyExists
      end
  | x :: p' =>
      match n with
      | File _ => inl NotADirectory
      | Dir es =>
          match lookup_entry x es with
          | Some m =>
              match mkdirp p' m with
              | inr m' => inr (Dir (update_entry x (fun _ => m') es))
              | inl failure => inl failure
              end
          | None =>
              match mkdirp p' (Dir []) with
              | inr m' => inr (Dir (es ++ [(x, m')]))
              | inl failure => inl failure
              end
          end
      end
  end.

(** The writing half of [copyFile]: the file at [p] is created in its
    directory or overwritten. *)
Fixpoint put_file (p : path) (c : jsstring) (n : node) : fsFailure + node :=
  match p with
  | [] =>
      match n with
      | File _ => inr (File c)
      | Dir _ => inl IsADirectory
      end
  | x :: p' =>
      match n with
      | File _ => inl NotADirectory
      | Dir es =>
          match lookup_entry x es with
          | Some m =>
              match put_file p' c m with
              | inr m' => inr (Dir (update_entry x (fun _ => m') es))
              | inl failure => inl failure
              end
          | None =>
              match p' with
              | [] => inr (Dir (es ++ [(x, File c)]))
              | _ :: _ => inl NotFound
              end
          end
      end
  end.

(** The entry at [p] is taken out of its directory, when there is one. *)
Fixpoint remove_at (p : path) (n : node) : node :=
  match p with
  | [] => n
  | x :: p' =>
      match n with
      | File _ => n
      | Dir es =>
          match p' with
          | [] => Dir (remove_entry x es)
          | _ :: _ => Dir (update_entry x (remove_at p') es)
          end
      end
  end.

Section Tool.
(** The text of the error of a failed file-system call on a path, and the
    text of a path, as the platform prints them. *)
Variable errorMessage : fsFailure -> path -> jsstring.
Variable showPath : path -> jsstring.
(** The name of the project directory in its parent. *)
Variable projectName : jsstring.

Definition projectRoot : path := [projectName].

Definition setTree (n : node) (w : World) : World :=
  mkWorld (tool w) n (trace w).

(** [fs.promises.readdir(p, { withFileTypes: true })] *)
Definition readdir (p : path) : M (list (jsstring * node)) :=
  fun w =>
    match get_node p (fs w) with
    | Some (Dir es) => (Ok es, w)
    | Some (File _) => (Throw (errorMessage NotADirectory p), w)
    | None => (Throw (errorMessage NotFound p), w)
    end.

Definition mkdir (p : path) : M unit :=
  fun w =>
    match mkdirp p (fs w) with
    | inr n => (Ok tt, setTree n w)
    | inl failure => (Throw (errorMessage failure p), w)
    end.

(** [fs.promises.copyFile(src, dest)] *)
Definition copyFile (src dest : path) : M unit :=
  fun w =>
    match get_node src (fs w) with
    | Some (File c) =>
        match put_file dest c (fs w) with
        | inr n => (Ok tt, setTree n w)
        | inl failure => (Throw (errorMessage failure dest), w)
        end
    | Some (Dir _) => (Throw (errorMessage IsADirectory src), w)
    | None => (Throw (errorMessage NotFound src), w)
    end.

(** [fs.promises.rm(p, { recursive: true, force: true })] *)
Definition rm (p : path) : M unit :=
  fun w => (Ok tt, setTree (remove_at p (fs w)) w).

(** [fs.promises.unlink(p)] *)
Definition unlink (p : path) : M unit :=
  fun w =>
    match get_node p (fs w) with
    | Some (File _) => (Ok tt, setTree (remove_at p (fs w)) w)
    | Some (Dir _) => (Throw (errorMessage IsADirectory p), w)
    | None => (Throw (errorMessage NotFound p), w)
    end.

(** The entries that [copyDirectory] passes over. *)
Definition skipped (name : jsstring) : bool :=
  bool_decide (name = u "node_modules") || startsWith name (u "backup-").

(** [copyDirectory(src, dest)].  The directory [src] is listed when the
    call is made and each sub-directory when its turn comes; [fuel] bounds
    the depth of the recursion, and a recursion deeper than that is an
    error. *)
Fixpoint copyDirectory (fuel : nat) (src dest : path) : M unit :=
  match fuel with
  | O => throw (u "Maximum call stack size exceeded")
  | S fuel' =>
      let* entries := readdir src in
      forEach entries
        (fun entry : jsstring * node =>
           let srcPath := src ++ [fst entry] in
           let destPath := dest ++ [fst entry] in
           if skipped (fst entry) then ret tt
           else
             match snd entry with
             | Dir _ =>
                 mkdir destPath ;;;
                 copyDirectory fuel' srcPath destPath
             | File _ => copyFile srcPath destPath
             end)
  end.

(** [`backup-${new Date().toISOString().replace(/[:.]/g, '-')}`], from the
    text [now] of the date. *)
Definition backupIdAt (now : jsstring) : jsstring :=
  u "backup-" ++
  replace_all (Cls (isOneOf [58; 46]%N)) (Rules.const_repl (u "-")) now.

Definition createBackup (fuel : nat) (now : jsstring) : M unit :=
  let backupId := backupIdAt now in
  let backupPath := [backupId] in
  try_catch
    (mkdir backupPath ;;;
     copyDirectory fuel projectRoot backupPath ;;;
     modifyTool (pushFix (u "Created backup: " ++ backupId)))
    (fun message =>
       modifyTool (pushIssue (u "Failed to create backup: " ++ message))).

Definition rollback (fuel : nat) (backupId : jsstring) : M unit :=
  let backupPath := [backupId] in
  let* found := existsSync backupPath in
  if negb found then
    throw (u "Backup " ++ backupId ++ u " not found at " ++ showPath backupPath)
  else
    try_catch
      (let* entries := readdir projectRoot in
       forEach entries
         (fun entry : jsstring * node =>
            if negb (bool_decide (fst entry = u "node_modules")) then
              let itemPath := projectRoot ++ [fst entry] in
              match snd entry with
              | Dir _ => rm itemPath
              | File _ => unlink itemPath
              end
            else ret tt) ;;;
       copyDirectory fuel backupPath projectRoot)
      (fun message => throw (u "Rollback failed: " ++ message)).

End Tool.
End Backup.

(** *** Notions for the statements on backups *)

(** What a backup holds of a tree: everything but the entries named
    [node_modules] or [backup-...], at every level, in the order of the
    tree. *)
Fixpoint backupImage (n : node) : node :=
  match n with
  | File c => File c
  | Dir es =>
      Dir (flat_map
             (fun e : jsstring * node =>
                if Backup.skipped (fst e) then []
                else [(fst e, backupImage (snd e))])
             es)
  end.

Definition imageEntries (es : list (jsstring * node))
    : list (jsstring * node) :=
  flat_map
    (fun e : jsstring * node =>
       if Backup.skipped (fst e) then [] else [(fst e, backupImage (snd e))])
    es.

(** The number of nested directories of a tree. *)
Fixpoint height (n : node) : nat :=
  match n with
  | File _ => 0
  | Dir es => S (fold_right (fun e h => Nat.max (height (snd e)) h) 0 es)
  end.

(** The node at [p] is replaced by [new]. *)
Fixpoint replace_at (p : path) (new : node) (n : node) : node :=
  match p with
  | [] => new
  | x :: p' =>
      match n with
      | File _ => n
      | Dir es => Dir (update_entry x (replace_at p' new) es)
      end
  end.

(** The [node_modules] entry of a directory, which [rollback] keeps. *)
Definition keptEntries (es : list (jsstring * node))
    : list (jsstring * node) :=
  filter (fun e => fst e = u "node_modules") es.

(** *** A parent directory for the examples on backups *)

Definition demoErrorMessage (failure : Backup.fsFailure) (p : path)
    : jsstring :=
  match failure with
  | Backup.NotFound => u "ENOENT: " ++ joinWith (u "/") p
  | Backup.NotADirectory => u "ENOTDIR: " ++ joinWith (u "/") p
  | Backup.IsADirectory => u "EISDIR: " ++ joinWith (u "/") p
  | Backup.AlreadyExists => u "EEXIST: " ++ joinWith (u "/") p
  end.

Definition demoShowPath (p : path) : jsstring :=
  u "/work/" ++ joinWith (u "/") p.

(** The entries of the project of the scenarios, with an installed package
    beside them. *)
Definition demoProjectEntries : list (jsstring * node) :=
  [ (u "package.json", File (printManifest manifestScenarioC));
    (u "node_modules",
     Dir [ (u "react", Dir [ (u "package.json", File (u "{}")) ]) ]);
    (u "src", Dir demoSources) ].

Definition demoParentEntries : list (jsstring * node) :=
  [ (u "app", Dir demoProjectEntries) ].

Definition demoNow : jsstring := u "2024-05-06T07:08:09.123Z".

(** The same parent directory after a backup under [backup-old] and a
    change of the project. *)
Definition demoChangedParentEntries : list (jsstring * node) :=
  [ (u "app",
     Dir [ (u "node_modules", Dir []); (u "README.md", File (u "changed")) ]);
    (u "backup-old", Dir (imageEntries demoProjectEntries)) ].

(** ** The extended variant: the choice of the files to transform *)

Module Selection.
Import JS.

(** [s.split(c)] for a one-unit separator. *)
Fixpoint splitOn (c : N) (current s : jsstring) : list jsstring :=
  match s with
  | [] => [current]
  | a :: s' =>
      if N.eqb a c then current :: splitOn c [] s'
      else splitOn c (current ++ [a]) s'
  end.

(** [String.prototype.trim] *)
Definition trim (s : jsstring) : jsstring :=
  rev (Extended.trimStart (rev (Extended.trimStart s))).

(** [option.split(',').map(x => x.trim())] *)
Definition items (option : jsstring) : list jsstring :=
  map trim (splitOn 44 [] option).

Section Tool.
(** The text of the project root as [path.join] leaves it (no separator at
    its end), and the separator of the platform. *)
Variables (projectRootText sep : jsstring).






End Tool.
End Selection.



(** ** The extended variant: class components *)

Module ClassRule.
Import JS.

(** The class [\w]. *)
Definition isWord (c : N) : bool :=
  ((48 <=? c)%N && (c <=? 57)%N)
  || ((65 <=? c)%N && (c <=? 90)%N)
  || ((97 <=? c)%N && (c <=? 122)%N)
  || N.eqb c 95.

(** [/class\s+(\w+)\s+extends\s+React\.Component\s*{([\s\S]*?)}/g] *)
Definition classComponentRegex : regex :=
  Rules.cat [ Lit (u "class"); Rep Plus true isSpace;
              Grp 1 (Rep Plus true isWord); Rep Plus true isSpace;
              Lit (u "extends"); Rep Plus true isSpace;
              Lit (u "React.Component"); Rep Star true isSpace;
              Lit (u "{"); Grp 2 (Rep Star false anyChar); Lit (u "}") ].

(** [/this\.state\s*=\s*({[^}]+})/g] *)
Definition stateRegex : regex :=
  Rules.cat [ Lit (u "this.state"); Rep Star true isSpace; Lit (u "=");
              Rep Star true isSpace;
              Grp 1 (Rules.cat [ Lit (u "{"); Rep Plus true (isNot 125);
                                 Lit (u "}") ]) ].

(** [/this\.setState\(/g] and [/this\.props\./g] *)
Definition setStateRegex : regex := Lit (u "this.setState(").
Definition propsRegex : regex := Lit (u "this.props.").

(** [/render\s*\(\s*\)\s*{([\s\S]*?)return\s*([\s\S]*?);/g] *)
Definition renderRegex : regex :=
  Rules.cat [ Lit (u "render"); Rep Star true isSpace; Lit (u "(");
              Rep Star true isSpace; Lit (u ")"); Rep Star true isSpace;
              Lit (u "{"); Grp 1 (Rep Star false anyChar); Lit (u "return");
              Rep Star true isSpace; Grp 2 (Rep Star false anyChar);
              Lit (u ";") ].

(** The replacement of a [this.state = {...}] assignment. *)
Definition useStateCall (_stateMatch : jsstring) (c : caps) : jsstring :=
  u "const [state, setState] = useState(" ++ cap 1 c ++ u ");".

(** The replacement of a [render() { ... return ...;] text. *)
Definition returnStatement (_renderMatch : jsstring) (c : caps) : jsstring :=
  cap 1 c ++ u "return " ++ cap 2 c ++ u ";".

(** The body of the function that replaces a class: the four
    substitutions on the class body, in their order. *)
Definition functionalBody (classBody : jsstring) : jsstring :=
  let functionalBody := replace_all stateRegex useStateCall classBody in
  let functionalBody :=
    replace_all setStateRegex (Rules.const_repl (u "setState(")) functionalBody in
  let functionalBody :=
    replace_all propsRegex (Rules.const_repl (u "props.")) functionalBody in
  replace_all renderRegex returnStatement functionalBody.

(** The replacement of a class. *)
Definition functionalComponent (_match : jsstring) (c : caps) : jsstring :=
  u "const " ++ cap 1 c ++ u " = (props) => {" ++ LF ++
  u "  " ++ functionalBody (cap 2 c) ++ LF ++
  u "};".

Definition importUseState : jsstring := u "import { useState } from 'react';".

Definition transformClassToFunctional (content fileName : jsstring) (t : Tool)
    : jsstring * Tool :=
  let transformed := content in
  if test classComponentRegex transformed then
    let transformed :=
      replace_all classComponentRegex functionalComponent transformed in
    let transformed :=
      if includes transformed (u "useState")
         && negb (includes transformed (u "import { useState }")) then
        match match_first Rules.importReactRegex transformed with
        | Some importMatch =>
            replace_str transformed importMatch
              (importMatch ++ LF ++ importUseState)
        | None => transformed
        end
      else transformed in
    (transformed,
     pushFix (fileName ++
       u ": Converted class component to functional component") t)
  else (transformed, t).

End ClassRule.

(** A class component for the examples, and what [classComponentRegex]
    finds at its front. *)
Definition demoClass : jsstring :=
  u "class App extends React.Component { render() { return null; } }".

Definition demoClassMatch : jsstring * JS.caps :=
  match JS.exec_at ClassRule.classComponentRegex demoClass with
  | Some found => found
  | None => ([], [])
  end.

(** A source file that still uses [React.PropTypes], and its first
    [import React...;] statement. *)
Definition demoPropTypesSource : jsstring :=
  u "// app" ++ LF ++ u "import React from 'react';" ++ LF ++
  u "App.propTypes = { name: React.PropTypes.string };".

Definition demoImportStatement : jsstring := u "import React from 'react';".
(** * Properties *)

(** ** The dependency resolver on the parsed manifest *)

Section Resolver.
Implicit Types (section : option (gmap jsstring jsstring)).
Implicit Types (name version k : jsstring) (packageJson : PackageJson).

Lemma truthy_is_Some (v : option jsstring) :
  JS.truthy v = true -> is_Some v.
Proof. destruct v as [[|]|]; simpl; intros; try discriminate; eauto. Qed.

Lemma truthy_Some_nonempty (v : option jsstring) :
  JS.truthy v = true <-> exists s, v = Some s /\ s <> [].
Proof.
  split.
  - destruct v as [[|c s]|]; simpl; intros; try discriminate.
    exists (c :: s). split; [reflexivity | discriminate].
  - intros (s & -> & Hs). destruct s; [contradiction | reflexivity].
Qed.

Lemma sectionKeys_pin name version section :
  sectionKeys (pin name version section) = sectionKeys section.
Proof.
  unfold pin. destruct (JS.truthy (get_dep section name)) eqn:Ht; [|reflexivity].
  apply truthy_is_Some in Ht. destruct section as [m|]; simpl in *; [|reflexivity].
  f_equal. apply dom_insert_lookup_L. exact Ht.
Qed.

Lemma get_dep_pin_same name version section :
  JS.truthy (get_dep section name) = true ->
  get_dep (pin name version section) name = Some version.
Proof.
  intros Ht. unfold pin. rewrite Ht.
  destruct section as [m|]; simpl in *; [|discriminate].
  apply lookup_insert_eq.
Qed.

Lemma get_dep_pin_falsy name version section :
  JS.truthy (get_dep section name) = false ->
  pin name version section = section.
Proof. intros Ht. unfold pin. rewrite Ht. reflexivity. Qed.

Lemma get_dep_pin_other name version section k :
  k <> name ->
  get_dep (pin name version section) k = get_dep section k.
Proof.
  intros Hk. unfold pin. destruct (JS.truthy (get_dep section name)); [|reflexivity].
  destruct section as [m|]; simpl; [|reflexivity].
  apply lookup_insert_ne. congruence.
Qed.

Lemma get_dep_pin_changed name version section k :
  get_dep (pin name version section) k <> get_dep section k ->
  k = name /\ is_Some (get_dep section k).
Proof.
  intros Hne. destruct (decide (k = name)) as [->|Hk].
  - split; [reflexivity|].
    destruct (JS.truthy (get_dep section name)) eqn:Ht.
    + apply truthy_is_Some. exact Ht.
    + rewrite get_dep_pin_falsy in Hne by assumption. contradiction.
  - rewrite get_dep_pin_other in Hne by assumption. contradiction.
Qed.

Lemma get_dep_pin_None name version section k :
  get_dep section k = None -> get_dep (pin name version section) k = None.
Proof.
  intros Hn. destruct (decide (k = name)) as [->|Hk].
  - rewrite get_dep_pin_falsy; [assumption|]. rewrite Hn. reflexivity.
  - rewrite get_dep_pin_other by assumption. assumption.
Qed.

(** One turn of the loop pins [pkg] in each section where it is truthy. *)
Lemma updateRelated_sections packageJson pkg version :
  dependencies (updateRelated packageJson (pkg, version))
    = pin pkg version (dependencies packageJson)
  /\ devDependencies (updateRelated packageJson (pkg, version))
    = pin pkg version (devDependencies packageJson)
  /\ others (updateRelated packageJson (pkg, version)) = others packageJson.
Proof.
  unfold updateRelated.
  destruct (JS.truthy (get_dep (dependencies packageJson) pkg)) eqn:H1;
  destruct (JS.truthy (get_dep (devDependencies packageJson) pkg)) eqn:H2;
  simpl; repeat split; try reflexivity;
  symmetry; apply get_dep_pin_falsy; assumption.
Qed.

Lemma fold_updateRelated entries packageJson :
  dependencies (fold_left updateRelated entries packageJson)
    = pinAll entries (dependencies packageJson)
  /\ devDependencies (fold_left updateRelated entries packageJson)
    = pinAll entries (devDependencies packageJson)
  /\ others (fold_left updateRelated entries packageJson) = others packageJson.
Proof.
  revert packageJson. induction entries as [|[pkg version] entries IH];
    intros packageJson; cbn [fold_left pinAll].
  - repeat split.
  - unfold pinAll in IH. destruct (IH (updateRelated packageJson (pkg, version))) as (H1 & H2 & H3).
    destruct (updateRelated_sections packageJson pkg version) as (E1 & E2 & E3).
    rewrite H1, H2, H3, E1, E2, E3. cbn [fst snd]. repeat split.
Qed.

Lemma sectionKeys_pinAll entries section :
  sectionKeys (pinAll entries section) = sectionKeys section.
Proof.
  revert section. induction entries as [|e entries IH]; intros section; simpl.
  - reflexivity.
  - unfold pinAll in IH. rewrite IH. apply sectionKeys_pin.
Qed.

Lemma pinAll_changed entries section k :
  get_dep (pinAll entries section) k <> get_dep section k ->
  In k (map fst entries) /\ is_Some (get_dep section k).
Proof.
  revert section. induction entries as [|e entries IH]; intros section; simpl.
  - intros H. contradiction.
  - intros Hne.
    destruct (decide (get_dep (pin (fst e) (snd e) section) k = get_dep section k))
      as [Heq|Hch].
    + destruct (IH (pin (fst e) (snd e) section)) as (Hin & Hs).
      { unfold pinAll. rewrite Heq. exact Hne. }
      split; [right; exact Hin|]. rewrite <- Heq. exact Hs.
    + apply get_dep_pin_changed in Hch as (-> & Hs).
      split; [left; reflexivity | exact Hs].
Qed.

Lemma pinAll_None entries section k :
  get_dep section k = None -> get_dep (pinAll entries section) k = None.
Proof.
  revert section. induction entries as [|e entries IH]; intros section Hn; simpl.
  - exact Hn.
  - apply IH. apply get_dep_pin_None. exact Hn.
Qed.

Lemma pinAll_not_listed entries section k :
  ~ In k (map fst entries) ->
  get_dep (pinAll entries section) k = get_dep section k.
Proof.
  intros Hnot.
  destruct (decide (get_dep (pinAll entries section) k = get_dep section k))
    as [H|H]; [exact H|].
  apply pinAll_changed in H as (Hin & _). contradiction.
Qed.

(** A package listed once is pinned to its own version wherever it is
    truthy. *)
Lemma pinAll_listed entries section pkg version :
  NoDup (map fst entries) ->
  In (pkg, version) entries ->
  JS.truthy (get_dep section pkg) = true ->
  get_dep (pinAll entries section) pkg = Some version.
Proof.
  revert section. induction entries as [|e entries IH]; intros section Hnd Hin Ht.
  - destruct Hin.
  - simpl in Hnd. apply NoDup_cons in Hnd as (Hfresh & Hnd).
    destruct Hin as [->|Hin]; simpl.
    + rewrite pinAll_not_listed.
      * apply get_dep_pin_same. exact Ht.
      * intros Hin. apply Hfresh. apply list_elem_of_In. exact Hin.
    + apply IH; try assumption.
      assert (pkg <> fst e) as Hne.
      { intros ->. apply Hfresh. apply list_elem_of_In.
        apply (in_map fst) in Hin. exact Hin. }
      rewrite get_dep_pin_other by assumption. exact Ht.
Qed.

Lemma relatedNames_eq targetVersion :
  relatedNames targetVersion = relatedNames [].
Proof. reflexivity. Qed.

Lemma relatedNames_NoDup targetVersion : NoDup (relatedNames targetVersion).
Proof.
  rewrite relatedNames_eq. apply (bool_decide_unpack _). vm_compute. reflexivity.
Qed.

Lemma react_not_related targetVersion :
  ~ In (u "react") (relatedNames targetVersion).
Proof.
  rewrite relatedNames_eq. rewrite <- list_elem_of_In.
  apply (bool_decide_unpack _). vm_compute. reflexivity.
Qed.

Lemma react_dom_not_related targetVersion :
  ~ In (u "react-dom") (relatedNames targetVersion).
Proof.
  rewrite relatedNames_eq. rewrite <- list_elem_of_In.
  apply (bool_decide_unpack _). vm_compute. reflexivity.
Qed.

Lemma react_dom_not_react : u "react-dom" <> u "react".
Proof. discriminate. Qed.

(** The sections of the updated manifest, as pins of the sections of the
    input. *)
Lemma resolve_sections targetVersion packageJson :
  dependencies (resolveDependencyUpdates targetVersion packageJson)
    = pinAll (getReactRelatedPackages targetVersion)
        (pin (u "react-dom") (u "^" ++ targetVersion)
           (pin (u "react") (u "^" ++ targetVersion)
              (dependencies packageJson)))
  /\ devDependencies (resolveDependencyUpdates targetVersion packageJson)
    = pinAll (getReactRelatedPackages targetVersion)
        (devDependencies packageJson)
  /\ others (resolveDependencyUpdates targetVersion packageJson)
    = others packageJson.
Proof.
  unfold resolveDependencyUpdates.
  apply (fold_updateRelated (getReactRelatedPackages targetVersion)
           (mkPackageJson _ _ _)).
Qed.

End Resolver.

(** C7. For every manifest and every target version (17, 18 and 19 among
    them), the manifest computed by [updateDependencies] has the key set of
    the input in [dependencies] and in [devDependencies], and leaves the other
    members alone.  A value differs from the input only at a key that was
    present: in [dependencies] only at [react], [react-dom] or one of the
    related packages, in [devDependencies] only at one of the related
    packages. *)
Theorem C7_same_key_sets (targetVersion : jsstring) (packageJson : PackageJson) :
  let updated := resolveDependencyUpdates targetVersion packageJson in
  sectionKeys (dependencies updated) = sectionKeys (dependencies packageJson)
  /\ sectionKeys (devDependencies updated)
       = sectionKeys (devDependencies packageJson)
  /\ others updated = others packageJson
  /\ (forall k,
        get_dep (dependencies updated) k <> get_dep (dependencies packageJson) k ->
        is_Some (get_dep (dependencies packageJson) k)
        /\ (k = u "react" \/ k = u "react-dom"
            \/ In k (relatedNames targetVersion)))
  /\ (forall k,
        get_dep (devDependencies updated) k
          <> get_dep (devDependencies packageJson) k ->
        is_Some (get_dep (devDependencies packageJson) k)
        /\ In k (relatedNames targetVersion)).
Proof.
  intros updated.
  destruct (resolve_sections targetVersion packageJson) as (Hd & Hv & Ho).
  fold updated in Hd, Hv, Ho.
  repeat split.
  - rewrite Hd, sectionKeys_pinAll, !sectionKeys_pin. reflexivity.
  - rewrite Hv, sectionKeys_pinAll. reflexivity.
  - exact Ho.
  - rewrite Hd in H.
    set (d0 := dependencies packageJson) in *.
    set (d1 := pin (u "react") (u "^" ++ targetVersion) d0) in *.
    set (d2 := pin (u "react-dom") (u "^" ++ targetVersion) d1) in *.
    destruct (decide (get_dep d1 k = get_dep d0 k)) as [E1|N1];
      [destruct (decide (get_dep d2 k = get_dep d1 k)) as [E2|N2]|].
    + rewrite <- E1, <- E2. eapply pinAll_changed. rewrite E2, E1. exact H.
    + apply get_dep_pin_changed in N2 as (_ & Hs). rewrite <- E1. exact Hs.
    + apply get_dep_pin_changed in N1 as (_ & Hs). exact Hs.
  - rewrite Hd in H.
    set (d0 := dependencies packageJson) in *.
    set (d1 := pin (u "react") (u "^" ++ targetVersion) d0) in *.
    set (d2 := pin (u "react-dom") (u "^" ++ targetVersion) d1) in *.
    destruct (decide (get_dep d1 k = get_dep d0 k)) as [E1|N1];
      [destruct (decide (get_dep d2 k = get_dep d1 k)) as [E2|N2]|].
    + right. right. eapply pinAll_changed. rewrite E2, E1. exact H.
    + apply get_dep_pin_changed in N2 as (-> & _). right. left. reflexivity.
    + apply get_dep_pin_changed in N1 as (-> & _). left. reflexivity.
  - rewrite Hv in H. eapply pinAll_changed. exact H.
  - rewrite Hv in H. eapply pinAll_changed. exact H.
Qed.

(** C1 (as amended). For every manifest whose [dependencies] hold [react]
    with a non-empty version range, and for every target version (17, 18 and
    19 among them), the updated manifest holds [react] at ["^" +
    targetVersion]; so does [react-dom] when [dependencies] hold it with a
    non-empty range; and a package absent from a section before is absent
    from it afterwards. *)
Theorem C1_core_packages_pinned (targetVersion : jsstring)
    (packageJson : PackageJson) :
  JS.truthy (get_dep (dependencies packageJson) (u "react")) = true ->
  let updated := resolveDependencyUpdates targetVersion packageJson in
  get_dep (dependencies updated) (u "react") = Some (u "^" ++ targetVersion)
  /\ (JS.truthy (get_dep (dependencies packageJson) (u "react-dom")) = true ->
      get_dep (dependencies updated) (u "react-dom")
        = Some (u "^" ++ targetVersion))
  /\ (forall k, get_dep (dependencies packageJson) k = None ->
                get_dep (dependencies updated) k = None)
  /\ (forall k, get_dep (devDependencies packageJson) k = None ->
                get_dep (devDependencies updated) k = None).
Proof.
  intros Hreact updated.
  destruct (resolve_sections targetVersion packageJson) as (Hd & Hv & _).
  fold updated in Hd, Hv. rewrite Hd, Hv. clear Hd Hv updated.
  repeat split.
  - rewrite pinAll_not_listed by apply react_not_related.
    rewrite get_dep_pin_other by (symmetry; apply react_dom_not_react).
    apply get_dep_pin_same. exact Hreact.
  - intros Hdom.
    rewrite pinAll_not_listed by apply react_dom_not_related.
    apply get_dep_pin_same.
    rewrite get_dep_pin_other by apply react_dom_not_react. exact Hdom.
  - intros k Hk. apply pinAll_None. do 2 apply get_dep_pin_None. exact Hk.
  - intros k Hk. apply pinAll_None. exact Hk.
Qed.

(** Scenario C: [react] becomes [^19], [react-router-dom] the range mapped
    for 19, and [devDependencies] stay absent. *)
Lemma C1_witness_scenario_C :
  JS.truthy (get_dep (dependencies manifestScenarioC) (u "react")) = true
  /\ get_dep (dependencies (resolveDependencyUpdates (u "19") manifestScenarioC))
       (u "react") = Some (u "^19").
Proof.
  split; [vm_compute; reflexivity|].
  refine (proj1 (C1_core_packages_pinned (u "19") manifestScenarioC _)).
  vm_compute. reflexivity.
Defined.

(** C1 as stated fails on a manifest that lists [react] in [dependencies]
    with the empty range: the guard [if (packageJson.dependencies?.react)]
    reads the empty string as absent, and the entry is left as it is. *)
Lemma C1_counterexample_empty_range :
  supported (u "18") = true
  /\ get_dep (dependencies manifestEmptyRange) (u "react") = Some []
  /\ get_dep (dependencies (resolveDependencyUpdates (u "18") manifestEmptyRange))
       (u "react") = Some []
  /\ Some [] <> Some (u "^18").
Proof.
  repeat split; try discriminate; vm_compute; reflexivity.
Qed.

(** ** The precondition of a migration *)

Lemma read_file_exists (p : path) (n : node) (c : jsstring) :
  read_file p n = Some c -> exists_path p n = true.
Proof.
  unfold read_file, exists_path. destruct (get_node p n); [reflexivity|discriminate].
Qed.

Lemma get_dep_None_falsy (section : option (gmap jsstring jsstring))
    (k : jsstring) :
  get_dep section k = None -> JS.truthy (get_dep section k) = false.
Proof. intros ->. reflexivity. Qed.

(** Once the manifest is read and parsed, [analyzeProject] goes on to look
    for source files exactly when one of the sections holds a truthy
    [react]. *)
Lemma analyzeProject_checks {E : Externals} (w : World) (text : jsstring)
    (packageJson : PackageJson) :
  read_file Base.packageJsonPath (fs w) = Some text ->
  JSON_parse_package text = inr packageJson ->
  Base.analyzeProject w =
    let w' := mkWorld (tool w) (fs w) (trace w ++ [EvRead Base.packageJsonPath]) in
    if JS.truthy (get_dep (dependencies packageJson) (u "react"))
       || JS.truthy (get_dep (devDependencies packageJson) (u "react"))
    then Base.findReactFiles w'
    else (Throw (u "React not found in dependencies"), w').
Proof.
  intros Hread Hparse.
  unfold Base.analyzeProject, bind, existsSync, readFileSync, Base.parsePackage.
  rewrite (read_file_exists _ _ _ Hread). cbn [negb]. rewrite Hread, Hparse.
  cbn [ret].
  destruct (JS.truthy (get_dep (dependencies packageJson) (u "react"))) eqn:H1.
  - rewrite H1. reflexivity.
  - cbn [orb].
    destruct (JS.truthy (get_dep (devDependencies packageJson) (u "react")));
      reflexivity.
Qed.

(** C9 (as amended). When [react] is absent from [dependencies] and held by
    [devDependencies] with a non-empty range, [analyzeProject] passes its
    checks and goes on to look for source files (so it returns normally unless
    [src] is a regular file); [updateDependencies] leaves the [react] and
    [react-dom] entries of [devDependencies] as they are and adds no [react]
    to [dependencies]; and every related package is set to its mapped range
    in each section that holds it with a non-empty range. *)
Theorem C9_react_only_in_devDependencies {E : Externals} (w : World)
    (text : jsstring) (packageJson : PackageJson) (targetVersion : jsstring) :
  read_file Base.packageJsonPath (fs w) = Some text ->
  JSON_parse_package text = inr packageJson ->
  get_dep (dependencies packageJson) (u "react") = None ->
  JS.truthy (get_dep (devDependencies packageJson) (u "react")) = true ->
  let updated := resolveDependencyUpdates targetVersion packageJson in
  Base.analyzeProject w =
    Base.findReactFiles
      (mkWorld (tool w) (fs w) (trace w ++ [EvRead Base.packageJsonPath]))
  /\ match get_node [u "src"] (fs w) with
     | Some (File _) => True
     | _ => fst (Base.analyzeProject w) = Ok tt
     end
  /\ get_dep (devDependencies updated) (u "react")
       = get_dep (devDependencies packageJson) (u "react")
  /\ get_dep (devDependencies updated) (u "react-dom")
       = get_dep (devDependencies packageJson) (u "react-dom")
  /\ get_dep (dependencies updated) (u "react") = None
  /\ (forall pkg version,
        In (pkg, version) (getReactRelatedPackages targetVersion) ->
        (JS.truthy (get_dep (dependencies packageJson) pkg) = true ->
         get_dep (dependencies updated) pkg = Some version)
        /\ (JS.truthy (get_dep (devDependencies packageJson) pkg) = true ->
            get_dep (devDependencies updated) pkg = Some version)).
Proof.
  intros Hread Hparse Hdeps Hdev updated.
  assert (Base.analyzeProject w =
    Base.findReactFiles
      (mkWorld (tool w) (fs w) (trace w ++ [EvRead Base.packageJsonPath])))
    as Han.
  { rewrite (analyzeProject_checks w text packageJson Hread Hparse).
    cbn zeta. rewrite Hdev, orb_true_r. reflexivity. }
  destruct (resolve_sections targetVersion packageJson) as (Hd & Hv & _).
  fold updated in Hd, Hv.
  split; [exact Han|]. split.
  { rewrite Han. unfold Base.findReactFiles, bind. cbn [fs].
    destruct (get_node [u "src"] (fs w)) as [[c|items]|]; try exact I;
      reflexivity. }
  rewrite Hd, Hv. clear Hd Hv updated. repeat split.
  - apply pinAll_not_listed, react_not_related.
  - apply pinAll_not_listed, react_dom_not_related.
  - apply pinAll_None. do 2 apply get_dep_pin_None. exact Hdeps.
  - intros Ht. apply pinAll_listed; try assumption.
    + apply relatedNames_NoDup.
    + assert (pkg <> u "react") as N1.
      { intros ->. apply (react_not_related targetVersion).
        apply (in_map fst) in H. exact H. }
      assert (pkg <> u "react-dom") as N2.
      { intros ->. apply (react_dom_not_related targetVersion).
        apply (in_map fst) in H. exact H. }
      rewrite !get_dep_pin_other by assumption. exact Ht.
  - intros Ht. apply pinAll_listed; try assumption. apply relatedNames_NoDup.
Qed.

Lemma C9_witness_dev_only :
  get_dep (devDependencies
             (resolveDependencyUpdates (u "18") manifestDevOnly)) (u "react")
    = Some (u "^16.14.0")
  /\ fst (Base.analyzeProject (E := demoExternals) (Base.start projectDevOnly))
     = Ok tt.
Proof.
  assert (read_file Base.packageJsonPath (fs (Base.start projectDevOnly))
            = Some (printManifest manifestDevOnly)) as Hread
    by (vm_compute; reflexivity).
  assert (JSON_parse_package (Externals := demoExternals)
            (printManifest manifestDevOnly) = inr manifestDevOnly) as Hparse
    by (vm_compute; reflexivity).
  assert (get_dep (dependencies manifestDevOnly) (u "react") = None) as Hdeps
    by (vm_compute; reflexivity).
  assert (JS.truthy (get_dep (devDependencies manifestDevOnly) (u "react"))
            = true) as Hdev
    by (vm_compute; reflexivity).
  pose proof (C9_react_only_in_devDependencies (E := demoExternals)
                (Base.start projectDevOnly) (printManifest manifestDevOnly)
                manifestDevOnly (u "18") Hread Hparse Hdeps Hdev)
    as (_ & Hok & Hreact & _).
  split.
  - rewrite Hreact. vm_compute. reflexivity.
  - exact Hok.
Defined.

(** C9 as stated fails when [devDependencies] hold [react] with the empty
    range: [analyzeProject] reads the empty string as absent and throws. *)
Lemma C9_counterexample_empty_range :
  dependencies manifestDevEmpty = None
  /\ get_dep (devDependencies manifestDevEmpty) (u "react") = Some []
  /\ fst (Base.cliMigrate (E := demoExternals) (u "18") realRun projectDevEmpty)
     = Base.Exit1 (u "React not found in dependencies").
Proof.
  repeat split; vm_compute; reflexivity.
Qed.

(** ** Searching and replacing *)

Section Replace.
Import JS.

Lemma lit_prefix_Some (l s s' : jsstring) :
  lit_prefix l s = Some s' <-> s = l ++ s'.
Proof.
  revert s. induction l as [|a l IH]; intros s; simpl.
  - split; congruence.
  - destruct s as [|b s]; [split; discriminate|].
    destruct (N.eqb_spec a b) as [->|Hne].
    + rewrite IH. split; congruence.
    + split; [discriminate | congruence].
Qed.

Lemma lit_prefix_app (l s : jsstring) : lit_prefix l (l ++ s) = Some s.
Proof. apply lit_prefix_Some. reflexivity. Qed.

Lemma test_cons (r : regex) (a : N) (s : jsstring) :
  test r (a :: s) = false -> exec_at r (a :: s) = None /\ test r s = false.
Proof.
  simpl. destruct (exec_at r (a :: s)); [discriminate|]. auto.
Qed.

Lemma test_nil (r : regex) : test r [] = false -> exec_at r [] = None.
Proof. simpl. destruct (exec_at r []); [discriminate|reflexivity]. Qed.

(** A match in a suffix is a match in the whole text. *)
Lemma test_app_r (r : regex) (a s : jsstring) :
  test r s = true -> test r (a ++ s) = true.
Proof.
  intros H. induction a as [|x a IH]; [exact H|].
  simpl. destruct (exec_at r (x :: a ++ s)); [reflexivity | exact IH].
Qed.

(** Where the pattern has no match, replacing changes nothing. *)
Lemma replace_all_no_match (r : regex) (f : jsstring -> caps -> jsstring)
    (s : jsstring) :
  test r s = false -> replace_all r f s = s.
Proof.
  unfold replace_all. induction s as [|a s IH]; intros H.
  - apply test_nil in H. simpl. rewrite H. reflexivity.
  - apply test_cons in H as (H0 & H1). cbn [replace_from]. rewrite H0.
    rewrite (IH H1). reflexivity.
Qed.

Lemma exec_at_Lit (l s : jsstring) :
  exec_at (Lit l) s =
    match lit_prefix l s with
    | Some s' => Some (firstn (length s - length s') s, [])
    | None => None
    end.
Proof. reflexivity. Qed.

(** A text that does not include a literal has no match of it. *)
Lemma includes_false_test (s l : jsstring) :
  includes s l = false -> test (Lit l) s = false.
Proof.
  induction s as [|a s IH]; cbn [includes test]; rewrite exec_at_Lit;
    unfold startsWith; destruct (lit_prefix l _); try discriminate; auto.
Qed.

Lemma replace_literal_absent (s l q : jsstring) :
  includes s l = false ->
  replace_all (Lit l) (Rules.const_repl q) s = s.
Proof. intros H. apply replace_all_no_match, includes_false_test, H. Qed.

End Replace.

(** ** The rewrite pipeline on a file without any recognized pattern *)

Lemma recognizes_false (targetVersion content : jsstring) :
  recognizes targetVersion content = false ->
  (JS.ge targetVersion (u "18") && JS.test Rules.renderRegex content = false)
  /\ JS.includes content Rules.componentWillMount = false
  /\ JS.includes content Rules.componentWillReceiveProps = false
  /\ JS.includes content Rules.componentWillUpdate = false
  /\ JS.includes content (u "SyntheticEvent") = false
  /\ JS.includes content (u "React.PropTypes") = false
  /\ JS.includes content (u "React.FC") = false
  /\ JS.includes content (u "React.FunctionComponent") = false.
Proof.
  unfold recognizes. rewrite !orb_false_iff. tauto.
Qed.

Lemma rewritePipeline_unrecognized (content fileName : jsstring) (t : Tool) :
  recognizes (targetVersion t) content = false ->
  Rules.rewritePipeline content fileName t = (content, t).
Proof.
  intros H. apply recognizes_false in H
    as (H1 & H2 & H3 & H4 & H5 & H6 & H7 & H8).
  unfold Rules.rewritePipeline.
  assert (Rules.renderStage content fileName t = (content, t)) as ->.
  { unfold Rules.renderStage, Rules.transformReactDOMRender.
    destruct (JS.ge (targetVersion t) (u "18")); [|reflexivity].
    cbn [andb] in H1. rewrite H1. reflexivity. }
  unfold Rules.transformLifecycleMethods. rewrite H2, H3, H4.
  unfold Rules.transformEventHandlers. rewrite H5.
  unfold Rules.transformPropTypes. rewrite H6.
  unfold Rules.transformReactFC. rewrite H7, H8. reflexivity.
Qed.

(** C6. When no rule recognizes a pattern in the content of a file, the
    pipeline returns the content as it is with the logs as they were, and
    [transformFile] only reads the file: nothing is written and no entry is
    added, be it a rule's entry or a [Transformed] or [Would transform] line,
    whether the run is a dry run or not. *)
Theorem C6_unrecognized_content_untouched (w : World)
    (filePath : path) (content : jsstring) :
  read_file filePath (fs w) = Some content ->
  recognizes (targetVersion (tool w)) content = false ->
  Rules.rewritePipeline content (basename filePath) (tool w) = (content, tool w)
  /\ Base.transformFile filePath w =
       (Ok tt, mkWorld (tool w) (fs w) (trace w ++ [EvRead filePath])).
Proof.
  intros Hread Hrec.
  pose proof (rewritePipeline_unrecognized content (basename filePath) (tool w)
                Hrec) as Hpipe.
  split; [exact Hpipe|].
  unfold Base.transformFile, bind, readFileSync, onTool, getTool.
  rewrite Hread. cbn [tool fs trace]. rewrite Hpipe.
  rewrite bool_decide_true by reflexivity. cbn [negb andb]. reflexivity.
Qed.

Lemma C6_witness_plain_file :
  fixes (tool (snd (Base.transformFile
                      [u "src"; u "plain.ts"]
                      (mkWorld (toolFor (u "18") realRun) projectScenario []))))
    = []
  /\ fs (snd (Base.transformFile
                [u "src"; u "plain.ts"]
                (mkWorld (toolFor (u "18") realRun) projectScenario [])))
     = projectScenario.
Proof.
  assert (read_file [u "src"; u "plain.ts"] projectScenario = Some contentPlain)
    as Hread by (vm_compute; reflexivity).
  assert (recognizes (u "18") contentPlain = false) as Hrec
    by (vm_compute; reflexivity).
  pose proof (C6_unrecognized_content_untouched
                (mkWorld (toolFor (u "18") realRun) projectScenario [])
                [u "src"; u "plain.ts"] contentPlain Hread Hrec) as (_ & Hrun).
  rewrite Hrun. split; reflexivity.
Defined.

(** ** The receive-props substitution of the lifecycle rule *)

Section ReceiveProps.
Import JS.

Lemma star_greedy_spaces {X} (k : jsstring -> option X) (s : jsstring) :
  (forall c z, isSpace c = true -> k (c :: z) = None) ->
  star_greedy isSpace s k = k (Extended.trimStart s).
Proof.
  intros Hk. induction s as [|c s IH]; [reflexivity|].
  cbn [star_greedy Extended.trimStart]. destruct (isSpace c) eqn:Hc; [|reflexivity].
  rewrite IH. rewrite (Hk c s Hc). destruct (k (Extended.trimStart s)); reflexivity.
Qed.

Lemma star_greedy_until {X} (k : jsstring -> option X) (x : N) (s : jsstring) :
  (forall z, k (x :: z) <> None) ->
  (forall c z, c <> x -> k (c :: z) = None) ->
  k [] = None ->
  isSome (star_greedy (isNot x) s k) = existsb (N.eqb x) s.
Proof.
  intros Hyes Hno Hnil. induction s as [|c s IH].
  - simpl. rewrite Hnil. reflexivity.
  - cbn [star_greedy existsb]. unfold isNot at 1.
    destruct (N.eqb_spec c x) as [->|Hne].
    + cbn [negb]. rewrite N.eqb_refl. cbn [orb].
      destruct (k (x :: s)) eqn:Hk; [reflexivity|]. exfalso. exact (Hyes s Hk).
    + cbn [negb]. rewrite (proj2 (N.eqb_neq x c)) by congruence. cbn [orb].
      rewrite <- IH. rewrite (Hno c s Hne).
      destruct (star_greedy (isNot x) s k); reflexivity.
Qed.

Lemma exec_at_receiveProps (s : jsstring) :
  isSome (exec_at Rules.receivePropsRegex s) = receivePropsCallAt s.
Proof.
  unfold exec_at, Rules.receivePropsRegex, receivePropsCallAt.
  cbn [Rules.cat rmatch].
  destruct (lit_prefix Rules.componentWillReceiveProps s) as [s1|]; [|reflexivity].
  unfold rep, star.
  rewrite star_greedy_spaces.
  2:{ intros c z Hc. change (u "(") with [40%N]. cbn [lit_prefix].
      destruct (N.eqb_spec 40 c) as [<-|]; [discriminate Hc|reflexivity]. }
  unfold argumentListAt.
  destruct (Extended.trimStart s1) as [|c s2]; [reflexivity|].
  change (u "(") with [40%N]. cbn [lit_prefix].
  rewrite (N.eqb_sym 40 c).
  destruct (N.eqb c 40); [|reflexivity]. cbn [andb].
  destruct s2 as [|d s3]; [reflexivity|].
  unfold isNot at 1. destruct (N.eqb d 41) eqn:Hd; [reflexivity|]. cbn [negb andb].
  unfold hasCloseParen. change (u ")") with [41%N].
  apply star_greedy_until.
  - intros z. cbn [lit_prefix]. discriminate.
  - intros c' z Hc'. cbn [lit_prefix].
    rewrite (proj2 (N.eqb_neq 41 c')) by congruence. reflexivity.
  - reflexivity.
Qed.

(** literal replacement *)
Lemma replace_from_skip (r : regex) f (a s : jsstring) :
  replace_from r f (length a) (a ++ s) = replace_from r f 0 s.
Proof.
  induction a as [|x a IH]; [reflexivity|]. cbn [length app replace_from]. exact IH.
Qed.

Lemma replace_literal_unfold (l q s : jsstring) :
  l <> [] ->
  replace_all (Lit l) (Rules.const_repl q) s =
    match lit_prefix l s with
    | Some s' => q ++ replace_all (Lit l) (Rules.const_repl q) s'
    | None =>
        match s with
        | [] => []
        | a :: t => a :: replace_all (Lit l) (Rules.const_repl q) t
        end
    end.
Proof.
  intros Hl. unfold replace_all.
  destruct s as [|a t]; cbn [replace_from]; rewrite exec_at_Lit.
  - destruct l; [contradiction|]. reflexivity.
  - destruct (lit_prefix l (a :: t)) as [s'|] eqn:Hp; [|reflexivity].
    apply lit_prefix_Some in Hp.
    destruct l as [|b l]; [contradiction|]. cbn [app] in Hp. injection Hp as -> ->.
    unfold Rules.const_repl. f_equal.
    replace (length (b :: l ++ s') - length s') with (S (length l))
      by (cbn [length]; rewrite length_app; lia).
    cbn [firstn]. rewrite firstn_app, firstn_all, Nat.sub_diag. cbn [firstn].
    rewrite app_nil_r. cbn [length]. apply replace_from_skip.
Qed.

Lemma componentWillMount_nonempty : Rules.componentWillMount <> [].
Proof. discriminate. Qed.

Lemma replaceWillMount_unfold (s : jsstring) :
  replaceWillMount s =
    match lit_prefix Rules.componentWillMount s with
    | Some s' => u "componentDidMount" ++ replaceWillMount s'
    | None =>
        match s with
        | [] => []
        | a :: t => a :: replaceWillMount t
        end
    end.
Proof. apply replace_literal_unfold, componentWillMount_nonempty. Qed.

(** The first code unit survives the substitution. *)
Lemma replaceWillMount_head (a : N) (t : jsstring) :
  exists z, replaceWillMount (a :: t) = a :: z.
Proof.
  rewrite replaceWillMount_unfold.
  destruct (lit_prefix Rules.componentWillMount (a :: t)) as [s'|] eqn:Hp.
  - apply lit_prefix_Some in Hp. injection Hp as -> _. eexists. reflexivity.
  - eexists. reflexivity.
Qed.

Lemma replaceWillMount_cons_other (a : N) (t : jsstring) :
  a <> 99%N -> replaceWillMount (a :: t) = a :: replaceWillMount t.
Proof.
  intros Ha. rewrite replaceWillMount_unfold.
  destruct (lit_prefix Rules.componentWillMount (a :: t)) as [s'|] eqn:Hp;
    [|reflexivity].
  apply lit_prefix_Some in Hp. injection Hp as -> _. contradiction.
Qed.

Lemma replaceWillMount_nil : replaceWillMount [] = [].
Proof. reflexivity. Qed.

(** Every code unit of the result comes from the text or from the
    replacement. *)
Lemma replace_from_elem (l q : jsstring) (c : N) (s : jsstring) (skip : nat) :
  In c (replace_from (Lit l) (Rules.const_repl q) skip s) -> In c s \/ In c q.
Proof.
  revert skip. induction s as [|a s IH]; intros skip.
  - destruct skip; cbn [replace_from]; [|intros []].
    rewrite exec_at_Lit. destruct (lit_prefix l []) as [s'|].
    + unfold Rules.const_repl. rewrite app_nil_r. auto.
    + intros [].
  - destruct skip as [|n]; cbn [replace_from].
    + rewrite exec_at_Lit. destruct (lit_prefix l (a :: s)) as [s'|].
      * unfold Rules.const_repl. rewrite in_app_iff. intros [H|H]; [auto|].
        destruct (length _) in H.
        -- destruct H as [->|H]; [left; left; reflexivity|].
           apply IH in H as [H|H]; [left; right; exact H | auto].
        -- apply IH in H as [H|H]; [left; right; exact H | auto].
      * intros [->|H]; [left; left; reflexivity|].
        apply IH in H as [H|H]; [left; right; exact H | auto].
    + intros H. apply IH in H as [H|H]; [left; right; exact H | auto].
Qed.

Lemma replaceWillMount_closeParen (s : jsstring) :
  hasCloseParen (replaceWillMount s) = true -> hasCloseParen s = true.
Proof.
  unfold hasCloseParen. rewrite !existsb_exists.
  intros (c & Hin & Hc). apply N.eqb_eq in Hc as <-.
  apply replace_from_elem in Hin as [Hin|Hin].
  - exists 41%N. split; [exact Hin | reflexivity].
  - exfalso. vm_compute in Hin. intuition discriminate.
Qed.

Lemma trimStart_replaceWillMount (s : jsstring) :
  Extended.trimStart (replaceWillMount s)
  = replaceWillMount (Extended.trimStart s).
Proof.
  induction s as [|a s IH]; [reflexivity|].
  cbn [Extended.trimStart]. destruct (isSpace a) eqn:Ha.
  - rewrite replaceWillMount_cons_other by (intros ->; discriminate Ha).
    cbn [Extended.trimStart]. rewrite Ha. exact IH.
  - destruct (replaceWillMount_head a s) as (z & ->).
    cbn [Extended.trimStart]. rewrite Ha. reflexivity.
Qed.

Lemma argumentListAt_replaceWillMount (s : jsstring) :
  argumentListAt (replaceWillMount s) = true -> argumentListAt s = true.
Proof.
  unfold argumentListAt. rewrite trimStart_replaceWillMount.
  destruct (Extended.trimStart s) as [|c s1]; [rewrite replaceWillMount_nil; auto|].
  destruct (N.eqb_spec c 40) as [->|Hc].
  - rewrite replaceWillMount_cons_other by discriminate.
    rewrite N.eqb_refl. cbn [andb].
    destruct s1 as [|d s2]; [rewrite replaceWillMount_nil; auto|].
    destruct (replaceWillMount_head d s2) as (z & Hz). rewrite Hz.
    destruct (N.eqb d 41) eqn:Hd; [auto|]. cbn [negb andb].
    intros Hclose.
    assert (hasCloseParen (d :: s2) = true) as H.
    { apply replaceWillMount_closeParen. rewrite Hz.
      unfold hasCloseParen in *. cbn [existsb]. rewrite Hclose. apply orb_true_r. }
    unfold hasCloseParen in H. cbn [existsb] in H.
    rewrite N.eqb_sym, Hd in H. exact H.
  - destruct (replaceWillMount_head c s1) as (z & ->).
    rewrite (proj2 (N.eqb_neq c 40)) by assumption. auto.
Qed.

(** A literal none of whose suffixes starts the replacement text survives
    the substitution only where it stood before. *)
Lemma lit_prefix_replaceWillMount (l : jsstring) :
  (forall k, k < length l -> forall y,
     lit_prefix (skipn k l) (u "componentDidMount" ++ y) = None) ->
  forall x z,
    lit_prefix l (replaceWillMount x) = Some z ->
    exists x1, lit_prefix l x = Some x1 /\ z = replaceWillMount x1.
Proof.
  induction l as [|a l IH]; intros Hq x z H.
  - injection H as <-. exists x. split; reflexivity.
  - rewrite replaceWillMount_unfold in H.
    destruct (lit_prefix Rules.componentWillMount x) as [x2|] eqn:HP.
    + rewrite (Hq 0) in H; [discriminate | cbn [length]; lia].
    + destruct x as [|b x']; [discriminate H|].
      cbn [lit_prefix] in H |- *. destruct (N.eqb a b); [|discriminate].
      apply IH in H; [exact H|].
      intros k Hk y. apply (Hq (S k)). cbn [length]. lia.
Qed.

Lemma receiveProps_suffixes (k : nat) (y : jsstring) :
  k < length Rules.componentWillReceiveProps ->
  lit_prefix (skipn k Rules.componentWillReceiveProps)
    (u "componentDidMount" ++ y) = None.
Proof.
  intros Hk.
  do 25 (destruct k as [|k]; [reflexivity|]).
  exfalso. vm_compute in Hk. lia.
Qed.

Lemma receivePropsCallAt_replaceWillMount (s : jsstring) :
  receivePropsCallAt (replaceWillMount s) = true -> receivePropsCallAt s = true.
Proof.
  unfold receivePropsCallAt.
  destruct (lit_prefix Rules.componentWillReceiveProps (replaceWillMount s))
    as [z|] eqn:Hz; [|discriminate].
  apply lit_prefix_replaceWillMount in Hz as (x1 & -> & ->).
  - apply argumentListAt_replaceWillMount.
  - intros k Hk y. apply receiveProps_suffixes, Hk.
Qed.

Lemma test_cons_eq (r : regex) (a : N) (s : jsstring) :
  test r (a :: s) = isSome (exec_at r (a :: s)) || test r s.
Proof. cbn [test]. destruct (exec_at r (a :: s)); reflexivity. Qed.

Lemma test_skip_replacement (y : jsstring) :
  test Rules.receivePropsRegex (u "componentDidMount" ++ y)
  = test Rules.receivePropsRegex y.
Proof.
  change (u "componentDidMount") with
    [99; 111; 109; 112; 111; 110; 101; 110; 116; 68; 105; 100; 77; 111; 117;
     110; 116]%N.
  cbn [app].
  repeat (rewrite test_cons_eq, exec_at_receiveProps;
          match goal with
          | |- receivePropsCallAt ?z || _ = _ =>
              change (receivePropsCallAt z) with false; cbn [orb]
          end).
  reflexivity.
Qed.

(** The first substitution creates no match of [receivePropsRegex]. *)
Lemma test_receiveProps_replaceWillMount (s : jsstring) :
  test Rules.receivePropsRegex s = false ->
  test Rules.receivePropsRegex (replaceWillMount s) = false.
Proof.
  remember (length s) as n eqn:Hn. revert s Hn.
  induction n as [n IH] using lt_wf_ind. intros s Hn Hs.
  rewrite replaceWillMount_unfold.
  destruct (lit_prefix Rules.componentWillMount s) as [s2|] eqn:HP.
  - apply lit_prefix_Some in HP. subst s.
    rewrite test_skip_replacement.
    apply (IH (length s2)); [|reflexivity|].
    + subst n. rewrite length_app. vm_compute length. lia.
    + destruct (test Rules.receivePropsRegex s2) eqn:H2; [|reflexivity].
      rewrite (test_app_r _ _ _ H2) in Hs. discriminate.
  - destruct s as [|a t]; [exact Hs|].
    rewrite test_cons_eq in Hs. apply orb_false_iff in Hs as (H0 & H1).
    rewrite test_cons_eq. apply orb_false_iff. split.
    + rewrite exec_at_receiveProps in *.
      destruct (receivePropsCallAt (a :: replaceWillMount t)) eqn:Hc; [|reflexivity].
      assert (replaceWillMount (a :: t) = a :: replaceWillMount t) as Heq.
      { rewrite replaceWillMount_unfold, HP. reflexivity. }
      rewrite <- Heq in Hc. apply receivePropsCallAt_replaceWillMount in Hc.
      congruence.
    + apply (IH (length t)); [subst n; cbn [length]; lia | reflexivity | exact H1].
Qed.

End ReceiveProps.

(** C10. When the content contains the name [componentWillReceiveProps] but
    no occurrence of it followed by white space and a parenthesized non-empty
    argument list (the replacement pattern has no match), the second
    substitution of [transformLifecycleMethods] changes nothing: the result is
    the content with only the other two substitutions applied (the content
    itself when their names are absent), and yet the fix entry that announces
    the replacement is logged. *)
Theorem C10_fix_logged_without_replacement (content fileName : jsstring)
    (t : Tool) :
  JS.includes content Rules.componentWillReceiveProps = true ->
  JS.test Rules.receivePropsRegex content = false ->
  let result := Rules.transformLifecycleMethods content fileName t in
  let mounted :=
    if JS.includes content Rules.componentWillMount
    then replaceWillMount content else content in
  JS.replace_all Rules.receivePropsRegex
    (Rules.const_repl (u "componentDidUpdate(prevProps)")) mounted = mounted
  /\ fst result =
       (if JS.includes content Rules.componentWillUpdate
        then replaceWillUpdate mounted else mounted)
  /\ In (receivePropsFix fileName) (fixes (snd result))
  /\ (JS.includes content Rules.componentWillMount = false ->
      JS.includes content Rules.componentWillUpdate = false ->
      result = (content, pushFix (receivePropsFix fileName) t)).
Proof.
  intros Hname Hnomatch result mounted.
  assert (JS.replace_all Rules.receivePropsRegex
            (Rules.const_repl (u "componentDidUpdate(prevProps)")) mounted
          = mounted) as Hsame.
  { apply replace_all_no_match. subst mounted.
    destruct (JS.includes content Rules.componentWillMount); [|exact Hnomatch].
    apply test_receiveProps_replaceWillMount, Hnomatch. }
  split; [exact Hsame|].
  subst result. unfold Rules.transformLifecycleMethods. rewrite Hname.
  fold (replaceWillMount content). fold (receivePropsFix fileName).
  destruct (JS.includes content Rules.componentWillMount) eqn:Hm;
    destruct (JS.includes content Rules.componentWillUpdate) eqn:Hu;
    subst mounted; cbn beta iota zeta; rewrite Hsame; cbn [fst snd fixes pushFix];
    (split; [reflexivity|]); (split; [|intros; try discriminate; reflexivity]);
    rewrite ?in_app_iff; cbn [In]; tauto.
Qed.

Lemma C10_witness_no_arguments :
  Rules.transformLifecycleMethods contentReceivePropsNoArgs (u "Old.jsx")
    (toolFor (u "18") realRun)
  = (contentReceivePropsNoArgs,
     pushFix (receivePropsFix (u "Old.jsx")) (toolFor (u "18") realRun)).
Proof.
  assert (JS.includes contentReceivePropsNoArgs Rules.componentWillReceiveProps
          = true) as H1 by (vm_compute; reflexivity).
  assert (JS.test Rules.receivePropsRegex contentReceivePropsNoArgs = false)
    as H2 by (vm_compute; reflexivity).
  refine (proj2 (proj2 (proj2
    (C10_fix_logged_without_replacement contentReceivePropsNoArgs (u "Old.jsx")
       (toolFor (u "18") realRun) H1 H2))) _ _); vm_compute; reflexivity.
Defined.

(** ** A second pass of the pipeline *)







(** ** The render rule *)

(** C4, on Scenario A. The rule rewrites the import and logs one fix entry,
    but the text it takes for the container stops at the first closing
    parenthesis: [document.getElementById('root'] goes into [createRoot(...)]
    without its own closing parenthesis, which is left behind after
    [root.render(<App/>)].  The result is not the two-statement form for the
    call that was written. *)
Theorem C4_scenario_A_container_cut_short :
  Rules.rewritePipeline contentScenarioA (u "index.js")
    (toolFor (u "18") realRun)
  = (scenarioATransformed,
     pushFix (renderFix (u "index.js")) (toolFor (u "18") realRun))
  /\ JS.exec_at Rules.renderRegex
       (u "ReactDOM.render(<App/>, document.getElementById('root'))")
     = Some (u "ReactDOM.render(<App/>, document.getElementById('root')",
             [(2, u "document.getElementById('root'"); (1, u "<App/>")])
  /\ bool_decide (scenarioATransformed = scenarioAExpected) = false.
Proof.
  repeat split; vm_compute; reflexivity.
Qed.

(** X1. The render rule is skipped for target version 17 and applied for 18 and
    19; when applied it logs one fix entry for the file if the pattern
    matches somewhere, however many calls match, and none otherwise. *)
Lemma render_rule_version_guard_and_single_entry (content fileName : jsstring)
    (o : MigrationOptions) (t : Tool) :
  Rules.renderStage content fileName (configure (u "17") o t)
    = (content, configure (u "17") o t)
  /\ Rules.renderStage content fileName (configure (u "18") o t)
     = Rules.transformReactDOMRender content fileName (configure (u "18") o t)
  /\ Rules.renderStage content fileName (configure (u "19") o t)
     = Rules.transformReactDOMRender content fileName (configure (u "19") o t)
  /\ fixes (snd (Rules.transformReactDOMRender content fileName t))
     = fixes t ++ (if JS.test Rules.renderRegex content
                   then [renderFix fileName] else []).
Proof.
  repeat split.
  unfold Rules.transformReactDOMRender.
  destruct (JS.test Rules.renderRegex content); cbn [snd fixes pushFix].
  - reflexivity.
  - rewrite app_nil_r. reflexivity.
Qed.

(** ** The peer-dependency check of the extended variant *)

Section Peer.
Import Extended.


Lemma issues_fold_pushIssue (f : jsstring -> jsstring) (l : list jsstring)
    (t : Tool) :
  issues (fold_left (fun t c => pushIssue (f c) t) l t) = issues t ++ map f l
  /\ fixes (fold_left (fun t c => pushIssue (f c) t) l t) = fixes t.
Proof.
  revert t. induction l as [|c l IH]; intros t; cbn [fold_left map].
  - rewrite app_nil_r. split; reflexivity.
  - destruct (IH (pushIssue (f c) t)) as (-> & ->). cbn [issues fixes pushIssue].
    rewrite <- app_assoc. split; reflexivity.
Qed.






End Peer.

(** ** The file system *)

Section FileSystem.

Lemma lookup_update_entry (x y : jsstring) (f : node -> node)
    (es : list (jsstring * node)) :
  lookup_entry y (update_entry x f es) =
    if decide (y = x) then option_map f (lookup_entry x es)
    else lookup_entry y es.
Proof.
  induction es as [|[z m] es IH]; cbn [update_entry lookup_entry].
  - destruct (decide (y = x)); reflexivity.
  - destruct (decide (z = x)) as [->|Hzx]; cbn [lookup_entry].
    + destruct (decide (x = y)) as [<-|Hxy].
      * rewrite decide_True by reflexivity. reflexivity.
      * rewrite decide_False by congruence. reflexivity.
    + destruct (decide (z = y)) as [->|Hzy].
      * rewrite decide_False by congruence. reflexivity.
      * exact IH.
Qed.

(** Overwriting a file keeps every path in existence and every other file
    as it is. *)
Lemma write_file_other (p : path) (c c' : jsstring) (n : node) :
  read_file p n = Some c ->
  forall q,
    exists_path q (write_file p c' n) = exists_path q n
    /\ (q <> p -> read_file q (write_file p c' n) = read_file q n).
Proof.
  revert n. induction p as [|x p IH]; intros n Hread q.
  - unfold read_file in Hread. cbn [get_node] in Hread.
    destruct n as [c0|es]; [|discriminate]. cbn [write_file].
    destruct q as [|y q]; [split; [reflexivity | contradiction]|].
    split; reflexivity.
  - unfold read_file in Hread. cbn [get_node] in Hread.
    destruct n as [c0|es]; [discriminate|].
    destruct (lookup_entry x es) as [m|] eqn:Hm; [|discriminate].
    cbn [write_file]. rewrite Hm.
    destruct q as [|y q]; [split; reflexivity|].
    unfold exists_path, read_file. cbn [get_node].
    rewrite lookup_update_entry.
    destruct (decide (y = x)) as [->|Hyx]; [|split; reflexivity].
    rewrite Hm. cbn [option_map].
    destruct (IH m Hread q) as (He & Hr).
    unfold exists_path, read_file in He, Hr.
    split; [exact He|]. intros Hne. apply Hr. congruence.
Qed.

Lemma write_file_same (p : path) (c c' : jsstring) (n : node) :
  read_file p n = Some c -> read_file p (write_file p c' n) = Some c'.
Proof.
  revert n. induction p as [|x p IH]; intros n Hread.
  - unfold read_file in *. cbn [get_node] in *.
    destruct n; [reflexivity | discriminate].
  - unfold read_file in Hread. cbn [get_node] in Hread.
    destruct n as [c0|es]; [discriminate|].
    destruct (lookup_entry x es) as [m|] eqn:Hm; [|discriminate].
    cbn [write_file]. rewrite Hm. unfold read_file. cbn [get_node].
    rewrite lookup_update_entry, decide_True by reflexivity.
    rewrite Hm. cbn [option_map]. apply (IH m Hread).
Qed.

(** Induction on a tree, with the hypothesis for every entry of a
    directory. *)
Lemma node_induction (P : node -> Prop) :
  (forall c, P (File c)) ->
  (forall es, Forall (fun e => P (snd e)) es -> P (Dir es)) ->
  forall n, P n.
Proof.
  intros HF HD.
  fix IH 1. intros [c|es]; [apply HF|].
  apply HD. induction es as [|e es IHes]; constructor; [apply IH | exact IHes].
Qed.

(** What [getReactFiles] finds lies below the directory it searched. *)
Lemma getReactFiles_below (dir : path) (n : node) (p : path) :
  In p (Base.getReactFiles dir n) ->
  exists rest, p = dir ++ rest /\ rest <> [].
Proof.
  revert dir p. induction n as [c|es IH] using node_induction; intros dir p.
  - intros [].
  - cbn [Base.getReactFiles]. rewrite in_flat_map. intros ([x m] & Hin & Hp).
    rewrite Forall_forall in IH. cbn [fst snd] in Hp.
    destruct m as [c|es'].
    + destruct (JS.test _ _); [|destruct Hp].
      destruct Hp as [<-|[]]. exists [x]. split; [reflexivity | discriminate].
    + destruct (_ && _); [|destruct Hp].
      apply (IH (x, Dir es')) in Hp as (rest & -> & _).
      * exists (x :: rest). rewrite <- app_assoc. split; [reflexivity|discriminate].
      * apply list_elem_of_In. exact Hin.
Qed.

End FileSystem.

Section Discovery.

Lemma getReactFiles_entry_below (dir : path) (x : jsstring) (m : node)
    (p : path) :
  In p (match m with
        | Dir _ =>
            if negb (JS.startsWith x (u "."))
               && negb (bool_decide (x = u "node_modules"))
            then Base.getReactFiles (dir ++ [x]) m
            else []
        | File _ =>
            if JS.test Base.reactFileRegex x then [dir ++ [x]] else []
        end) ->
  exists rest, p = dir ++ x :: rest.
Proof.
  destruct m as [c|es].
  - destruct (JS.test _ _); [|intros []]. intros [<-|[]]. exists []. reflexivity.
  - destruct (_ && _); [|intros []]. intros H.
    apply getReactFiles_below in H as (rest & -> & _).
    exists rest. rewrite <- app_assoc. reflexivity.
Qed.

Lemma getReactFiles_NoDup (dir : path) (n : node) :
  uniqueNames n -> NoDup (Base.getReactFiles dir n).
Proof.
  revert dir. induction n as [c|es IH] using node_induction; intros dir Hu.
  - constructor.
  - cbn [Base.getReactFiles]. cbn [uniqueNames] in Hu. destruct Hu as (Hnd & Hall).
    induction es as [|[x m] es IHes]; [constructor|].
    cbn [flat_map fst snd]. cbn [map fst] in Hnd.
    apply NoDup_cons in Hnd as (Hx & Hnd). destruct Hall as (Hm & Hall).
    apply Forall_cons in IH as (IHm & IH). cbn [snd] in IHm, Hm.
    apply NoDup_app. split; [|split].
    + destruct m as [c|es'].
      * destruct (JS.test _ _); [apply NoDup_singleton | constructor].
      * destruct (_ && _); [apply IHm; exact Hm | constructor].
    + intros p Hp Hp'. apply list_elem_of_In in Hp, Hp'.
      apply getReactFiles_entry_below in Hp as (rest & Hrest).
      apply in_flat_map in Hp' as ([y m'] & Hin & Hp'). cbn [fst snd] in Hp'.
      apply getReactFiles_entry_below in Hp' as (rest' & Hrest').
      rewrite Hrest in Hrest'. apply app_inv_head in Hrest'.
      injection Hrest' as -> _. apply Hx.
      apply list_elem_of_In. apply (in_map fst) in Hin. exact Hin.
    + apply IHes; assumption.
Qed.

(** What [getReactFiles] finds are files of the tree. *)
Lemma getReactFiles_files (dir : path) (n : node) (p : path) :
  uniqueNames n ->
  In p (Base.getReactFiles dir n) ->
  exists rest c, p = dir ++ rest /\ read_file rest n = Some c.
Proof.
  revert dir p. induction n as [c|es IH] using node_induction; intros dir p Hu.
  - intros [].
  - cbn [Base.getReactFiles]. cbn [uniqueNames] in Hu. destruct Hu as (Hnd & Hall).
    induction es as [|[x m] es IHes]; [intros []|].
    cbn [flat_map fst snd]. cbn [map fst] in Hnd.
    apply NoDup_cons in Hnd as (Hx & Hnd). destruct Hall as (Hm & Hall).
    apply Forall_cons in IH as (IHm & IH). cbn [snd] in IHm, Hm.
    rewrite in_app_iff. intros [Hp|Hp].
    + destruct m as [c|es'].
      * destruct (JS.test _ _); [|destruct Hp]. destruct Hp as [<-|[]].
        exists [x], c. split; [reflexivity|].
        unfold read_file. cbn [get_node lookup_entry].
        rewrite decide_True by reflexivity. reflexivity.
      * destruct (_ && _); [|destruct Hp].
        apply (IHm _ _ Hm) in Hp as (rest & c & -> & Hread).
        exists (x :: rest), c. rewrite <- app_assoc. split; [reflexivity|].
        unfold read_file in *. cbn [get_node lookup_entry].
        rewrite decide_True by reflexivity. exact Hread.
    + pose proof Hp as Hp0.
      apply (IHes IH Hnd Hall) in Hp as (rest & c & -> & Hread).
      exists rest, c. split; [reflexivity|].
      apply in_flat_map in Hp0 as ([y m'] & Hin & Hp0). cbn [fst snd] in Hp0.
      apply getReactFiles_entry_below in Hp0 as (rest' & Hrest').
      apply app_inv_head in Hrest'. subst rest.
      unfold read_file in *. cbn [get_node lookup_entry] in *.
      destruct (decide (x = y)) as [->|Hxy]; [|exact Hread].
      exfalso. apply Hx. apply list_elem_of_In.
      apply (in_map fst) in Hin. exact Hin.
Qed.

End Discovery.


(** ** The entries a rule logs do not depend on the logs so far *)

Unset Default Proof Using.

Section Frame.

Lemma addLogs_nil (t : Tool) : addLogs [] [] t = t.
Proof. destruct t. unfold addLogs. cbn. rewrite !app_nil_r. reflexivity. Qed.

Lemma pushFix_addLogs (x : jsstring) (t : Tool) : pushFix x t = addLogs [x] [] t.
Proof. destruct t. unfold addLogs, pushFix. cbn. rewrite app_nil_r. reflexivity. Qed.

Lemma pushIssue_addLogs (x : jsstring) (t : Tool) :
  pushIssue x t = addLogs [] [x] t.
Proof. destruct t. unfold addLogs, pushIssue. cbn. rewrite app_nil_r. reflexivity. Qed.

Lemma addLogs_addLogs (F1 I1 F2 I2 : list jsstring) (t : Tool) :
  addLogs F2 I2 (addLogs F1 I1 t) = addLogs (F1 ++ F2) (I1 ++ I2) t.
Proof. unfold addLogs. cbn. rewrite !app_assoc. reflexivity. Qed.

Lemma framed_compose
    (r1 r2 : jsstring -> jsstring -> Tool -> jsstring * Tool) :
  framed r1 -> framed r2 ->
  framed (fun content fileName t =>
            let '(c1, t1) := r1 content fileName t in r2 c1 fileName t1).
Proof.
  intros H1 H2 content fileName t. cbv beta.
  rewrite (H1 content fileName t).
  rewrite (H1 content fileName (blankTool (targetVersion t))).
  change (targetVersion (blankTool (targetVersion t))) with (targetVersion t).
  destruct (r1 content fileName (blankTool (targetVersion t))) as [c1 t1].
  cbn [fst snd].
  change (fixes (addLogs (fixes t1) (issues t1) (blankTool (targetVersion t))))
    with (fixes t1).
  change (issues (addLogs (fixes t1) (issues t1) (blankTool (targetVersion t))))
    with (issues t1).
  rewrite (H2 c1 fileName (addLogs (fixes t1) (issues t1) t)).
  rewrite (H2 c1 fileName
             (addLogs (fixes t1) (issues t1) (blankTool (targetVersion t)))).
  change (targetVersion (addLogs (fixes t1) (issues t1) t))
    with (targetVersion t).
  change (targetVersion
            (addLogs (fixes t1) (issues t1) (blankTool (targetVersion t))))
    with (targetVersion t).
  destruct (r2 c1 fileName (blankTool (targetVersion t))) as [c2 t2].
  cbn [fst snd]. rewrite !addLogs_addLogs. reflexivity.
Qed.

Ltac frame_cases :=
  repeat match goal with
         | |- context [if ?b then _ else _] => destruct b
         end;
  cbn [fst snd fixes issues pushFix pushIssue blankTool targetVersion];
  rewrite ?pushFix_addLogs, ?pushIssue_addLogs, ?addLogs_addLogs;
  rewrite ?addLogs_nil; reflexivity.

Lemma framed_renderStage : framed Rules.renderStage.
Proof.
  intros content fileName t.
  unfold Rules.renderStage, Rules.transformReactDOMRender.
  change (targetVersion (blankTool (targetVersion t))) with (targetVersion t).
  frame_cases.
Qed.

Lemma framed_lifecycle : framed Rules.transformLifecycleMethods.
Proof.
  intros content fileName t. unfold Rules.transformLifecycleMethods.
  destruct (JS.includes content Rules.componentWillMount);
    destruct (JS.includes content Rules.componentWillReceiveProps);
    destruct (JS.includes content Rules.componentWillUpdate);
    cbn [fst snd fixes issues pushFix pushIssue blankTool targetVersion];
    rewrite ?pushFix_addLogs, ?pushIssue_addLogs, ?addLogs_addLogs;
    rewrite ?addLogs_nil; reflexivity.
Qed.

Lemma framed_events : framed Rules.transformEventHandlers.
Proof.
  intros content fileName t. unfold Rules.transformEventHandlers. frame_cases.
Qed.

Lemma framed_propTypes : framed Rules.transformPropTypes.
Proof.
  intros content fileName t. unfold Rules.transformPropTypes.
  destruct (JS.includes content (u "React.PropTypes"));
    cbn [fst snd fixes issues pushFix pushIssue blankTool targetVersion];
    rewrite ?pushFix_addLogs, ?addLogs_nil; reflexivity.
Qed.

Lemma framed_reactFC : framed Rules.transformReactFC.
Proof.
  intros content fileName t. unfold Rules.transformReactFC.
  destruct (_ || _);
    cbn [fst snd fixes issues pushFix pushIssue blankTool targetVersion];
    rewrite ?pushIssue_addLogs, ?addLogs_nil; reflexivity.
Qed.

Lemma pipeline_frame (content fileName : jsstring) (t : Tool) :
  Rules.rewritePipeline content fileName t =
    (fst (pipelineResult (targetVersion t) content fileName),
     addLogs (fixes (snd (pipelineResult (targetVersion t) content fileName)))
       (issues (snd (pipelineResult (targetVersion t) content fileName))) t).
Proof.
  unfold pipelineResult.
  exact (framed_compose _ _ framed_renderStage
           (framed_compose _ _ framed_lifecycle
              (framed_compose _ _ framed_events
                 (framed_compose _ _ framed_propTypes framed_reactFC)))
           content fileName t).
Qed.

End Frame.

(** ** A dry run against a real run *)

Ltac run_io :=
  repeat (unfold bind, ret, throw, try_catch, when, existsSync, readFileSync,
            writeFileSync, getTool, modifyTool, onTool;
          cbn beta iota zeta delta [fs tool trace fst snd negb andb]).

Section DryRun.
Context {E : Externals}.

Lemma fixesCorrespond_refl (l : list jsstring) : fixesCorrespond l l.
Proof. induction l; constructor; [apply SameEntry | assumption]. Qed.

Lemma issuesCorrespond_refl (l : list jsstring) : issuesCorrespond l l.
Proof. induction l; constructor; assumption. Qed.

Lemma fixesCorrespond_app (r d r' d' : list jsstring) :
  fixesCorrespond r d -> fixesCorrespond r' d' ->
  fixesCorrespond (r ++ r') (d ++ d').
Proof.
  intros H H'. induction H; cbn [app]; [exact H' | |]; constructor; assumption.
Qed.

Lemma issuesCorrespond_app (r d r' d' : list jsstring) :
  issuesCorrespond r d -> issuesCorrespond r' d' ->
  issuesCorrespond (r ++ r') (d ++ d').
Proof.
  intros H H'. induction H; cbn [app]; [exact H' | |]; constructor; assumption.
Qed.

Lemma related_mono (f0 : node) (oR oD : MigrationOptions)
    (files W W' : list path) (wr wd : World) :
  (forall q, In q W -> In q W') ->
  related f0 oR oD files W wr wd -> related f0 oR oD files W' wr wd.
Proof.
  intros Hsub [H1 H2 H2' H3 H4 H5 H6 H7 H8 H9 H10].
  constructor; try assumption. intros q Hq. apply H9. auto.
Qed.

(** [analyzeProject] does not look at the options. *)
Lemma analyzeProject_options (o : MigrationOptions) (w : World) :
  Base.analyzeProject (mkWorld (setOptions o (tool w)) (fs w) (trace w)) =
    (fst (Base.analyzeProject w),
     mkWorld (setOptions o (tool (snd (Base.analyzeProject w))))
       (fs (snd (Base.analyzeProject w)))
       (trace (snd (Base.analyzeProject w)))).
Proof.
  unfold Base.analyzeProject, Base.findReactFiles, Base.parsePackage. run_io.
  destruct (exists_path Base.packageJsonPath (fs w)); run_io; [|reflexivity].
  destruct (read_file Base.packageJsonPath (fs w)) as [text|]; run_io;
    [|reflexivity].
  destruct (JSON_parse_package text) as [message|packageJson]; run_io;
    [reflexivity|].
  destruct (JS.truthy _); run_io; [|reflexivity].
  destruct (get_node [u "src"] (fs w)) as [[c|items]|]; reflexivity.
Qed.

(** What [analyzeProject] leaves behind: the tree as it was, read events
    only, no fix entry; the files it found are the ones below [src]. *)
Lemma analyzeProject_effects (w : World) :
  fs (snd (Base.analyzeProject w)) = fs w
  /\ fixes (tool (snd (Base.analyzeProject w))) = fixes (tool w)
  /\ targetVersion (tool (snd (Base.analyzeProject w)))
     = targetVersion (tool w)
  /\ options (tool (snd (Base.analyzeProject w))) = options (tool w)
  /\ (exists reads, trace (snd (Base.analyzeProject w)) = trace w ++ reads
                    /\ Forall isReadEvent reads)
  /\ (reactFiles (tool (snd (Base.analyzeProject w))) = reactFiles (tool w)
      \/ exists items,
           get_node [u "src"] (fs w) = Some (Dir items)
           /\ reactFiles (tool (snd (Base.analyzeProject w)))
              = Base.getReactFiles [u "src"] (Dir items)).
Proof.
  assert (Forall isReadEvent [EvRead Base.packageJsonPath]) as Hone
    by (repeat constructor).
  unfold Base.analyzeProject, Base.findReactFiles, Base.parsePackage. run_io.
  destruct (exists_path Base.packageJsonPath (fs w)); run_io.
  2:{ repeat split; try reflexivity; [|left; reflexivity].
      exists []. rewrite app_nil_r. split; [reflexivity | constructor]. }
  destruct (read_file Base.packageJsonPath (fs w)) as [text|]; run_io.
  2:{ repeat split; try reflexivity; [|left; reflexivity]. eauto. }
  destruct (JSON_parse_package text) as [message|packageJson]; run_io.
  { repeat split; try reflexivity; [|left; reflexivity]. eauto. }
  destruct (JS.truthy _); run_io.
  2:{ repeat split; try reflexivity; [|left; reflexivity]. eauto. }
  destruct (get_node [u "src"] (fs w)) as [[c|items]|]; run_io;
    repeat split; try reflexivity; eauto.
Qed.

Lemma uniqueNames_lookup (x : jsstring) (es : list (jsstring * node))
    (m : node) :
  uniqueNames (Dir es) -> lookup_entry x es = Some m -> uniqueNames m.
Proof.
  cbn [uniqueNames]. intros (_ & Hall).
  induction es as [|[y m'] es IH]; cbn [lookup_entry]; [discriminate|].
  destruct Hall as (Hm & Hall). cbn [snd] in Hm.
  destruct (decide (y = x)); [intros [= <-]; exact Hm | apply IH, Hall].
Qed.

Lemma discovered_sourceFiles (f0 : node) (items : list (jsstring * node)) :
  uniqueNames f0 ->
  get_node [u "src"] f0 = Some (Dir items) ->
  sourceFiles f0 (Base.getReactFiles [u "src"] (Dir items)).
Proof.
  intros Hu Hsrc.
  assert (uniqueNames (Dir items)) as Hu'.
  { cbn [get_node] in Hsrc. destruct f0 as [c|es]; [discriminate|].
    destruct (lookup_entry (u "src") es) as [m|] eqn:Hm; [|discriminate].
    injection Hsrc as ->. eapply uniqueNames_lookup; eassumption. }
  split; [apply getReactFiles_NoDup, Hu'|].
  intros p Hp.
  apply (getReactFiles_files _ _ _ Hu') in Hp as (rest & c & -> & Hread).
  split; [|exists rest; reflexivity].
  exists c. unfold read_file in *. cbn [app get_node] in *.
  destruct f0 as [c0|es]; [discriminate|].
  destruct (lookup_entry (u "src") es) as [m|]; [|discriminate].
  injection Hsrc as ->. exact Hread.
Qed.

Lemma Forall_read_snoc (l : list event) (p : path) :
  Forall isReadEvent l -> Forall isReadEvent (l ++ [EvRead p]).
Proof.
  intros H. apply Forall_app. split; [exact H|]. repeat constructor.
Qed.

Section Phases.
Variables (f0 : node) (oR oD : MigrationOptions) (files : list path).
Hypothesis HoR : dryRun oR = false.
Hypothesis HoD : dryRun oD = true.

Lemma updateDependencies_related (W : list path) (wr wd : World) :
  related f0 oR oD files W wr wd ->
  ~ In Base.packageJsonPath W ->
  fst (Base.updateDependencies wr) = fst (Base.updateDependencies wd)
  /\ related f0 oR oD files (Base.packageJsonPath :: W)
       (snd (Base.updateDependencies wr)) (snd (Base.updateDependencies wd)).
Proof.
  intros Hrel HW. pose proof Hrel as [H1 H2 H2' H3 H4 H5 H6 H7 H8 H9 H10].
  unfold Base.updateDependencies, Base.parsePackage. run_io.
  pose proof (H9 _ HW) as Hread. rewrite Hread, H7.
  destruct (read_file Base.packageJsonPath f0) as [text|]; run_io.
  2:{ split; [reflexivity|]. apply (related_mono f0 oR oD files W); [intros; right; assumption|].
      constructor; cbn [tool fs trace]; try first [assumption | reflexivity].
      apply Forall_read_snoc, H10. }
  destruct (JSON_parse_package text) as [message|packageJson]; run_io.
  { split; [reflexivity|]. apply (related_mono f0 oR oD files W); [intros; right; assumption|].
    constructor; cbn [tool fs trace]; try first [assumption | reflexivity].
    apply Forall_read_snoc, H10. }
  rewrite H3, H4, HoR, HoD. run_io.
  assert (forall q, exists_path q
            (write_file Base.packageJsonPath
               (JSON_stringify_package
                  (resolveDependencyUpdates (targetVersion (tool wr)) packageJson))
               (fs wr)) = exists_path q f0) as Hex.
  { intros q. rewrite <- H8. apply (write_file_other _ _ _ _ Hread). }
  assert (forall q, ~ In q (Base.packageJsonPath :: W) ->
            read_file q
              (write_file Base.packageJsonPath
                 (JSON_stringify_package
                    (resolveDependencyUpdates (targetVersion (tool wr)) packageJson))
                 (fs wr)) = read_file q f0) as Hrd.
  { intros q Hq. rewrite <- H9 by (intros Hin; apply Hq; right; exact Hin).
    apply (write_file_other _ _ _ _ Hread). intros ->. apply Hq. left. reflexivity. }
  destruct (npm_install _) as [message|]; run_io; (split; [reflexivity|]);
    constructor; cbn [tool fs trace targetVersion options reactFiles fixes issues
                        pushFix pushIssue]; try first [assumption | reflexivity].
  - apply fixesCorrespond_app; [exact H5|].
    apply FixesStep; [apply ManifestEntry | apply FixesNil].
  - rewrite <- (app_nil_r (issues (tool wd))).
    apply issuesCorrespond_app; [exact H6|].
    apply IssuesInstallFailed, IssuesNil.
  - apply Forall_read_snoc, H10.
  - rewrite <- (app_nil_r (fixes (tool wd) ++ _)).
    apply fixesCorrespond_app.
    + apply fixesCorrespond_app; [exact H5|].
      apply FixesStep; [apply ManifestEntry | apply FixesNil].
    + apply FixesInstalled, FixesNil.
  - apply Forall_read_snoc, H10.
Qed.

Lemma transformFile_related (W : list path) (wr wd : World) (p : path) :
  related f0 oR oD files W wr wd ->
  ~ In p W ->
  fst (Base.transformFile p wr) = fst (Base.transformFile p wd)
  /\ related f0 oR oD files (p :: W)
       (snd (Base.transformFile p wr)) (snd (Base.transformFile p wd)).
Proof.
  intros Hrel HW. pose proof Hrel as [H1 H2 H2' H3 H4 H5 H6 H7 H8 H9 H10].
  unfold Base.transformFile. run_io.
  pose proof (H9 _ HW) as Hread. rewrite Hread, H7.
  destruct (read_file p f0) as [content|]; run_io.
  2:{ split; [reflexivity|].
      apply (related_mono f0 oR oD files W); [intros; right; assumption|].
      constructor; cbn [tool fs trace]; try first [assumption | reflexivity].
      apply Forall_read_snoc, H10. }
  rewrite (pipeline_frame content (basename p) (tool wr)).
  rewrite (pipeline_frame content (basename p) (tool wd)).
  rewrite <- H1.
  destruct (pipelineResult (targetVersion (tool wr)) content (basename p))
    as [transformed logs].
  run_io. cbn [options addLogs]. rewrite H3, H4, HoR, HoD.
  assert (fixesCorrespond (fixes (tool wr) ++ fixes logs)
            (fixes (tool wd) ++ fixes logs)) as Hfix
    by (apply fixesCorrespond_app; [exact H5 | apply fixesCorrespond_refl]).
  assert (issuesCorrespond (issues (tool wr) ++ issues logs)
            (issues (tool wd) ++ issues logs)) as Hiss
    by (apply issuesCorrespond_app; [exact H6 | apply issuesCorrespond_refl]).
  destruct (bool_decide (transformed = content)); run_io;
    (split; [reflexivity|]).
  - apply (related_mono f0 oR oD files W); [intros; right; assumption|].
    constructor;
      cbn [tool fs trace targetVersion options reactFiles fixes issues addLogs];
      try first [assumption | reflexivity].
    apply Forall_read_snoc, H10.
  - constructor;
      cbn [tool fs trace targetVersion options reactFiles fixes issues addLogs
             pushFix];
      try first [assumption | reflexivity].
    + apply fixesCorrespond_app; [exact Hfix|].
      apply FixesStep; [apply FileEntry | apply FixesNil].
    + intros q. rewrite <- H8. apply (write_file_other _ _ _ _ Hread).
    + intros q Hq. rewrite <- H9 by (intros Hin; apply Hq; right; exact Hin).
      apply (write_file_other _ _ _ _ Hread). intros ->. apply Hq. left.
      reflexivity.
    + apply Forall_read_snoc, H10.
Qed.

Lemma transformFiles_related (l : list path) (W : list path) (wr wd : World) :
  related f0 oR oD files W wr wd ->
  NoDup l ->
  (forall p, In p l -> ~ In p W) ->
  fst (forEach l Base.transformFile wr) = fst (forEach l Base.transformFile wd)
  /\ related f0 oR oD files (l ++ W)
       (snd (forEach l Base.transformFile wr))
       (snd (forEach l Base.transformFile wd)).
Proof.
  revert W wr wd. induction l as [|p l IH]; intros W wr wd Hrel Hnd HW.
  - cbn [forEach]. run_io. split; [reflexivity | exact Hrel].
  - cbn [forEach]. unfold bind.
    apply NoDup_cons in Hnd as (Hp & Hnd).
    destruct (transformFile_related W wr wd p Hrel) as (Hres & Hrel').
    { apply HW. left. reflexivity. }
    destruct (Base.transformFile p wr) as [rr wr'].
    destruct (Base.transformFile p wd) as [rd wd'].
    cbn [fst snd] in Hres, Hrel'. subst rd.
    destruct rr as [[]|message].
    + destruct (IH (p :: W) wr' wd' Hrel' Hnd) as (Hres2 & Hrel2).
      { intros q Hq [<-|Hin].
        - apply Hp. apply list_elem_of_In. exact Hq.
        - apply (HW q); [right; exact Hq | exact Hin]. }
      split; [exact Hres2|].
      eapply related_mono; [|exact Hrel2].
      intros q. rewrite !in_app_iff. cbn [In]. tauto.
    + cbn [fst snd]. split; [reflexivity|].
      eapply related_mono; [|exact Hrel'].
      intros q. cbn [In app]. rewrite in_app_iff. tauto.
Qed.

Lemma transformCode_related (W : list path) :
  NoDup files ->
  (forall p, In p files -> ~ In p W) ->
  preserves f0 oR oD files W (files ++ W) Base.transformCode.
Proof.
  intros Hnd HW wr wd Hrel. unfold Base.transformCode. run_io.
  rewrite <- (rel_files _ _ _ _ _ _ _ Hrel).
  rewrite (rel_files_real _ _ _ _ _ _ _ Hrel).
  apply transformFiles_related; assumption.
Qed.

Ltac same_logs :=
  constructor;
  cbn [tool fs trace targetVersion options reactFiles fixes issues pushFix
         pushIssue];
  try first
    [ assumption
    | reflexivity
    | apply Forall_read_snoc; assumption
    | repeat (apply issuesCorrespond_app; [|apply issuesCorrespond_refl]);
      assumption
    | repeat (apply fixesCorrespond_app; [|apply fixesCorrespond_refl]);
      assumption ].

Lemma updateTsConfig_related (W : list path) (wr wd : World) (p : path) :
  related f0 oR oD files W wr wd ->
  ~ In p W ->
  fst (Base.updateTsConfig p wr) = fst (Base.updateTsConfig p wd)
  /\ related f0 oR oD files (p :: W)
       (snd (Base.updateTsConfig p wr)) (snd (Base.updateTsConfig p wd)).
Proof.
  intros Hrel HW. pose proof Hrel as [H1 H2 H2' H3 H4 H5 H6 H7 H8 H9 H10].
  unfold Base.updateTsConfig. run_io.
  pose proof (H9 _ HW) as Hread. rewrite Hread, H7.
  destruct (read_file p f0) as [text|]; run_io.
  2:{ split; [reflexivity|].
      apply (related_mono f0 oR oD files W); [intros; right; assumption|]. same_logs. }
  rewrite <- H1, H3, H4, HoR, HoD.
  destruct (tsconfig_rewrite (JS.ge (targetVersion (tool wr)) (u "17")) text)
    as [message|updated]; run_io.
  { split; [reflexivity|].
    apply (related_mono f0 oR oD files W); [intros; right; assumption|]. same_logs. }
  destruct (JS.ge (targetVersion (tool wr)) (u "17")); run_io;
    (split; [reflexivity|]); same_logs.
  - intros q. rewrite <- H8. apply (write_file_other _ _ _ _ Hread).
  - intros q Hq. rewrite <- H9 by (intros Hin; apply Hq; right; exact Hin).
    apply (write_file_other _ _ _ _ Hread). intros ->. apply Hq. left.
    reflexivity.
  - intros q. rewrite <- H8. apply (write_file_other _ _ _ _ Hread).
  - intros q Hq. rewrite <- H9 by (intros Hin; apply Hq; right; exact Hin).
    apply (write_file_other _ _ _ _ Hread). intros ->. apply Hq. left.
    reflexivity.
Qed.

Lemma updateJestConfig_related (W : list path) (wr wd : World) (p : path) :
  related f0 oR oD files W wr wd ->
  ~ In p W ->
  fst (Base.updateJestConfig p wr) = fst (Base.updateJestConfig p wd)
  /\ related f0 oR oD files W
       (snd (Base.updateJestConfig p wr)) (snd (Base.updateJestConfig p wd)).
Proof.
  intros Hrel HW. pose proof Hrel as [H1 H2 H2' H3 H4 H5 H6 H7 H8 H9 H10].
  unfold Base.updateJestConfig. run_io.
  pose proof (H9 _ HW) as Hread. rewrite Hread, H7.
  destruct (read_file p f0) as [text|]; run_io.
  2:{ split; [reflexivity|]. same_logs. }
  rewrite <- H1.
  destruct (JS.ge (targetVersion (tool wr)) (u "18")); run_io;
    [destruct (JS.includes text (u "setupFilesAfterEnv")); run_io;
     destruct (JS.includes text (u "testEnvironment")); run_io|];
    (split; [reflexivity|]); same_logs.
Qed.

Lemma updateEslintConfig_related (W : list path) (wr wd : World) (p : path) :
  related f0 oR oD files W wr wd ->
  ~ In p W ->
  fst (Base.updateEslintConfig p wr) = fst (Base.updateEslintConfig p wd)
  /\ related f0 oR oD files W
       (snd (Base.updateEslintConfig p wr))
       (snd (Base.updateEslintConfig p wd)).
Proof.
  intros Hrel HW. pose proof Hrel as [H1 H2 H2' H3 H4 H5 H6 H7 H8 H9 H10].
  unfold Base.updateEslintConfig. run_io.
  pose proof (H9 _ HW) as Hread. rewrite Hread, H7.
  destruct (read_file p f0) as [text|]; run_io.
  2:{ split; [reflexivity|]. same_logs. }
  rewrite <- H1.
  destruct (JS.includes text (u "react")); run_io;
    [destruct (JS.includes text (DQ ++ u "version" ++ DQ)); run_io;
     destruct (JS.ge (targetVersion (tool wr)) (u "17")); run_io;
     try (destruct (JS.includes text (u "jsx-runtime")); run_io)|];
    (split; [reflexivity|]); same_logs.
Qed.

Lemma find_exists_related (W : list path) (wr wd : World) (l : list path) :
  related f0 oR oD files W wr wd ->
  find (fun q => exists_path q (fs wr)) l
  = find (fun q => exists_path q (fs wd)) l.
Proof.
  intros [H1 H2 H2' H3 H4 H5 H6 H7 H8 H9 H10].
  induction l as [|q l IH]; [reflexivity|]. cbn [find].
  rewrite H8, IH, H7. reflexivity.
Qed.

Lemma checkBabelConfig_related (W : list path) (wr wd : World) :
  related f0 oR oD files W wr wd ->
  fst (Base.checkBabelConfig wr) = fst (Base.checkBabelConfig wd)
  /\ related f0 oR oD files W
       (snd (Base.checkBabelConfig wr)) (snd (Base.checkBabelConfig wd)).
Proof.
  intros Hrel. pose proof Hrel as [H1 H2 H2' H3 H4 H5 H6 H7 H8 H9 H10].
  unfold Base.checkBabelConfig. run_io.
  rewrite (find_exists_related W wr wd _ Hrel), <- H1.
  destruct (find _ _); run_io;
    [destruct (JS.ge (targetVersion (tool wr)) (u "17")); run_io|];
    (split; [reflexivity|]); same_logs.
Qed.

Lemma checkWebpackConfig_related (W : list path) (wr wd : World) :
  related f0 oR oD files W wr wd ->
  fst (Base.checkWebpackConfig wr) = fst (Base.checkWebpackConfig wd)
  /\ related f0 oR oD files W
       (snd (Base.checkWebpackConfig wr)) (snd (Base.checkWebpackConfig wd)).
Proof.
  intros Hrel. pose proof Hrel as [H1 H2 H2' H3 H4 H5 H6 H7 H8 H9 H10].
  unfold Base.checkWebpackConfig. run_io.
  rewrite (find_exists_related W wr wd _ Hrel), <- H1.
  destruct (find _ _); run_io;
    [destruct (JS.ge (targetVersion (tool wr)) (u "18")); run_io|];
    (split; [reflexivity|]); same_logs.
Qed.

Lemma preserves_mono (W1 W2 W2' : list path) (m : M unit) :
  (forall q, In q W2 -> In q W2') ->
  preserves f0 oR oD files W1 W2 m -> preserves f0 oR oD files W1 W2' m.
Proof.
  intros Hsub Hm wr wd Hrel. destruct (Hm wr wd Hrel) as (Hres & Hrel').
  split; [exact Hres|]. eapply related_mono; eassumption.
Qed.

Lemma preserves_seq (W1 W2 W3 : list path) (m1 m2 : M unit) :
  (forall q, In q W2 -> In q W3) ->
  preserves f0 oR oD files W1 W2 m1 ->
  preserves f0 oR oD files W2 W3 m2 ->
  preserves f0 oR oD files W1 W3 (bind m1 (fun _ => m2)).
Proof.
  intros Hsub H1 H2 wr wd Hrel. unfold bind.
  destruct (H1 wr wd Hrel) as (Hres & Hrel').
  destruct (m1 wr) as [rr wr']. destruct (m1 wd) as [rd wd'].
  cbn [fst snd] in Hres, Hrel'. subst rd. destruct rr as [[]|message].
  - apply H2, Hrel'.
  - cbn [fst snd]. split; [reflexivity|]. eapply related_mono; eassumption.
Qed.

Lemma preserves_when (W1 W2 : list path) (b : bool) (m : M unit) :
  (forall q, In q W1 -> In q W2) ->
  preserves f0 oR oD files W1 W2 m ->
  preserves f0 oR oD files W1 W2 (when b m).
Proof.
  intros Hsub Hm. destruct b; [exact Hm|]. intros wr wd Hrel.
  unfold when, ret. cbn [fst snd]. split; [reflexivity|].
  eapply related_mono; eassumption.
Qed.

Lemma preserves_exists (W1 W2 : list path) (p : path) (f : bool -> M unit) :
  (forall b, preserves f0 oR oD files W1 W2 (f b)) ->
  preserves f0 oR oD files W1 W2 (bind (existsSync p) f).
Proof.
  intros Hf wr wd Hrel. unfold bind, existsSync.
  rewrite (rel_exists _ _ _ _ _ _ _ Hrel), (rel_fs_dry _ _ _ _ _ _ _ Hrel).
  apply Hf, Hrel.
Qed.

Lemma updateConfiguration_related (W : list path) :
  ~ In [u "tsconfig.json"] W ->
  ~ In [u "jest.config.js"] W ->
  ~ In [u ".eslintrc.js"] W ->
  preserves f0 oR oD files W ([u "tsconfig.json"] :: W)
    Base.updateConfiguration.
Proof.
  intros Hts Hjest Heslint. unfold Base.updateConfiguration.
  apply preserves_exists. intros hasTs.
  apply (preserves_seq _ ([u "tsconfig.json"] :: W)); [auto|..].
  { apply preserves_when; [intros; right; assumption|].
    intros wr wd Hrel. apply updateTsConfig_related; assumption. }
  apply preserves_exists. intros hasJest.
  apply (preserves_seq _ ([u "tsconfig.json"] :: W)); [auto|..].
  { apply preserves_when; [auto|].
    intros wr wd Hrel. apply updateJestConfig_related; [assumption|].
    intros [H|H]; [discriminate H | contradiction]. }
  apply preserves_exists. intros hasEslint.
  apply (preserves_seq _ ([u "tsconfig.json"] :: W)); [auto|..].
  { apply preserves_when; [auto|].
    intros wr wd Hrel. apply updateEslintConfig_related; [assumption|].
    intros [H|H]; [discriminate H | contradiction]. }
  apply (preserves_seq _ ([u "tsconfig.json"] :: W)); [auto|..].
  - intros wr wd Hrel. apply checkBabelConfig_related, Hrel.
  - intros wr wd Hrel. apply checkWebpackConfig_related, Hrel.
Qed.

Lemma migration_steps_related (o : MigrationOptions) :
  sourceFiles f0 files ->
  preserves f0 oR oD files [] ([u "tsconfig.json"] :: files ++ [Base.packageJsonPath])
    (bind (when (negb (skipDeps o)) Base.updateDependencies)
       (fun _ => when (negb (depsOnly o))
                   (bind Base.transformCode
                      (fun _ => Base.updateConfiguration)))).
Proof.
  intros (Hnd & Hfiles).
  assert (forall p, In p files -> ~ In p [Base.packageJsonPath]) as Hpkg.
  { intros p Hp [<-|[]]. destruct (Hfiles _ Hp) as (_ & rest & Hrest).
    discriminate Hrest. }
  assert (forall name, name <> u "src" -> name <> u "package.json" ->
            ~ In [name] (files ++ [Base.packageJsonPath])) as Hcfg.
  { intros name H1 H2. rewrite in_app_iff. intros [Hp|[Hp|[]]].
    - destruct (Hfiles _ Hp) as (_ & rest & Hrest). congruence.
    - unfold Base.packageJsonPath in Hp. congruence. }
  apply (preserves_seq _ [Base.packageJsonPath]).
  - intros q Hq. right. apply in_app_iff. right. exact Hq.
  - apply preserves_when; [intros q []|].
    intros wr wd Hrel. apply updateDependencies_related; [exact Hrel | intros []].
  - apply preserves_when.
    { intros q Hq. right. apply in_app_iff. right. exact Hq. }
    apply (preserves_seq _ (files ++ [Base.packageJsonPath])).
    + intros q Hq. right. exact Hq.
    + apply transformCode_related; assumption.
    + apply updateConfiguration_related; apply Hcfg; discriminate.
Qed.

End Phases.

Lemma migrate_run (target : jsstring) (o : MigrationOptions) (w : World) :
  Base.migrate target o w =
    match Base.analyzeProject
            (mkWorld (configure target o (tool w)) (fs w) (trace w)) with
    | (Ok _, w2) =>
        match bind (when (negb (skipDeps o)) Base.updateDependencies)
                (fun _ => when (negb (depsOnly o))
                            (bind Base.transformCode
                               (fun _ => Base.updateConfiguration))) w2 with
        | (Ok _, w') => (Base.Completed, w')
        | (Throw message, w') => (Base.Exit1 message, w')
        end
    | (Throw message, w2) => (Base.Exit1 message, w2)
    end.
Proof.
  unfold Base.migrate. unfold bind at 1.
  destruct (Base.analyzeProject _) as [[[]|message] w2]; reflexivity.
Qed.

(** C3 (as amended). On every project tree (no directory listing a name
    twice) and for every target version and choice of the other options, a
    dry run of [migrate] on a fresh tool object leaves the tree as it was,
    with read events only, ends as the real run ends, and its logs are those
    of the real run entry by entry, the write entries in their [would]
    phrasing, except that the real run also logs the outcome of the
    installer: the fix [Installed updated dependencies] or the issue
    [Failed to install dependencies: ...], which the dry run has no entry
    for. *)
Theorem C3_dry_run_against_real_run (target : jsstring)
    (o : MigrationOptions) (root : node) :
  uniqueNames root ->
  let real := Base.migrate target (withDryRun false o) (Base.start root) in
  let dry := Base.migrate target (withDryRun true o) (Base.start root) in
  fs (snd dry) = root
  /\ Forall isReadEvent (trace (snd dry))
  /\ fst dry = fst real
  /\ fixesCorrespond (fixes (tool (snd real))) (fixes (tool (snd dry)))
  /\ issuesCorrespond (issues (tool (snd real))) (issues (tool (snd dry))).
Proof.
  intros Hu real dry. subst real dry. rewrite !migrate_run.
  unfold Base.start. cbn [tool fs trace skipDeps depsOnly withDryRun].
  set (oR := withDryRun false o). set (oD := withDryRun true o).
  set (w0 := mkWorld (configure target oR newTool) root []).
  change (mkWorld (configure target oD newTool) root [])
    with (mkWorld (setOptions oD (tool w0)) (fs w0) (trace w0)).
  rewrite (analyzeProject_options oD w0).
  destruct (analyzeProject_effects w0)
    as (Hfs & Hfix & Hv & Hopt & (reads & Htr & Hreads) & Hfiles).
  destruct (Base.analyzeProject w0) as [rA wA]. cbn [fst snd] in *.
  change (fs w0) with root in *. change (trace w0) with (@nil event) in *.
  cbn [app] in Htr.
  assert (related root oR oD (reactFiles (tool wA)) [] wA
            (mkWorld (setOptions oD (tool wA)) (fs wA) (trace wA))) as Hrel.
  { constructor; cbn [tool fs trace setOptions targetVersion options reactFiles
                        fixes issues]; try first [assumption | reflexivity].
    - apply fixesCorrespond_refl.
    - apply issuesCorrespond_refl.
    - intros q. rewrite Hfs. reflexivity.
    - intros q _. rewrite Hfs. reflexivity.
    - rewrite Htr. exact Hreads. }
  destruct rA as [[]|message].
  2:{ cbn [fst snd tool fs trace]. repeat split.
      - exact Hfs.
      - rewrite Htr. exact Hreads.
      - apply fixesCorrespond_refl.
      - apply issuesCorrespond_refl. }
  assert (sourceFiles root (reactFiles (tool wA))) as Hsrc.
  { destruct Hfiles as [->|(items & Hitems & ->)].
    - split; [constructor | intros p []].
    - apply discovered_sourceFiles; assumption. }
  destruct (migration_steps_related root oR oD (reactFiles (tool wA))
              eq_refl eq_refl o Hsrc _ _ Hrel) as (Hres & Hrel').
  destruct (bind _ _ wA) as [rr wr']. destruct (bind _ _ _) as [rd wd'].
  cbn [fst snd] in Hres, Hrel'. subst rd.
  destruct Hrel' as [H1 H2 H2' H3 H4 H5 H6 H7 H8 H9 H10].
  destruct rr as [[]|message]; cbn [fst snd]; repeat split; assumption.
Qed.

End DryRun.

Lemma uniqueNames_projectScenario : uniqueNames projectScenario.
Proof.
  unfold projectScenario, projectOf, demoSources.
  cbn [uniqueNames map fst snd].
  repeat split; apply (bool_decide_unpack _); vm_compute; exact I.
Qed.

Lemma C3_witness_scenario_project :
  uniqueNames projectScenario
  /\ (let real := Base.migrate (E := demoExternals) (u "18")
                    (withDryRun false realRun) (Base.start projectScenario) in
      let dry := Base.migrate (E := demoExternals) (u "18")
                   (withDryRun true realRun) (Base.start projectScenario) in
      fs (snd dry) = projectScenario
      /\ Forall isReadEvent (trace (snd dry))
      /\ fst dry = fst real
      /\ fixesCorrespond (fixes (tool (snd real))) (fixes (tool (snd dry)))
      /\ issuesCorrespond (issues (tool (snd real))) (issues (tool (snd dry)))).
Proof.
  assert (uniqueNames projectScenario) as unique
    by exact uniqueNames_projectScenario.
  split; [exact unique|].
  exact (C3_dry_run_against_real_run (E := demoExternals) (u "18") realRun
           projectScenario unique).
Defined.

(** C3, as stated, fails on the project of the scenarios: the real run logs
    seven fixes and the dry run six, the installer's entry having no
    counterpart, so the two logs are not equivalent entry by entry. *)
Lemma C3_counterexample_installer_entry :
  let real := Base.migrate (E := demoExternals) (u "18") realRun
                (Base.start projectScenario) in
  let dry := Base.migrate (E := demoExternals) (u "18") dryRunOnly
               (Base.start projectScenario) in
  fixes (tool (snd real)) =
    [ updatedManifestFix;
      installedFix;
      u "index.js: Updated ReactDOM.render to createRoot API";
      transformedFix (u "index.js");
      u "Old.jsx: Replaced componentWillMount with componentDidMount";
      transformedFix (u "Old.jsx");
      u "Updated tsconfig.json with new JSX transform" ]
  /\ fixes (tool (snd dry)) =
    [ wouldUpdateManifestFix;
      u "index.js: Updated ReactDOM.render to createRoot API";
      wouldTransformFix (u "index.js");
      u "Old.jsx: Replaced componentWillMount with componentDidMount";
      wouldTransformFix (u "Old.jsx");
      u "Updated tsconfig.json with new JSX transform" ]
  /\ ~ Forall2 entryEquiv (fixes (tool (snd real))) (fixes (tool (snd dry))).
Proof.
  assert (fixes (tool (snd (Base.migrate (E := demoExternals) (u "18") realRun
                              (Base.start projectScenario)))) =
          [ updatedManifestFix;
            installedFix;
            u "index.js: Updated ReactDOM.render to createRoot API";
            transformedFix (u "index.js");
            u "Old.jsx: Replaced componentWillMount with componentDidMount";
            transformedFix (u "Old.jsx");
            u "Updated tsconfig.json with new JSX transform" ]) as Hreal
    by (vm_compute; reflexivity).
  assert (fixes (tool (snd (Base.migrate (E := demoExternals) (u "18") dryRunOnly
                              (Base.start projectScenario)))) =
          [ wouldUpdateManifestFix;
            u "index.js: Updated ReactDOM.render to createRoot API";
            wouldTransformFix (u "index.js");
            u "Old.jsx: Replaced componentWillMount with componentDidMount";
            wouldTransformFix (u "Old.jsx");
            u "Updated tsconfig.json with new JSX transform" ]) as Hdry
    by (vm_compute; reflexivity).
  cbv zeta. rewrite Hreal, Hdry. split; [reflexivity|]. split; [reflexivity|].
  intros H. apply Forall2_length in H. discriminate H.
Qed.

Section Preconditions.
Context {E : Externals}.

Lemma migrate_manifest_failure (targetVersion : jsstring)
    (options : MigrationOptions) (root : node) :
  manifestFailure root ->
  let run := Base.migrate targetVersion options (Base.start root) in
  (exists message, fst run = Base.Exit1 message)
  /\ fs (snd run) = root
  /\ fixes (tool (snd run)) = []
  /\ issues (tool (snd run)) = []
  /\ (trace (snd run) = [] \/ trace (snd run) = [EvRead Base.packageJsonPath]).
Proof.
  intros [Hmissing | text packageJson Hread Hparse Hdeps Hdev];
    cbv zeta; rewrite migrate_run; unfold Base.start; cbn [tool fs trace].
  - unfold Base.analyzeProject, bind, existsSync, throw. cbn [fs].
    rewrite Hmissing. cbn [negb fst snd fs tool trace configure fixes issues newTool].
    repeat split; eauto.
  - rewrite (analyzeProject_checks
               (mkWorld (configure targetVersion options newTool) root [])
               text packageJson Hread Hparse), Hdeps, Hdev.
    cbn [orb fst snd fs tool trace configure fixes issues newTool app].
    repeat split; eauto.
Qed.

(** C2 (as amended). The default command given a target version outside
    17, 18 and 19, and every entry point run on a project whose manifest is
    missing or holds no [react] range, ends through [process.exit(1)] with
    the project tree as it was, no fix and no issue logged, nothing written
    and no command run; the one file that may have been read by then is the
    manifest itself. *)
Theorem C2_precondition_failure_aborts (op : operation) (root : node) :
  preconditionFailure op root ->
  let run := runOperation op root in
  (exists message, fst run = Base.Exit1 message)
  /\ fs (snd run) = root
  /\ fixes (tool (snd run)) = []
  /\ issues (tool (snd run)) = []
  /\ (trace (snd run) = [] \/ trace (snd run) = [EvRead Base.packageJsonPath]).
Proof.
  intros [targetVersion options root' Hversion | op' root' Hmanifest].
  - cbv zeta. unfold runOperation, Base.cliMigrate.
    rewrite (bool_decide_eq_false_2 _ Hversion). cbn [negb fst snd].
    unfold Base.start. cbn [fs tool trace fixes issues newTool].
    repeat split; eauto.
  - destruct op' as [targetVersion options | targetVersion | targetVersion options];
      unfold runOperation.
    + unfold Base.cliMigrate.
      destruct (bool_decide (targetVersion ∈ supportedVersions)); cbn [negb].
      * apply migrate_manifest_failure, Hmanifest.
      * unfold Base.start. cbn [fst snd fs tool trace fixes issues newTool].
        repeat split; eauto.
    + apply migrate_manifest_failure, Hmanifest.
    + apply migrate_manifest_failure, Hmanifest.
Qed.

End Preconditions.

Lemma C2_witness_no_react :
  preconditionFailure (E := demoExternals) (MigrateCommand (u "18") realRun)
    projectNoReact
  /\ (let run := runOperation (E := demoExternals)
                   (MigrateCommand (u "18") realRun) projectNoReact in
      (exists message, fst run = Base.Exit1 message)
      /\ fs (snd run) = projectNoReact
      /\ fixes (tool (snd run)) = []
      /\ issues (tool (snd run)) = []
      /\ (trace (snd run) = []
          \/ trace (snd run) = [EvRead Base.packageJsonPath])).
Proof.
  assert (preconditionFailure (E := demoExternals)
            (MigrateCommand (u "18") realRun) projectNoReact) as failure.
  { apply BadManifest.
    apply (FrameworkMissing (E := demoExternals) projectNoReact
             (printManifest manifestNoReact) manifestNoReact);
      vm_compute; reflexivity. }
  split; [exact failure|].
  exact (C2_precondition_failure_aborts (E := demoExternals) _ _ failure).
Defined.

(** C2, as stated, fails in three ways on the projects of the scenarios: the
    [check] command given version 16 completes; the [migrate] method given
    version 16 completes after writing the manifest, its [react] range now
    [^16]; and the default command on a manifest without [react] has read the
    manifest by the time it fails. *)
Lemma C2_counterexample_unchecked_version :
  fst (runOperation (E := demoExternals) (CheckCommand (u "16")) projectScenario)
    = Base.Completed
  /\ (let run := runOperation (E := demoExternals)
                   (MigrateCall (u "16") realRun) projectScenario in
      fst run = Base.Completed
      /\ nth_error (trace (snd run)) 2 = Some (EvWrite Base.packageJsonPath)
      /\ read_file Base.packageJsonPath (fs (snd run)) =
           Some (printManifest
                   (resolveDependencyUpdates (u "16") manifestScenarioC))
      /\ get_dep (dependencies
                    (resolveDependencyUpdates (u "16") manifestScenarioC))
           (u "react") = Some (u "^16")
      /\ get_dep (dependencies manifestScenarioC) (u "react")
           <> Some (u "^16"))
  /\ (let run := runOperation (E := demoExternals)
                   (MigrateCommand (u "18") realRun) projectNoReact in
      fst run = Base.Exit1 (u "React not found in dependencies")
      /\ trace (snd run) = [EvRead Base.packageJsonPath]).
Proof.
  split; [vm_compute; reflexivity|]. split.
  - cbv zeta. split; [vm_compute; reflexivity|].
    split; [vm_compute; reflexivity|].
    split; [vm_compute; reflexivity|].
    split; [vm_compute; reflexivity|].
    vm_compute. discriminate.
  - cbv zeta. split; vm_compute; reflexivity.
Qed.

(** ** Discovery of the source files *)

Section DiscoveryCharacterised.
Import JS.

Lemma exec_reactFileRegex (s : jsstring) :
  isSome (exec_at Base.reactFileRegex s) = bool_decide (s ∈ reactExtensions).
Proof.
  destruct (bool_decide (s ∈ reactExtensions)) eqn:Hs.
  - apply bool_decide_eq_true_1 in Hs. unfold reactExtensions in Hs.
    rewrite !elem_of_cons, elem_of_nil in Hs.
    destruct Hs as [->|[->|[->|[->|[]]]]]; vm_compute; reflexivity.
  - apply bool_decide_eq_false_1 in Hs.
    destruct (exec_at Base.reactFileRegex s) as [r|] eqn:Hexec; [|reflexivity].
    exfalso. apply Hs. clear Hs. revert Hexec.
    unfold exec_at, Base.reactFileRegex, Rules.cat.
    cbn [rmatch rep].
    destruct (lit_prefix (u ".") s) as [s1|] eqn:H1; [|discriminate].
    apply lit_prefix_Some in H1. subst s.
    destruct (lit_prefix (u "js") s1) as [s2|] eqn:H2.
    + apply lit_prefix_Some in H2. subst s1.
      destruct s2 as [|c s3]; [intros _; vm_compute; set_solver|].
      unfold isOneOf. cbn [existsb orb].
      destruct (N.eqb_spec c 120) as [->|Hc]; cbn [orb].
      * destruct s3 as [|d s4]; [intros _; vm_compute; set_solver|].
        cbn. discriminate.
      * cbn. discriminate.
    + destruct (lit_prefix (u "ts") s1) as [s2|] eqn:H3; [|discriminate].
      apply lit_prefix_Some in H3. subst s1.
      destruct s2 as [|c s3]; [intros _; vm_compute; set_solver|].
      unfold isOneOf. cbn [existsb orb].
      destruct (N.eqb_spec c 120) as [->|Hc]; cbn [orb].
      * destruct s3 as [|d s4]; [intros _; vm_compute; set_solver|].
        cbn. discriminate.
      * cbn. discriminate.
Qed.

(** The file-name test of [getReactFiles] accepts the names that end in
    [.js], [.jsx], [.ts] or [.tsx]. *)
Lemma test_reactFileRegex (name : jsstring) :
  test Base.reactFileRegex name = true <->
  exists stem ext, name = stem ++ ext /\ In ext reactExtensions.
Proof.
  induction name as [|a name IH].
  - cbn [test]. split.
    + pose proof (exec_reactFileRegex []) as H.
      destruct (exec_at Base.reactFileRegex []); [|discriminate].
      cbn [isSome] in H. symmetry in H. apply bool_decide_eq_true_1 in H.
      intros _. exists [], []. split; [reflexivity | apply list_elem_of_In, H].
    + intros (stem & ext & Heq & Hin). symmetry in Heq.
      apply app_eq_nil in Heq as (-> & ->).
      vm_compute in Hin. repeat destruct Hin as [Hin|Hin]; try discriminate Hin.
      destruct Hin.
  - rewrite test_cons_eq, orb_true_iff, IH, exec_reactFileRegex,
      bool_decide_eq_true.
    split.
    + intros [Hin|(stem & ext & -> & Hin)].
      * exists [], (a :: name). split; [reflexivity | apply list_elem_of_In, Hin].
      * exists (a :: stem), ext. split; [reflexivity | exact Hin].
    + intros ([|b stem] & ext & Heq & Hin).
      * left. cbn [app] in Heq. rewrite Heq. apply list_elem_of_In, Hin.
      * right. injection Heq as -> ->. exists stem, ext. split; [reflexivity|exact Hin].
Qed.

Lemma lookup_entry_In (x : jsstring) (es : list (jsstring * node)) (m : node) :
  lookup_entry x es = Some m -> In (x, m) es.
Proof.
  induction es as [|[y m'] es IH]; cbn [lookup_entry]; [discriminate|].
  destruct (decide (y = x)) as [->|Hne].
  - intros [= ->]. left. reflexivity.
  - intros H. right. apply IH, H.
Qed.

Lemma In_lookup_entry (x : jsstring) (es : list (jsstring * node)) (m : node) :
  NoDup (map fst es) -> In (x, m) es -> lookup_entry x es = Some m.
Proof.
  induction es as [|[y m'] es IH]; cbn [lookup_entry map fst]; [intros _ []|].
  intros Hnd [Heq|Hin].
  - injection Heq as -> ->. rewrite decide_True by reflexivity. reflexivity.
  - apply NoDup_cons in Hnd as (Hy & Hnd).
    destruct (decide (y = x)) as [->|Hne]; [|apply IH; assumption].
    exfalso. apply Hy. apply list_elem_of_In. apply (in_map fst) in Hin. exact Hin.
Qed.

Lemma getReactFiles_found (dir : path) (n : node) (rest : path) (c : jsstring) :
  uniqueNames n ->
  read_file rest n = Some c ->
  forallb searched (removelast rest) = true ->
  test Base.reactFileRegex (basename rest) = true ->
  In (dir ++ rest) (Base.getReactFiles dir n).
Proof.
  revert dir rest. induction n as [c0|es IH] using node_induction;
    intros dir rest Hu Hread Hdirs Hname.
  - unfold read_file in Hread. destruct rest as [|x rest]; [|discriminate].
    cbn in Hname. pose proof (exec_reactFileRegex []) as H.
    destruct (exec_at Base.reactFileRegex []); [|discriminate]. discriminate H.
  - unfold read_file in Hread. destruct rest as [|x rest]; [discriminate|].
    cbn [get_node] in Hread.
    destruct (lookup_entry x es) as [m|] eqn:Hm; [|discriminate].
    pose proof (uniqueNames_lookup _ _ _ Hu Hm) as Hum.
    apply lookup_entry_In in Hm.
    cbn [Base.getReactFiles]. apply in_flat_map. exists (x, m).
    split; [exact Hm|]. cbn [fst snd].
    destruct rest as [|y rest].
    + cbn [get_node] in Hread. destruct m as [c1|es']; [|discriminate].
      unfold basename in Hname. cbn [List.last] in Hname. rewrite Hname.
      left. reflexivity.
    + destruct m as [c1|es']; [discriminate|].
      cbn [removelast forallb] in Hdirs.
      apply andb_true_iff in Hdirs as (Hx & Hdirs).
      unfold searched in Hx. rewrite Hx.
      rewrite Forall_forall in IH.
      replace (dir ++ x :: y :: rest) with ((dir ++ [x]) ++ y :: rest)
        by (rewrite <- app_assoc; reflexivity).
      apply (IH (x, Dir es')); [apply list_elem_of_In, Hm | exact Hum | | exact Hdirs |].
      * unfold read_file. exact Hread.
      * unfold basename in *. exact Hname.
Qed.

Lemma getReactFiles_sound (dir : path) (n : node) (p : path) :
  uniqueNames n ->
  In p (Base.getReactFiles dir n) ->
  exists rest c,
    p = dir ++ rest
    /\ read_file rest n = Some c
    /\ forallb searched (removelast rest) = true
    /\ test Base.reactFileRegex (basename rest) = true.
Proof.
  revert dir p. induction n as [c0|es IH] using node_induction;
    intros dir p Hu; [intros []|].
  cbn [Base.getReactFiles]. rewrite in_flat_map.
  intros ([x m] & Hin & Hp). cbn [fst snd] in Hp.
  pose proof Hu as Hu0. cbn [uniqueNames] in Hu. destruct Hu as (Hnd & _).
  pose proof (In_lookup_entry _ _ _ Hnd Hin) as Hm.
  pose proof (uniqueNames_lookup _ _ _ Hu0 Hm) as Hum.
  destruct m as [c1|es'].
  - destruct (test Base.reactFileRegex x) eqn:Hx; [|destruct Hp].
    destruct Hp as [<-|[]]. exists [x], c1.
    split; [reflexivity|]. split; [|split; [reflexivity | exact Hx]].
    unfold read_file. cbn [get_node]. rewrite Hm. reflexivity.
  - destruct (negb (startsWith x (u ".")) && negb (bool_decide (x = u "node_modules")))
      eqn:Hx; [|destruct Hp].
    rewrite Forall_forall in IH.
    apply (IH (x, Dir es')) in Hp as (rest & c & -> & Hread & Hdirs & Hname);
      [|apply list_elem_of_In, Hin | exact Hum].
    destruct rest as [|y rest]; [discriminate Hread|].
    exists (x :: y :: rest), c. rewrite <- app_assoc.
    split; [reflexivity|]. split; [|split].
    + unfold read_file in *. cbn [get_node]. rewrite Hm. exact Hread.
    + cbn [removelast forallb]. apply andb_true_iff. split; [exact Hx | exact Hdirs].
    + unfold basename in *. exact Hname.
Qed.

End DiscoveryCharacterised.

(** X2. [getReactFiles] finds exactly the regular files below the directory
    it is given whose name ends in [.js], [.jsx], [.ts] or [.tsx] and that
    are reached through directories whose name neither starts with a dot nor
    is [node_modules] (on a tree where no directory lists a name twice). *)
Theorem getReactFiles_characterised (dir : path) (n : node) (p : path) :
  uniqueNames n ->
  In p (Base.getReactFiles dir n) <->
  exists rest c stem ext,
    p = dir ++ rest
    /\ read_file rest n = Some c
    /\ forallb searched (removelast rest) = true
    /\ basename rest = stem ++ ext
    /\ In ext reactExtensions.
Proof.
  intros Hu. split.
  - intros Hp.
    apply (getReactFiles_sound _ _ _ Hu) in Hp
      as (rest & c & -> & Hread & Hdirs & Hname).
    apply test_reactFileRegex in Hname as (stem & ext & Hname & Hext).
    exists rest, c, stem, ext. auto.
  - intros (rest & c & stem & ext & -> & Hread & Hdirs & Hname & Hext).
    apply (getReactFiles_found _ _ _ c Hu Hread Hdirs).
    apply test_reactFileRegex. exists stem, ext. auto.
Qed.

(** ** The dependency resolver applied twice *)

Section ResolverTwice.
Implicit Types (section : option (gmap jsstring jsstring)).
Implicit Types (name version : jsstring).

Lemma pin_pin_same name version section :
  pin name version (pin name version section) = pin name version section.
Proof.
  destruct section as [m|]; [|reflexivity].
  unfold pin. cbn [get_dep].
  destruct (JS.truthy (m !! name)) eqn:Ht; cbn [set_dep get_dep].
  - rewrite lookup_insert_eq.
    destruct (JS.truthy (Some version)); [|reflexivity].
    rewrite insert_insert_eq. reflexivity.
  - rewrite Ht. reflexivity.
Qed.

Lemma pin_pin_comm name version name' version' section :
  name <> name' ->
  pin name version (pin name' version' section)
  = pin name' version' (pin name version section).
Proof.
  intros Hne. destruct section as [m|]; [|reflexivity].
  unfold pin. cbn [get_dep].
  destruct (JS.truthy (m !! name')) eqn:H1;
    destruct (JS.truthy (m !! name)) eqn:H2; cbn [set_dep get_dep];
    rewrite ?lookup_insert_ne by congruence; rewrite ?H1, ?H2; cbn [set_dep];
    try reflexivity.
  rewrite insert_insert_ne by congruence. reflexivity.
Qed.

Lemma pinAll_pin_comm entries name version section :
  ~ In name (map fst entries) ->
  pinAll entries (pin name version section)
  = pin name version (pinAll entries section).
Proof.
  revert section. induction entries as [|[n v] entries IH]; intros section Hn.
  - reflexivity.
  - cbn [pinAll fold_left fst snd]. cbn [map fst In] in Hn.
    rewrite (pin_pin_comm n v name version) by tauto.
    apply IH. tauto.
Qed.

Lemma pinAll_twice entries section :
  NoDup (map fst entries) ->
  pinAll entries (pinAll entries section) = pinAll entries section.
Proof.
  revert section. induction entries as [|[n v] entries IH]; intros section Hnd.
  - reflexivity.
  - cbn [map fst] in Hnd. apply NoDup_cons in Hnd as (Hn & Hnd).
    rewrite list_elem_of_In in Hn.
    change (pinAll ((n, v) :: entries) section)
      with (pinAll entries (pin n v section)).
    change (pinAll ((n, v) :: entries) (pinAll entries (pin n v section)))
      with (pinAll entries (pin n v (pinAll entries (pin n v section)))).
    rewrite <- (pinAll_pin_comm entries n v (pin n v section) Hn).
    rewrite pin_pin_same. apply IH, Hnd.
Qed.

Lemma pinAll_core_twice name version name' version' entries section :
  name <> name' ->
  ~ In name (map fst entries) ->
  ~ In name' (map fst entries) ->
  NoDup (map fst entries) ->
  pinAll entries
    (pin name' version'
       (pin name version
          (pinAll entries (pin name' version' (pin name version section)))))
  = pinAll entries (pin name' version' (pin name version section)).
Proof.
  intros Hne Hn Hn' Hnd.
  apply (pinAll_twice ((name, version) :: (name', version') :: entries) section).
  cbn [map fst]. apply NoDup_cons. split.
  - rewrite list_elem_of_In. intros [H|H]; [congruence | exact (Hn H)].
  - apply NoDup_cons. split; [rewrite list_elem_of_In; exact Hn' | exact Hnd].
Qed.

End ResolverTwice.

(** X3. For the target versions 17, 18 and 19, updating the dependencies of
    a manifest that has already been updated for the same version changes
    nothing. *)
Theorem resolveDependencyUpdates_idempotent (targetVersion : jsstring)
    (packageJson : PackageJson) :
  In targetVersion supportedVersions ->
  resolveDependencyUpdates targetVersion
    (resolveDependencyUpdates targetVersion packageJson)
  = resolveDependencyUpdates targetVersion packageJson.
Proof.
  intros _.
  destruct (resolve_sections targetVersion packageJson) as (Hd & Hv & Ho).
  destruct (resolve_sections targetVersion
              (resolveDependencyUpdates targetVersion packageJson))
    as (Hd' & Hv' & Ho').
  rewrite Hd in Hd'. rewrite Hv in Hv'. rewrite Ho in Ho'.
  rewrite (pinAll_core_twice (u "react") _ (u "react-dom")) in Hd'.
  - rewrite pinAll_twice in Hv' by exact (relatedNames_NoDup targetVersion).
    rewrite <- Hd in Hd'. rewrite <- Hv in Hv'. rewrite <- Ho in Ho'.
    destruct (resolveDependencyUpdates targetVersion
                (resolveDependencyUpdates targetVersion packageJson))
      as [d2 v2 o2].
    destruct (resolveDependencyUpdates targetVersion packageJson)
      as [d1 v1 o1].
    cbn [dependencies devDependencies others] in Hd', Hv', Ho'.
    congruence.
  - discriminate.
  - exact (react_not_related targetVersion).
  - exact (react_dom_not_related targetVersion).
  - exact (relatedNames_NoDup targetVersion).
Qed.

(** ** Runs of [migrate] *)

Section Totality.
Context {E : Externals}.
















End Totality.

Section RealAndDry.
Context {E : Externals}.

Lemma preserves_ret (f0 : node) (oR oD : MigrationOptions)
    (files W : list path) :
  preserves f0 oR oD files W W (ret tt).
Proof. intros wr wd Hrel. split; [reflexivity | exact Hrel]. Qed.

(** With [skipDeps] the real run writes no manifest. *)
Lemma steps_related_skipDeps (f0 : node) (oR oD : MigrationOptions)
    (files : list path) (o : MigrationOptions) :
  dryRun oR = false -> dryRun oD = true ->
  skipDeps o = true ->
  sourceFiles f0 files ->
  preserves f0 oR oD files [] ([u "tsconfig.json"] :: files)
    (bind (when (negb (skipDeps o)) Base.updateDependencies)
       (fun _ => when (negb (depsOnly o))
                   (bind Base.transformCode
                      (fun _ => Base.updateConfiguration)))).
Proof.
  intros HoR HoD Hskip (Hnd & Hfiles). rewrite Hskip. cbn [negb when].
  assert (forall name, name <> u "src" -> ~ In [name] (files ++ [])) as Hcfg.
  { intros name H1. rewrite app_nil_r. intros Hp.
    destruct (Hfiles _ Hp) as (_ & rest & Hrest). congruence. }
  apply (preserves_seq _ _ _ _ _ []); [intros q [] | apply preserves_ret |].
  apply preserves_when; [intros q []|].
  apply (preserves_seq _ _ _ _ _ (files ++ [])).
  - intros q Hq. rewrite app_nil_r in Hq. right. exact Hq.
  - apply transformCode_related; try assumption. intros p _ [].
  - eapply preserves_mono;
      [|apply (updateConfiguration_related f0 oR oD files HoR HoD (files ++ []));
        apply Hcfg; discriminate].
    intros q. rewrite app_nil_r. auto.
Qed.


Lemma withDryRun_same (o : MigrationOptions) : withDryRun (dryRun o) o = o.
Proof. destruct o. reflexivity. Qed.

(** The real run and the dry run of [migrate] on a fresh tool object, from
    a bound [written] on the files that the steps after the analysis come to
    write. *)
Lemma migrate_related (target : jsstring) (o : MigrationOptions) (root : node)
    (written : list path -> list path) :
  uniqueNames root ->
  (forall files,
     sourceFiles root files ->
     preserves root (withDryRun false o) (withDryRun true o) files []
       (written files)
       (bind (when (negb (skipDeps o)) Base.updateDependencies)
          (fun _ => when (negb (depsOnly o))
                      (bind Base.transformCode
                         (fun _ => Base.updateConfiguration))))) ->
  exists files,
    sourceFiles root files
    /\ fst (Base.migrate target (withDryRun false o) (Base.start root))
       = fst (Base.migrate target (withDryRun true o) (Base.start root))
    /\ related root (withDryRun false o) (withDryRun true o) files
         (written files)
         (snd (Base.migrate target (withDryRun false o) (Base.start root)))
         (snd (Base.migrate target (withDryRun true o) (Base.start root))).
Proof.
  intros Hu Hsteps. rewrite !migrate_run.
  unfold Base.start. cbn [tool fs trace skipDeps depsOnly withDryRun].
  set (oR := withDryRun false o). set (oD := withDryRun true o).
  set (w0 := mkWorld (configure target oR newTool) root []).
  change (mkWorld (configure target oD newTool) root [])
    with (mkWorld (setOptions oD (tool w0)) (fs w0) (trace w0)).
  rewrite (analyzeProject_options oD w0).
  destruct (analyzeProject_effects w0)
    as (Hfs & Hfix & Hv & Hopt & (reads & Htr & Hreads) & Hfiles).
  destruct (Base.analyzeProject w0) as [rA wA]. cbn [fst snd] in *.
  change (fs w0) with root in *. change (trace w0) with (@nil event) in *.
  cbn [app] in Htr.
  assert (related root oR oD (reactFiles (tool wA)) [] wA
            (mkWorld (setOptions oD (tool wA)) (fs wA) (trace wA))) as Hrel.
  { constructor; cbn [tool fs trace setOptions targetVersion options reactFiles
                        fixes issues]; try first [assumption | reflexivity].
    - apply fixesCorrespond_refl.
    - apply issuesCorrespond_refl.
    - intros q. rewrite Hfs. reflexivity.
    - intros q _. rewrite Hfs. reflexivity.
    - rewrite Htr. exact Hreads. }
  assert (sourceFiles root (reactFiles (tool wA))) as Hsrc.
  { destruct Hfiles as [->|(items & Hitems & ->)].
    - split; [constructor | intros p []].
    - apply discovered_sourceFiles; assumption. }
  exists (reactFiles (tool wA)). split; [exact Hsrc|].
  destruct rA as [[]|message].
  2:{ cbn [fst snd]. split; [reflexivity|].
      eapply related_mono; [|exact Hrel]. intros q []. }
  destruct (Hsteps _ Hsrc _ _ Hrel) as (Hres & Hrel').
  destruct (bind _ _ wA) as [rr wr']. destruct (bind _ _ _) as [rd wd'].
  cbn [fst snd] in Hres, Hrel'. subst rd.
  destruct rr as [[]|message]; cbn [fst snd]; split; auto.
Qed.



End RealAndDry.

(** ** The events of a run *)

Section Events.
Context {E : Externals}.
Variable files : list path.
Variable allowed : event -> Prop.

Lemma emits_ret {A : Type} (a : A) : emits files allowed (ret a).
Proof.
  intros w Hw. split; [exact Hw|]. exists []. rewrite app_nil_r.
  split; [reflexivity | constructor].
Qed.

Lemma emits_throw {A : Type} (message : jsstring) :
  emits files allowed (@throw A message).
Proof.
  intros w Hw. split; [exact Hw|]. exists []. rewrite app_nil_r.
  split; [reflexivity | constructor].
Qed.

Lemma emits_bind {A B : Type} (m : M A) (f : A -> M B) :
  emits files allowed m -> (forall a, emits files allowed (f a)) ->
  emits files allowed (bind m f).
Proof.
  intros Hm Hf w Hw. unfold bind. destruct (Hm w Hw) as (Hw' & l & Hl & Hall).
  destruct (m w) as [[a|message] w']; cbn [fst snd] in *.
  - destruct (Hf a w' Hw') as (Hw'' & l' & Hl' & Hall').
    split; [exact Hw''|]. exists (l ++ l'). rewrite Hl', Hl, app_assoc.
    split; [reflexivity | apply Forall_app; auto].
  - split; [exact Hw'|]. exists l. auto.
Qed.

Lemma emits_try_catch {A : Type} (m : M A) (h : jsstring -> M A) :
  emits files allowed m -> (forall message, emits files allowed (h message)) ->
  emits files allowed (try_catch m h).
Proof.
  intros Hm Hh w Hw. unfold try_catch.
  destruct (Hm w Hw) as (Hw' & l & Hl & Hall).
  destruct (m w) as [[a|message] w']; cbn [fst snd] in *.
  - split; [exact Hw'|]. exists l. auto.
  - destruct (Hh message w' Hw') as (Hw'' & l' & Hl' & Hall').
    split; [exact Hw''|]. exists (l ++ l'). rewrite Hl', Hl, app_assoc.
    split; [reflexivity | apply Forall_app; auto].
Qed.

Lemma emits_when (b : bool) (m : M unit) :
  emits files allowed m -> emits files allowed (when b m).
Proof. intros Hm. destruct b; [exact Hm | apply emits_ret]. Qed.

Lemma emits_forEach {A : Type} (l : list A) (body : A -> M unit) :
  (forall a, In a l -> emits files allowed (body a)) ->
  emits files allowed (forEach l body).
Proof.
  induction l as [|a l IH]; intros Hbody; cbn [forEach]; [apply emits_ret|].
  apply emits_bind; [apply Hbody; left; reflexivity|]. intros _.
  apply IH. intros b Hb. apply Hbody. right. exact Hb.
Qed.

Lemma emits_getTool : emits files allowed getTool.
Proof. exact (emits_ret tt). Qed.

Lemma emits_world : emits files allowed (fun w : World => (Ok w, w)).
Proof. exact (emits_ret tt). Qed.

Lemma emits_existsSync (p : path) : emits files allowed (existsSync p).
Proof. exact (emits_ret tt). Qed.

Lemma emits_modifyTool (f : Tool -> Tool) :
  (forall t, reactFiles (f t) = reactFiles t) ->
  emits files allowed (modifyTool f).
Proof.
  intros Hf w Hw. unfold modifyTool. cbn [fst snd tool trace].
  split; [rewrite Hf; exact Hw|]. exists []. rewrite app_nil_r.
  split; [reflexivity | constructor].
Qed.

Lemma emits_pushFix (x : jsstring) : emits files allowed (modifyTool (pushFix x)).
Proof. apply emits_modifyTool. reflexivity. Qed.

Lemma emits_pushIssue (x : jsstring) :
  emits files allowed (modifyTool (pushIssue x)).
Proof. apply emits_modifyTool. reflexivity. Qed.

Lemma emits_readFileSync (p : path) :
  allowed (EvRead p) -> emits files allowed (readFileSync p).
Proof.
  intros Hp w Hw. unfold readFileSync.
  destruct (read_file p (fs w)); cbn [fst snd tool trace];
    (split; [exact Hw|]); exists [EvRead p]; split; try reflexivity;
    constructor; auto.
Qed.

Lemma emits_writeFileSync (p : path) (c : jsstring) :
  allowed (EvWrite p) -> emits files allowed (writeFileSync p c).
Proof.
  intros Hp w Hw. unfold writeFileSync. cbn [fst snd tool trace].
  split; [exact Hw|]. exists [EvWrite p]. split; [reflexivity|].
  constructor; auto.
Qed.


Lemma emits_transformFile (p : path) :
  allowed (EvRead p) -> allowed (EvWrite p) ->
  emits files allowed (Base.transformFile p).
Proof.
  intros Hr Hw. unfold Base.transformFile.
  apply emits_bind; [apply emits_readFileSync, Hr|]. intros content.
  apply emits_bind.
  { intros w Hfiles. unfold onTool. rewrite pipeline_frame.
    cbn [fst snd tool trace addLogs reactFiles].
    split; [exact Hfiles|]. exists []. rewrite app_nil_r.
    split; [reflexivity | constructor]. }
  intros transformed. apply emits_bind; [apply emits_getTool|]. intros t.
  destruct (negb (bool_decide (transformed = content))); cbn [andb];
    [|apply emits_ret].
  destruct (negb (dryRun (options t))); [|apply emits_pushFix].
  apply emits_bind; [apply emits_writeFileSync, Hw|]. intros _.
  apply emits_pushFix.
Qed.

Lemma emits_transformCode :
  (forall p, In p files -> allowed (EvRead p) /\ allowed (EvWrite p)) ->
  emits files allowed Base.transformCode.
Proof.
  intros Hfiles w Hw.
  change (Base.transformCode w)
    with (forEach (reactFiles (tool w)) Base.transformFile w).
  rewrite Hw. apply emits_forEach; [|exact Hw].
  intros p Hp. apply emits_transformFile; apply Hfiles, Hp.
Qed.

Lemma emits_updateTsConfig (p : path) :
  allowed (EvRead p) -> allowed (EvWrite p) ->
  emits files allowed (Base.updateTsConfig p).
Proof.
  intros Hr Hw. unfold Base.updateTsConfig.
  apply emits_try_catch; [|intros message; apply emits_pushIssue].
  apply emits_bind; [apply emits_readFileSync, Hr|]. intros text.
  apply emits_bind; [apply emits_getTool|]. intros t.
  destruct (tsconfig_rewrite _ text); [apply emits_throw|].
  apply emits_bind; [apply emits_when, emits_pushFix|]. intros _.
  apply emits_when, emits_writeFileSync, Hw.
Qed.

Lemma emits_updateJestConfig (p : path) :
  allowed (EvRead p) -> emits files allowed (Base.updateJestConfig p).
Proof.
  intros Hr. unfold Base.updateJestConfig.
  apply emits_try_catch; [|intros message; apply emits_pushIssue].
  apply emits_bind; [apply emits_readFileSync, Hr|]. intros content.
  apply emits_bind; [apply emits_getTool|]. intros t.
  apply emits_bind; [|intros _; apply emits_pushIssue].
  apply emits_when. apply emits_bind; [apply emits_when, emits_pushIssue|].
  intros _. apply emits_when, emits_pushIssue.
Qed.

Lemma emits_updateEslintConfig (p : path) :
  allowed (EvRead p) -> emits files allowed (Base.updateEslintConfig p).
Proof.
  intros Hr. unfold Base.updateEslintConfig.
  apply emits_try_catch; [|intros message; apply emits_pushIssue].
  apply emits_bind; [apply emits_readFileSync, Hr|]. intros content.
  apply emits_bind; [apply emits_getTool|]. intros t.
  destruct (negb (JS.includes content (u "react"))); [apply emits_pushIssue|].
  apply emits_bind; [apply emits_when, emits_pushIssue|]. intros _.
  apply emits_when, emits_pushIssue.
Qed.

Lemma emits_checkBabelConfig : emits files allowed Base.checkBabelConfig.
Proof.
  unfold Base.checkBabelConfig. apply emits_bind; [apply emits_world|].
  intros w. destruct (find _ _); [|apply emits_ret].
  apply emits_when, emits_pushIssue.
Qed.

Lemma emits_checkWebpackConfig : emits files allowed Base.checkWebpackConfig.
Proof.
  unfold Base.checkWebpackConfig. apply emits_bind; [apply emits_world|].
  intros w. destruct (find _ _); [|apply emits_ret].
  apply emits_bind; [apply emits_pushIssue|]. intros _.
  apply emits_when, emits_pushIssue.
Qed.

Lemma emits_updateConfiguration :
  (forall p, allowed (EvRead p)) ->
  allowed (EvWrite [u "tsconfig.json"]) ->
  emits files allowed Base.updateConfiguration.
Proof.
  intros Hr Hw. unfold Base.updateConfiguration.
  apply emits_bind; [apply emits_existsSync|]. intros hasTs.
  apply emits_bind; [apply emits_when, emits_updateTsConfig; auto|]. intros _.
  apply emits_bind; [apply emits_existsSync|]. intros hasJest.
  apply emits_bind; [apply emits_when, emits_updateJestConfig; auto|]. intros _.
  apply emits_bind; [apply emits_existsSync|]. intros hasEslint.
  apply emits_bind; [apply emits_when, emits_updateEslintConfig; auto|].
  intros _.
  apply emits_bind; [apply emits_checkBabelConfig|]. intros _.
  apply emits_checkWebpackConfig.
Qed.

End Events.

Section Analysis.
Context {E : Externals}.

(** [analyzeProject] reads the manifest and nothing else. *)
Lemma analyzeProject_trace (w : World) :
  exists reads,
    trace (snd (Base.analyzeProject w)) = trace w ++ reads
    /\ Forall (eq (EvRead Base.packageJsonPath)) reads.
Proof.
  assert (Forall (eq (EvRead Base.packageJsonPath)) [EvRead Base.packageJsonPath])
    as Hone by (repeat constructor).
  assert (exists reads, trace w = trace w ++ reads
                        /\ Forall (eq (EvRead Base.packageJsonPath)) reads)
    as Hnone by (exists []; rewrite app_nil_r; split; [reflexivity|constructor]).
  unfold Base.analyzeProject, Base.findReactFiles, Base.parsePackage. run_io.
  destruct (exists_path Base.packageJsonPath (fs w)); run_io; [|exact Hnone].
  destruct (read_file Base.packageJsonPath (fs w)) as [text|]; run_io; [|eauto].
  destruct (JSON_parse_package text) as [message|packageJson]; run_io; [eauto|].
  destruct (JS.truthy _); run_io; [|eauto].
  destruct (get_node [u "src"] (fs w)) as [[c|items]|]; run_io; eauto.
Qed.

End Analysis.

Section MigrateRuns.
Context {E : Externals}.

(** The source files that the analysis of a fresh tool object finds. *)
Lemma analysis_sourceFiles (target : jsstring) (o : MigrationOptions)
    (root : node) :
  uniqueNames root ->
  sourceFiles root
    (reactFiles
       (tool (snd (Base.analyzeProject
                     (mkWorld (configure target o newTool) root []))))).
Proof.
  intros Hu.
  destruct (analyzeProject_effects (mkWorld (configure target o newTool) root []))
    as (_ & _ & _ & _ & _ & Hfiles).
  cbn [fs tool configure reactFiles newTool] in Hfiles.
  destruct Hfiles as [->|(items & Hitems & ->)].
  - split; [constructor | intros p []].
  - apply discovered_sourceFiles; assumption.
Qed.




End MigrateRuns.



(** X6. With [skipDeps] a run of [migrate] on a fresh tool object leaves the
    content of the manifest as it was, writes no manifest and runs no
    command. *)
Theorem migrate_skipDeps_spares_manifest {E : Externals} (target : jsstring)
    (o : MigrationOptions) (root : node) :
  uniqueNames root ->
  skipDeps o = true ->
  let w' := snd (Base.migrate target o (Base.start root)) in
  read_file Base.packageJsonPath (fs w') = read_file Base.packageJsonPath root
  /\ Forall sparesManifest (trace w').
Proof.
  intros Hu Hskip w'. subst w'. split.
  - destruct (migrate_related target o root
                (fun files => [u "tsconfig.json"] :: files) Hu)
      as (files & (_ & Hfiles) & _ & Hrel).
    { intros files Hsrc.
      exact (steps_related_skipDeps root (withDryRun false o)
               (withDryRun true o) files o eq_refl eq_refl Hskip Hsrc). }
    rewrite <- (withDryRun_same o). destruct (dryRun o).
    + rewrite (rel_fs_dry _ _ _ _ _ _ _ Hrel). reflexivity.
    + apply (rel_read _ _ _ _ _ _ _ Hrel). intros [H|H]; [discriminate H|].
      destruct (Hfiles _ H) as (_ & rest & Hrest). discriminate Hrest.
  - rewrite migrate_run. unfold Base.start. cbn [tool fs trace].
    pose proof (analysis_sourceFiles target o root Hu) as (_ & Hfiles).
    destruct (analyzeProject_trace (mkWorld (configure target o newTool) root []))
      as (reads & Htr & Hreads).
    cbn [trace app] in Htr.
    assert (Forall sparesManifest reads) as Hreads'.
    { eapply Forall_impl; [exact Hreads|]. intros e <-. exact I. }
    destruct (Base.analyzeProject (mkWorld (configure target o newTool) root []))
      as [rA wA].
    cbn [fst snd] in *. destruct rA as [[]|message];
      [|cbn [snd]; rewrite Htr; exact Hreads'].
    rewrite Hskip. cbn [negb when].
    assert (emits (reactFiles (tool wA)) sparesManifest
              (bind (ret tt)
                 (fun _ => when (negb (depsOnly o))
                             (bind Base.transformCode
                                (fun _ => Base.updateConfiguration)))))
      as Hemits.
    { apply emits_bind; [apply emits_ret|]. intros _. apply emits_when.
      apply emits_bind.
      - apply emits_transformCode. intros p Hp.
        destruct (Hfiles _ Hp) as (_ & rest & ->).
        split; [exact I | discriminate].
      - intros _. apply emits_updateConfiguration;
          [intros p; exact I | discriminate]. }
    destruct (Hemits wA eq_refl) as (_ & l & Hl & Hall).
    destruct (bind (ret tt) _ wA) as [r w']. cbn [snd] in Hl.
    assert (Forall sparesManifest (trace w')) as Hdone.
    { rewrite Hl, Htr. apply Forall_app. auto. }
    destruct r as [[]|message]; exact Hdone.
Qed.


(** ** Examples on the project of the scenarios *)

Lemma uniqueNames_demoSources : uniqueNames (Dir demoSources).
Proof.
  unfold demoSources. cbn [uniqueNames map fst snd].
  repeat split; apply (bool_decide_unpack _); vm_compute; exact I.
Qed.

Lemma getReactFiles_characterised_witness :
  uniqueNames (Dir demoSources)
  /\ (In [u "src"; u "components"; u "Old.jsx"]
        (Base.getReactFiles [u "src"] (Dir demoSources))
      <-> exists rest c stem ext,
            [u "src"; u "components"; u "Old.jsx"] = [u "src"] ++ rest
            /\ read_file rest (Dir demoSources) = Some c
            /\ forallb searched (removelast rest) = true
            /\ basename rest = stem ++ ext
            /\ In ext reactExtensions).
Proof.
  assert (uniqueNames (Dir demoSources)) as unique
    by exact uniqueNames_demoSources.
  split; [exact unique|].
  exact (getReactFiles_characterised [u "src"] (Dir demoSources)
           [u "src"; u "components"; u "Old.jsx"] unique).
Defined.

Lemma resolveDependencyUpdates_idempotent_witness :
  In (u "18") supportedVersions
  /\ resolveDependencyUpdates (u "18")
       (resolveDependencyUpdates (u "18") manifestScenarioC)
     = resolveDependencyUpdates (u "18") manifestScenarioC.
Proof.
  assert (In (u "18") supportedVersions) as listed
    by (right; left; reflexivity).
  split; [exact listed|].
  exact (resolveDependencyUpdates_idempotent (u "18") manifestScenarioC listed).
Defined.



Lemma migrate_skipDeps_spares_manifest_witness :
  uniqueNames projectScenario
  /\ skipDeps skipDepsRun = true
  /\ (let w' := snd (Base.migrate (E := demoExternals) (u "18") skipDepsRun
                       (Base.start projectScenario)) in
      read_file Base.packageJsonPath (fs w')
        = read_file Base.packageJsonPath projectScenario
      /\ Forall sparesManifest (trace w')).
Proof.
  assert (uniqueNames projectScenario) as unique
    by exact uniqueNames_projectScenario.
  split; [exact unique|]. split; [reflexivity|].
  exact (migrate_skipDeps_spares_manifest (E := demoExternals) (u "18")
           skipDepsRun projectScenario unique eq_refl).
Defined.


(** ** The issue lines of the peer analysis *)

Section PeerLines.
Import Extended.
Context {E : Externals}.

Lemma peerConflicts_sound (w : World) (packageJson : PackageJson)
    (conflict : jsstring) :
  In conflict (peerConflicts (fs w) (targetVersion (tool w)) packageJson) ->
  reportsConflict w packageJson (u "  - " ++ conflict).
Proof.
  unfold peerConflicts. rewrite in_flat_map.
  intros ([pkg version] & Hin & Hc). cbn [fst] in Hc.
  destruct (isReactRelatedName pkg) eqn:Hrelated; [|destruct Hc].
  destruct (peerReactVersion (fs w) pkg) as [peer|] eqn:Hpeer; [|destruct Hc].
  destruct (isVersionCompatible (u "^" ++ targetVersion (tool w)) peer)
    eqn:Hcompat; [destruct Hc|].
  destruct Hc as [<-|[]]. exists pkg, peer.
  apply list_elem_of_In, elem_of_map_to_list in Hin.
  repeat split; try assumption. exists version. exact Hin.
Qed.

End PeerLines.

(** X8. The issue lines that [analyzePeerDependencies] adds are none at
    all, or the header followed by at least one line, each of which reports
    a dependency other than [react] and [react-dom] whose name contains
    [react] and whose installed copy declares a peer range on [react] that
    fails [isVersionCompatible] against the target range; the earlier issues
    are kept. *)
Theorem analyzePeerDependencies_lines {E : Externals} (w : World)
    (packageJson : PackageJson) :
  let w' := snd (Extended.analyzePeerDependencies packageJson w) in
  issues (tool w') = issues (tool w)
  \/ exists line lines,
       issues (tool w')
       = issues (tool w)
         ++ u "Peer dependency conflicts detected:" :: line :: lines
       /\ Forall (reportsConflict w packageJson) (line :: lines).
Proof.
  cbv zeta. unfold Extended.analyzePeerDependencies. cbn [snd tool].
  pose proof (peerConflicts_sound w packageJson) as Hsound.
  destruct (Extended.peerConflicts (fs w) (targetVersion (tool w)) packageJson)
    as [|c0 cs]; [left; reflexivity|].
  right. exists (u "  - " ++ c0), (map (fun c => u "  - " ++ c) cs).
  destruct (issues_fold_pushIssue (fun c => u "  - " ++ c) (c0 :: cs)
              (pushIssue (u "Peer dependency conflicts detected:") (tool w)))
    as (-> & _).
  cbn [issues pushIssue map]. rewrite <- app_assoc. split; [reflexivity|].
  change ((u "  - " ++ c0) :: map (fun c => u "  - " ++ c) cs)
    with (map (fun c => u "  - " ++ c) (c0 :: cs)).
  apply Forall_forall. intros line Hline.
  apply list_elem_of_In, in_map_iff in Hline as (c & <- & Hc).
  apply Hsound, Hc.
Qed.

(** ** What the lifecycle rule leaves behind *)

Section Substitution.
Import JS.

Lemma includes_cons (a : N) (s pat : jsstring) :
  includes (a :: s) pat = startsWith (a :: s) pat || includes s pat.
Proof. cbn [includes]. destruct (startsWith (a :: s) pat); reflexivity. Qed.

(** A regular expression [r] replaced everywhere by the text [c0 :: q'],
    and a literal [c0 :: l'] with no other [c0] in it. *)
Variables (r : regex) (c0 : N) (q' l' : jsstring).
Hypothesis l'_free : forallb (fun c => negb (N.eqb c c0)) l' = true.
Hypothesis block_free :
  forall y, includes ((c0 :: q') ++ y) (c0 :: l') = includes y (c0 :: l').

Lemma replace_from_prefix (w z s : jsstring) :
  forallb (fun c => negb (N.eqb c c0)) w = true ->
  lit_prefix w (replace_from r (Rules.const_repl (c0 :: q')) 0 s) = Some z ->
  exists s',
    lit_prefix w s = Some s'
    /\ z = replace_from r (Rules.const_repl (c0 :: q')) 0 s'.
Proof.
  revert s. induction w as [|b w IH]; intros s Hw.
  - cbn [lit_prefix]. intros [= <-]. exists s. auto.
  - cbn [forallb] in Hw. apply andb_true_iff in Hw as (Hb & Hw).
    apply negb_true_iff in Hb.
    destruct s as [|a s]; cbn [replace_from];
      destruct (exec_at r _) as [[m c]|]; unfold Rules.const_repl;
      cbn [app lit_prefix]; try discriminate;
      try (rewrite Hb; discriminate).
    destruct (N.eqb b a); [|discriminate]. apply IH, Hw.
Qed.

Lemma startsWith_copied (a : N) (s : jsstring) :
  startsWith (a :: replace_from r (Rules.const_repl (c0 :: q')) 0 s) (c0 :: l')
    = true ->
  startsWith (a :: s) (c0 :: l') = true.
Proof.
  unfold startsWith. cbn [lit_prefix]. destruct (N.eqb c0 a); [|discriminate].
  destruct (lit_prefix l' (replace_from _ _ 0 s)) as [z|] eqn:Hz; [|discriminate].
  apply (replace_from_prefix _ _ _ l'_free) in Hz as (s' & -> & _). reflexivity.
Qed.

(** The replacement creates no occurrence of the literal. *)
Lemma replace_from_creates_none (skip : nat) (s : jsstring) :
  includes (replace_from r (Rules.const_repl (c0 :: q')) skip s) (c0 :: l')
    = true ->
  includes s (c0 :: l') = true.
Proof.
  revert skip. induction s as [|a s IH]; intros skip.
  - destruct skip; cbn [replace_from]; [|intros H; exact H].
    destruct (exec_at r []) as [[m c]|]; [|intros H; exact H].
    unfold Rules.const_repl. rewrite block_free. intros H; exact H.
  - assert (includes (a :: replace_from r (Rules.const_repl (c0 :: q')) 0 s)
              (c0 :: l') = true ->
            includes (a :: s) (c0 :: l') = true) as Hcopy.
    { rewrite !includes_cons, !orb_true_iff. intros [H|H].
      - left. apply startsWith_copied, H.
      - right. apply (IH 0), H. }
    assert (forall n,
              includes (replace_from r (Rules.const_repl (c0 :: q')) n s)
                (c0 :: l') = true ->
              includes (a :: s) (c0 :: l') = true) as Hskip.
    { intros n H. rewrite includes_cons. apply (IH n) in H. rewrite H.
      apply orb_true_r. }
    destruct skip; cbn [replace_from]; [|apply Hskip].
    destruct (exec_at r (a :: s)) as [[m c]|]; [|exact Hcopy].
    unfold Rules.const_repl. rewrite block_free.
    destruct (length m); [exact Hcopy | apply Hskip].
Qed.

End Substitution.

Section LiteralRemoved.
Import JS.
Variables (c0 : N) (q' l' : jsstring).
Hypothesis l'_free : forallb (fun c => negb (N.eqb c c0)) l' = true.
Hypothesis block_free :
  forall y, includes ((c0 :: q') ++ y) (c0 :: l') = includes y (c0 :: l').

(** Replacing a literal everywhere leaves no occurrence of it. *)
Lemma replace_literal_removes (skip : nat) (s : jsstring) :
  includes (replace_from (Lit (c0 :: l')) (Rules.const_repl (c0 :: q')) skip s)
    (c0 :: l') = false.
Proof.
  revert skip. induction s as [|a s IH]; intros skip.
  - destruct skip; cbn [replace_from]; [|reflexivity].
    rewrite exec_at_Lit. reflexivity.
  - destruct skip; cbn [replace_from]; [|apply IH].
    rewrite exec_at_Lit.
    destruct (lit_prefix (c0 :: l') (a :: s)) as [z|] eqn:Hz.
    + unfold Rules.const_repl. rewrite block_free.
      apply lit_prefix_Some in Hz.
      assert (length (firstn (length (a :: s) - length z) (a :: s))
              = S (length l')) as Hlen.
      { apply (f_equal (@length N)) in Hz. cbn [length app] in Hz.
        rewrite length_app in Hz. rewrite length_take. cbn [length]. lia. }
      rewrite Hlen. apply IH.
    + rewrite includes_cons, IH, orb_false_r.
      destruct (startsWith (a :: replace_from _ _ 0 s) (c0 :: l')) eqn:Hs;
        [|reflexivity].
      apply (startsWith_copied _ c0 q' l' l'_free) in Hs.
      unfold startsWith in Hs. rewrite Hz in Hs. discriminate Hs.
Qed.

End LiteralRemoved.

Section LifecycleNames.
Import JS.

Lemma willMount_free :
  forallb (fun c => negb (N.eqb c 99)) (tl Rules.componentWillMount) = true.
Proof. reflexivity. Qed.

Lemma willUpdate_free :
  forallb (fun c => negb (N.eqb c 99)) (tl Rules.componentWillUpdate) = true.
Proof. reflexivity. Qed.

Lemma didMount_block (l y : jsstring) :
  l = Rules.componentWillMount \/ l = Rules.componentWillUpdate ->
  includes (u "componentDidMount" ++ y) l = includes y l.
Proof. intros [->| ->]; reflexivity. Qed.

Lemma didUpdate_block (l y : jsstring) :
  l = Rules.componentWillMount \/ l = Rules.componentWillUpdate ->
  includes (u "componentDidUpdate" ++ y) l = includes y l.
Proof. intros [->| ->]; reflexivity. Qed.

Lemma didUpdateProps_block (l y : jsstring) :
  l = Rules.componentWillMount \/ l = Rules.componentWillUpdate ->
  includes (u "componentDidUpdate(prevProps)" ++ y) l = includes y l.
Proof. intros [->| ->]; reflexivity. Qed.

(** None of the three substitutions of [transformLifecycleMethods] creates
    an occurrence of [componentWillMount] or [componentWillUpdate]. *)
Lemma lifecycle_step_creates_none (r : regex) (q l s : jsstring) :
  q = u "componentDidMount" \/ q = u "componentDidUpdate(prevProps)"
  \/ q = u "componentDidUpdate" ->
  l = Rules.componentWillMount \/ l = Rules.componentWillUpdate ->
  includes s l = false ->
  includes (replace_all r (Rules.const_repl q) s) l = false.
Proof.
  intros Hq Hl Hs.
  destruct (includes (replace_all r (Rules.const_repl q) s) l) eqn:Hout;
    [|reflexivity].
  rewrite <- Hs. symmetry. revert Hout. unfold replace_all.
  destruct Hq as [->|[->| ->]].
  - destruct Hl as [->| ->].
    + apply (replace_from_creates_none r 99 (tl (u "componentDidMount"))
               (tl Rules.componentWillMount) willMount_free).
      intros y. apply (didMount_block Rules.componentWillMount). auto.
    + apply (replace_from_creates_none r 99 (tl (u "componentDidMount"))
               (tl Rules.componentWillUpdate) willUpdate_free).
      intros y. apply (didMount_block Rules.componentWillUpdate). auto.
  - destruct Hl as [->| ->].
    + apply (replace_from_creates_none r 99
               (tl (u "componentDidUpdate(prevProps)"))
               (tl Rules.componentWillMount) willMount_free).
      intros y. apply (didUpdateProps_block Rules.componentWillMount). auto.
    + apply (replace_from_creates_none r 99
               (tl (u "componentDidUpdate(prevProps)"))
               (tl Rules.componentWillUpdate) willUpdate_free).
      intros y. apply (didUpdateProps_block Rules.componentWillUpdate). auto.
  - destruct Hl as [->| ->].
    + apply (replace_from_creates_none r 99 (tl (u "componentDidUpdate"))
               (tl Rules.componentWillMount) willMount_free).
      intros y. apply (didUpdate_block Rules.componentWillMount). auto.
    + apply (replace_from_creates_none r 99 (tl (u "componentDidUpdate"))
               (tl Rules.componentWillUpdate) willUpdate_free).
      intros y. apply (didUpdate_block Rules.componentWillUpdate). auto.
Qed.

Lemma willMount_removed (s : jsstring) :
  includes (replaceWillMount s) Rules.componentWillMount = false.
Proof.
  apply (replace_literal_removes 99 (tl (u "componentDidMount"))
           (tl Rules.componentWillMount) willMount_free).
  intros y. apply (didMount_block Rules.componentWillMount). auto.
Qed.

Lemma willUpdate_removed (s : jsstring) :
  includes (replaceWillUpdate s) Rules.componentWillUpdate = false.
Proof.
  apply (replace_literal_removes 99 (tl (u "componentDidUpdate"))
           (tl Rules.componentWillUpdate) willUpdate_free).
  intros y. apply (didUpdate_block Rules.componentWillUpdate). auto.
Qed.

End LifecycleNames.

(** X9. Whatever the content, the text that [transformLifecycleMethods]
    returns contains neither [componentWillMount] nor
    [componentWillUpdate]: every occurrence is replaced, and none of the
    three substitutions creates a new one. *)
Theorem lifecycle_names_removed (content fileName : jsstring) (t : Tool) :
  let transformed :=
    fst (Rules.transformLifecycleMethods content fileName t) in
  JS.includes transformed Rules.componentWillMount = false
  /\ JS.includes transformed Rules.componentWillUpdate = false.
Proof.
  cbv zeta. unfold Rules.transformLifecycleMethods.
  fold (replaceWillMount content).
  destruct (JS.includes content Rules.componentWillMount) eqn:H1.
  - pose proof (willMount_removed content) as Hm1.
    destruct (JS.includes content Rules.componentWillReceiveProps).
    + pose proof (lifecycle_step_creates_none Rules.receivePropsRegex
                    (u "componentDidUpdate(prevProps)") _ _
                    (or_intror (or_introl eq_refl)) (or_introl eq_refl) Hm1)
        as Hm2.
      destruct (JS.includes content Rules.componentWillUpdate) eqn:H3;
        cbn [fst].
      * split; [|apply willUpdate_removed].
        apply lifecycle_step_creates_none; auto.
      * split; [exact Hm2|].
        apply lifecycle_step_creates_none; auto.
        apply lifecycle_step_creates_none; auto.
    + destruct (JS.includes content Rules.componentWillUpdate) eqn:H3;
        cbn [fst].
      * split; [|apply willUpdate_removed].
        apply lifecycle_step_creates_none; auto.
      * split; [exact Hm1|].
        apply lifecycle_step_creates_none; auto.
  - destruct (JS.includes content Rules.componentWillReceiveProps).
    + destruct (JS.includes content Rules.componentWillUpdate) eqn:H3;
        cbn [fst].
      * split; [|apply willUpdate_removed].
        apply lifecycle_step_creates_none; auto.
        apply lifecycle_step_creates_none; auto.
      * split; apply lifecycle_step_creates_none; auto.
    + destruct (JS.includes content Rules.componentWillUpdate) eqn:H3;
        cbn [fst].
      * split; [|apply willUpdate_removed].
        apply lifecycle_step_creates_none; auto.
      * split; assumption.
Qed.

(** ** Backups *)

Section Trees.

Lemma get_node_app (p q : path) (n : node) :
  get_node (p ++ q) n =
    match get_node p n with
    | Some m => get_node q m
    | None => None
    end.
Proof.
  revert n. induction p as [|x p IH]; intros n; [reflexivity|].
  cbn [app get_node]. destruct n as [c|es]; [reflexivity|].
  destruct (lookup_entry x es); [apply IH | reflexivity].
Qed.

Lemma lookup_entry_app (x : jsstring) (es es' : list (jsstring * node)) :
  lookup_entry x (es ++ es') =
    match lookup_entry x es with
    | Some m => Some m
    | None => lookup_entry x es'
    end.
Proof.
  induction es as [|[y m] es IH]; [reflexivity|].
  cbn [app lookup_entry]. destruct (decide (y = x)); [reflexivity | exact IH].
Qed.

Lemma update_entry_ext (x : jsstring) (f g : node -> node)
    (es : list (jsstring * node)) (m : node) :
  lookup_entry x es = Some m -> f m = g m ->
  update_entry x f es = update_entry x g es.
Proof.
  induction es as [|[y m'] es IH]; cbn [lookup_entry update_entry];
    [discriminate|].
  destruct (decide (y = x)).
  - intros [= ->] ->. reflexivity.
  - intros Hm Hfg. rewrite (IH Hm Hfg). reflexivity.
Qed.

Lemma update_entry_twice (x : jsstring) (f g : node -> node)
    (es : list (jsstring * node)) :
  update_entry x f (update_entry x g es)
  = update_entry x (fun m => f (g m)) es.
Proof.
  induction es as [|[y m'] es IH]; [reflexivity|].
  cbn [update_entry]. destruct (decide (y = x)) as [Heq|Hne];
    cbn [update_entry].
  - rewrite decide_True by exact Heq. reflexivity.
  - rewrite decide_False by exact Hne. rewrite IH. reflexivity.
Qed.

Lemma update_entry_absent (x : jsstring) (f : node -> node)
    (es : list (jsstring * node)) :
  lookup_entry x es = None -> update_entry x f es = es.
Proof.
  induction es as [|[y m'] es IH]; [reflexivity|].
  cbn [lookup_entry update_entry]. destruct (decide (y = x)); [discriminate|].
  intros H. rewrite (IH H). reflexivity.
Qed.

Lemma update_entry_app_r (x : jsstring) (f : node -> node)
    (es es' : list (jsstring * node)) :
  lookup_entry x es = None ->
  update_entry x f (es ++ es') = es ++ update_entry x f es'.
Proof.
  induction es as [|[y m'] es IH]; [reflexivity|].
  cbn [lookup_entry update_entry app].
  destruct (decide (y = x)); [discriminate|].
  intros H. rewrite (IH H). reflexivity.
Qed.

Lemma get_node_replace_at (q : path) (new old n : node) :
  get_node q n = Some old -> get_node q (replace_at q new n) = Some new.
Proof.
  revert n. induction q as [|x q IH]; intros n; [reflexivity|].
  cbn [get_node replace_at]. destruct n as [c|es]; [discriminate|].
  destruct (lookup_entry x es) as [m|] eqn:Hm; [|discriminate].
  intros Hq. cbn [get_node]. rewrite lookup_update_entry.
  rewrite decide_True by reflexivity. rewrite Hm. cbn [option_map].
  apply IH, Hq.
Qed.

Lemma replace_at_twice (q : path) (new new' n : node) :
  replace_at q new' (replace_at q new n) = replace_at q new' n.
Proof.
  revert n. induction q as [|x q IH]; intros n; [reflexivity|].
  cbn [replace_at]. destruct n as [c|es]; [reflexivity|].
  cbn [replace_at]. rewrite update_entry_twice. f_equal.
  destruct (lookup_entry x es) as [m|] eqn:Hm.
  - apply (update_entry_ext _ _ _ _ m Hm). apply IH.
  - rewrite !update_entry_absent by exact Hm. reflexivity.
Qed.

Lemma replace_at_app (q p : path) (new n m : node) :
  get_node q n = Some m ->
  replace_at (q ++ p) new n = replace_at q (replace_at p new m) n.
Proof.
  revert n. induction q as [|x q IH]; intros n.
  - cbn [get_node app replace_at]. intros [= ->]. reflexivity.
  - cbn [get_node app replace_at]. destruct n as [c|es]; [discriminate|].
    destruct (lookup_entry x es) as [m1|] eqn:Hm1; [|discriminate].
    intros Hq. f_equal. apply (update_entry_ext _ _ _ _ m1 Hm1).
    apply IH, Hq.
Qed.

(** A change below one entry of the parent directory does not show below
    another entry. *)
Lemma get_node_replace_at_other (a b : jsstring) (p q : path) (new n : node) :
  a <> b ->
  get_node (a :: p) (replace_at (b :: q) new n) = get_node (a :: p) n.
Proof.
  intros Hab. destruct n as [c|es]; [reflexivity|].
  cbn [replace_at get_node]. rewrite lookup_update_entry.
  rewrite decide_False by exact Hab. reflexivity.
Qed.

Lemma mkdirp_fresh (q : path) (x : jsstring) (items : list (jsstring * node))
    (n : node) :
  get_node q n = Some (Dir items) ->
  lookup_entry x items = None ->
  Backup.mkdirp (q ++ [x]) n
  = inr (replace_at q (Dir (items ++ [(x, Dir [])])) n).
Proof.
  revert n. induction q as [|y q IH]; intros n.
  - cbn [get_node app]. intros [= ->] Hx. cbn [Backup.mkdirp replace_at].
    rewrite Hx. reflexivity.
  - cbn [get_node app]. destruct n as [c|es]; [discriminate|].
    destruct (lookup_entry y es) as [m|] eqn:Hm; [|discriminate].
    intros Hq Hx. cbn [Backup.mkdirp replace_at]. rewrite Hm.
    rewrite (IH m Hq Hx). f_equal. f_equal.
    apply (update_entry_ext _ _ _ _ m Hm). reflexivity.
Qed.

Lemma put_file_fresh (q : path) (x c : jsstring)
    (items : list (jsstring * node)) (n : node) :
  get_node q n = Some (Dir items) ->
  lookup_entry x items = None ->
  Backup.put_file (q ++ [x]) c n
  = inr (replace_at q (Dir (items ++ [(x, File c)])) n).
Proof.
  revert n. induction q as [|y q IH]; intros n.
  - cbn [get_node app]. intros [= ->] Hx. cbn [Backup.put_file replace_at].
    rewrite Hx. reflexivity.
  - cbn [get_node app]. destruct n as [c0|es]; [discriminate|].
    destruct (lookup_entry y es) as [m|] eqn:Hm; [|discriminate].
    intros Hq Hx. cbn [Backup.put_file replace_at]. rewrite Hm.
    rewrite (IH m Hq Hx). f_equal. f_equal.
    apply (update_entry_ext _ _ _ _ m Hm). reflexivity.
Qed.

Lemma height_entry (x : jsstring) (m : node) (es : list (jsstring * node)) :
  In (x, m) es -> S (height m) <= height (Dir es).
Proof.
  cbn [height]. induction es as [|[y m'] es IH]; [intros []|].
  cbn [fold_right snd]. intros [[= -> ->]|Hin]; [lia|].
  specialize (IH Hin). lia.
Qed.

Lemma imageEntries_names (x : jsstring) (es : list (jsstring * node)) :
  In x (map fst (imageEntries es)) ->
  In x (map fst es) /\ Backup.skipped x = false.
Proof.
  unfold imageEntries. rewrite in_map_iff.
  intros ([y m] & <- & Hin). apply in_flat_map in Hin as ([z m'] & Hin & Hy).
  cbn [fst snd] in *. destruct (Backup.skipped z) eqn:Hz; [destruct Hy|].
  destruct Hy as [[= <- <-]|[]]. split; [|exact Hz].
  apply in_map_iff. exists (z, m'). auto.
Qed.

End Trees.

Section Copy.
Variable errorMessage : Backup.fsFailure -> path -> jsstring.

Lemma update_entry_same (x : jsstring) (f : node -> node)
    (es : list (jsstring * node)) (m : node) :
  lookup_entry x es = Some m -> f m = m -> update_entry x f es = es.
Proof.
  induction es as [|[y m'] es IH]; cbn [lookup_entry update_entry];
    [discriminate|].
  destruct (decide (y = x)).
  - intros [= ->] ->. reflexivity.
  - intros Hm Hf. rewrite (IH Hm Hf). reflexivity.
Qed.

Lemma replace_at_same (q : path) (n m : node) :
  get_node q n = Some m -> replace_at q m n = n.
Proof.
  revert n. induction q as [|x q IH]; intros n.
  - cbn [get_node replace_at]. intros [= ->]. reflexivity.
  - cbn [get_node replace_at]. destruct n as [c|es]; [discriminate|].
    destruct (lookup_entry x es) as [m1|] eqn:Hm1; [|discriminate].
    intros Hq. f_equal. apply (update_entry_same _ _ _ m1 Hm1). apply IH, Hq.
Qed.

Lemma uniqueNames_entry (x : jsstring) (m : node)
    (es : list (jsstring * node)) :
  uniqueNames (Dir es) -> In (x, m) es ->
  uniqueNames m /\ lookup_entry x es = Some m.
Proof.
  intros Hu Hin. pose proof Hu as (Hnd & _).
  pose proof (In_lookup_entry _ _ _ Hnd Hin) as Hm.
  split; [|exact Hm]. exact (uniqueNames_lookup _ _ _ Hu Hm).
Qed.

Lemma imageEntries_cons_skipped (x : jsstring) (m : node)
    (es : list (jsstring * node)) :
  Backup.skipped x = true -> imageEntries ((x, m) :: es) = imageEntries es.
Proof. intros H. unfold imageEntries. cbn [flat_map fst]. rewrite H. reflexivity. Qed.

Lemma imageEntries_cons_kept (x : jsstring) (m : node)
    (es : list (jsstring * node)) :
  Backup.skipped x = false ->
  imageEntries ((x, m) :: es) = (x, backupImage m) :: imageEntries es.
Proof.
  intros H. unfold imageEntries. cbn [flat_map fst snd]. rewrite H. reflexivity.
Qed.

(** [copyDirectory] from below one entry of the parent directory to below
    another: the image of the source directory is added to the entries of
    the destination directory, when no name of the image is taken there
    yet. *)
Lemma copyDirectory_run (a b : jsstring) (fuel : nat) :
  a <> b ->
  forall (srcItems : list (jsstring * node)) (p q : path)
         (destItems : list (jsstring * node)) (n : node) (t : Tool)
         (tr : list event),
    get_node (a :: p) n = Some (Dir srcItems) ->
    get_node (b :: q) n = Some (Dir destItems) ->
    uniqueNames (Dir srcItems) ->
    height (Dir srcItems) <= fuel ->
    (forall x, In x (map fst (imageEntries srcItems)) ->
               lookup_entry x destItems = None) ->
    Backup.copyDirectory errorMessage fuel (a :: p) (b :: q) (mkWorld t n tr)
    = (Ok tt,
       mkWorld t
         (replace_at (b :: q) (Dir (destItems ++ imageEntries srcItems)) n) tr).
Proof.
  intros Hab. induction fuel as [|fuel IHfuel];
    intros srcItems p q destItems n t tr Hsrc Hdest Hu Hheight Hfresh.
  - cbn [height] in Hheight. lia.
  - cbn [Backup.copyDirectory]. unfold bind at 1. unfold Backup.readdir at 1.
    cbn [fs]. rewrite Hsrc.
    assert (forall x m, In (x, m) srcItems ->
              uniqueNames m /\ height m <= fuel
              /\ forall n' new,
                   get_node (a :: p ++ [x]) (replace_at (b :: q) new n')
                   = get_node (a :: p ++ [x]) n') as Hentries.
    { intros x m Hin. destruct (uniqueNames_entry _ _ _ Hu Hin) as (Hum & _).
      split; [exact Hum|]. split.
      - pose proof (height_entry _ _ _ Hin). lia.
      - intros n' new. apply get_node_replace_at_other, Hab. }
    assert (forall x m, In (x, m) srcItems ->
              get_node (a :: p ++ [x]) n = Some m) as Hread.
    { intros x m Hin. destruct (uniqueNames_entry _ _ _ Hu Hin) as (_ & Hm).
      change (a :: p ++ [x]) with ((a :: p) ++ [x]).
      rewrite get_node_app, Hsrc. cbn [get_node]. rewrite Hm. reflexivity. }
    assert (NoDup (map fst srcItems)) as Hnd by exact (proj1 Hu).
    clear Hsrc Hu Hheight.
    revert destItems n Hdest Hfresh Hread.
    induction srcItems as [|[x m] entries IH];
      intros destItems n Hdest Hfresh Hread.
    + cbn [forEach]. unfold ret. unfold imageEntries. cbn [flat_map].
      rewrite app_nil_r, (replace_at_same _ _ _ Hdest). reflexivity.
    + cbn [map fst] in Hnd. apply NoDup_cons in Hnd as (Hx & Hnd).
      rewrite list_elem_of_In in Hx.
      assert (forall y m', In (y, m') entries ->
                uniqueNames m' /\ height m' <= fuel
                /\ forall n' new,
                     get_node (a :: p ++ [y]) (replace_at (b :: q) new n')
                     = get_node (a :: p ++ [y]) n') as Hentries'.
      { intros y m' Hin. apply Hentries. right. exact Hin. }
      destruct (Hentries x m (or_introl eq_refl)) as (Hum & Hhm & _).
      pose proof (Hread x m (or_introl eq_refl)) as Hxm.
      cbn [forEach]. unfold bind at 1. cbn [fst snd].
      change ((a :: p) ++ [x]) with (a :: p ++ [x]).
      change ((b :: q) ++ [x]) with (b :: q ++ [x]).
      destruct (Backup.skipped x) eqn:Hskip.
      * unfold ret. rewrite (imageEntries_cons_skipped _ _ _ Hskip).
        apply (IH Hentries' Hnd); [exact Hdest | |].
        -- intros y Hy. apply Hfresh.
           rewrite (imageEntries_cons_skipped _ _ _ Hskip). exact Hy.
        -- intros y m' Hin. apply Hread. right. exact Hin.
      * rewrite (imageEntries_cons_kept _ _ _ Hskip) in Hfresh |- *.
        assert (lookup_entry x destItems = None) as Hxfresh
          by (apply Hfresh; left; reflexivity).
        assert (forall new,
                  replace_at (b :: q)
                    (Dir ((destItems ++ [(x, new)]) ++ imageEntries entries))
                    (replace_at (b :: q) (Dir (destItems ++ [(x, new)])) n)
                  = replace_at (b :: q)
                      (Dir (destItems ++ (x, new) :: imageEntries entries)) n)
          as Hdone.
        { intros new. rewrite replace_at_twice, <- app_assoc. reflexivity. }
        assert (forall new y,
                  In y (map fst (imageEntries entries)) ->
                  lookup_entry y (destItems ++ [(x, new)]) = None) as Hfresh'.
        { intros new y Hy. rewrite lookup_entry_app.
          rewrite (Hfresh y (or_intror Hy)). cbn [lookup_entry].
          rewrite decide_False; [reflexivity|]. intros <-.
          apply imageEntries_names in Hy as (Hy & _). exact (Hx Hy). }
        destruct m as [c|sub].
        -- unfold Backup.copyFile. cbn [fs]. rewrite Hxm.
           change (b :: q ++ [x]) with ((b :: q) ++ [x]).
           rewrite (put_file_fresh _ _ c _ _ Hdest Hxfresh).
           unfold Backup.setTree. cbn [tool trace backupImage].
           change ((b :: q) ++ [x]) with (b :: q ++ [x]).
           rewrite (IH Hentries' Hnd (destItems ++ [(x, File c)])).
           ++ rewrite Hdone. reflexivity.
           ++ eapply get_node_replace_at, Hdest.
           ++ apply Hfresh'.
           ++ intros y m' Hin.
              destruct (Hentries y m' (or_intror Hin)) as (_ & _ & ->).
              apply Hread. right. exact Hin.
        -- unfold bind at 1. unfold Backup.mkdir at 1. cbn [fs].
           change (b :: q ++ [x]) with ((b :: q) ++ [x]).
           rewrite (mkdirp_fresh _ _ _ _ Hdest Hxfresh).
           unfold Backup.setTree. cbn [tool trace].
           change ((b :: q) ++ [x]) with (b :: q ++ [x]).
           set (n1 := replace_at (b :: q) (Dir (destItems ++ [(x, Dir [])])) n).
           assert (get_node (b :: q) n1 = Some (Dir (destItems ++ [(x, Dir [])])))
             as Hdest1 by (eapply get_node_replace_at, Hdest).
           rewrite (IHfuel sub (p ++ [x]) (q ++ [x]) [] n1 t tr).
           ++ assert (replace_at (b :: q ++ [x]) (Dir ([] ++ imageEntries sub)) n1
                      = replace_at (b :: q)
                          (Dir (destItems ++ [(x, backupImage (Dir sub))])) n)
                as Hsub.
              { change (b :: q ++ [x]) with ((b :: q) ++ [x]).
                rewrite (replace_at_app _ _ _ _ _ Hdest1).
                unfold n1. rewrite replace_at_twice. cbn [replace_at app].
                rewrite (update_entry_app_r _ _ _ _ Hxfresh).
                cbn [update_entry]. rewrite decide_True by reflexivity.
                reflexivity. }
              rewrite Hsub.
              rewrite (IH Hentries' Hnd
                         (destItems ++ [(x, backupImage (Dir sub))])).
              ** rewrite replace_at_twice, <- app_assoc. reflexivity.
              ** eapply get_node_replace_at, Hdest.
              ** apply Hfresh'.
              ** intros y m' Hin.
                 destruct (Hentries y m' (or_intror Hin)) as (_ & _ & ->).
                 apply Hread. right. exact Hin.
           ++ unfold n1.
              destruct (Hentries x (Dir sub) (or_introl eq_refl))
                as (_ & _ & ->).
              exact Hxm.
           ++ change (b :: q ++ [x]) with ((b :: q) ++ [x]).
              rewrite get_node_app, Hdest1. cbn [get_node].
              rewrite lookup_entry_app, Hxfresh. cbn [lookup_entry].
              rewrite decide_True by reflexivity. reflexivity.
           ++ exact Hum.
           ++ exact Hhm.
           ++ intros y _. reflexivity.
Qed.

End Copy.

Section BackupRuns.
Variable errorMessage : Backup.fsFailure -> path -> jsstring.
Variable showPath : path -> jsstring.
Variable projectName : jsstring.

Lemma lookup_imageEntries (x : jsstring) (es : list (jsstring * node)) :
  Backup.skipped x = false ->
  lookup_entry x (imageEntries es) = option_map backupImage (lookup_entry x es).
Proof.
  intros Hx. induction es as [|[y m] es IH]; [reflexivity|].
  cbn [lookup_entry]. destruct (Backup.skipped y) eqn:Hy.
  - rewrite (imageEntries_cons_skipped _ _ _ Hy).
    rewrite decide_False by (intros ->; congruence). exact IH.
  - rewrite (imageEntries_cons_kept _ _ _ Hy). cbn [lookup_entry].
    destruct (decide (y = x)); [reflexivity | exact IH].
Qed.

Lemma get_node_backupImage (q : path) (n : node) :
  forallb (fun x => negb (Backup.skipped x)) q = true ->
  get_node q (backupImage n) = option_map backupImage (get_node q n).
Proof.
  revert n. induction q as [|x q IH]; intros n Hq; [reflexivity|].
  cbn [forallb] in Hq. apply andb_true_iff in Hq as (Hx & Hq).
  apply negb_true_iff in Hx.
  destruct n as [c|es]; [reflexivity|].
  cbn [backupImage get_node]. fold (imageEntries es).
  rewrite (lookup_imageEntries _ _ Hx).
  destruct (lookup_entry x es) as [m|]; [|reflexivity].
  cbn [option_map]. apply IH, Hq.
Qed.

(** A path that avoids the skipped names reads in the image as in the
    tree. *)
Lemma read_file_backupImage (q : path) (n : node) :
  forallb (fun x => negb (Backup.skipped x)) q = true ->
  read_file q (backupImage n) = read_file q n.
Proof.
  intros Hq. unfold read_file. rewrite (get_node_backupImage _ _ Hq).
  destruct (get_node q n) as [[c|es]|]; reflexivity.
Qed.

Lemma keptEntries_names (es : list (jsstring * node)) (x : jsstring) :
  Backup.skipped x = false -> lookup_entry x (keptEntries es) = None.
Proof.
  intros Hx. unfold keptEntries. induction es as [|[y m] es IH]; [reflexivity|].
  destruct (decide (y = u "node_modules")) as [->|Hy].
  - rewrite filter_cons_True by reflexivity. cbn [lookup_entry].
    rewrite decide_False; [exact IH|]. intros <-. discriminate Hx.
  - rewrite filter_cons_False by exact Hy. exact IH.
Qed.

Lemma remove_entry_app (x : jsstring) (m : node)
    (kept rest : list (jsstring * node)) :
  lookup_entry x kept = None ->
  Backup.remove_entry x (kept ++ (x, m) :: rest) = kept ++ rest.
Proof.
  induction kept as [|[y m'] kept IH]; cbn [lookup_entry app Backup.remove_entry].
  - intros _. rewrite decide_True by reflexivity. reflexivity.
  - destruct (decide (y = x)); [discriminate|]. intros H. rewrite (IH H).
    reflexivity.
Qed.

Lemma remove_at_child (x : jsstring) (items : list (jsstring * node))
    (n : node) :
  get_node [projectName] n = Some (Dir items) ->
  Backup.remove_at [projectName; x] n
  = replace_at [projectName] (Dir (Backup.remove_entry x items)) n.
Proof.
  cbn [get_node]. destruct n as [c|es]; [discriminate|].
  destruct (lookup_entry projectName es) as [m|] eqn:Hm; [|discriminate].
  intros [= ->]. cbn [Backup.remove_at replace_at]. f_equal.
  apply (update_entry_ext _ _ _ _ _ Hm). reflexivity.
Qed.

(** The first loop of [rollback]: every entry of the project directory goes
    but [node_modules]. *)
Lemma removal_run (entries kept : list (jsstring * node)) (n : node)
    (t : Tool) (tr : list event) :
  get_node [projectName] n = Some (Dir (kept ++ entries)) ->
  (forall x, x <> u "node_modules" -> lookup_entry x kept = None) ->
  forEach entries
    (fun entry : jsstring * node =>
       if negb (bool_decide (fst entry = u "node_modules")) then
         match snd entry with
         | Dir _ =>
             Backup.rm (Backup.projectRoot projectName ++ [fst entry])
         | File _ =>
             Backup.unlink errorMessage
               (Backup.projectRoot projectName ++ [fst entry])
         end
       else ret tt)
    (mkWorld t n tr)
  = (Ok tt,
     mkWorld t
       (replace_at [projectName] (Dir (kept ++ keptEntries entries)) n) tr).
Proof.
  set (body := fun entry : jsstring * node => _).
  revert kept n. induction entries as [|[x m] entries IH]; intros kept n Hn Hkept.
  - cbn [forEach]. unfold ret, keptEntries. rewrite filter_nil.
    rewrite (replace_at_same _ _ _ Hn). reflexivity.
  - cbn [forEach]. unfold bind at 1.
    destruct (decide (x = u "node_modules")) as [->|Hx].
    + assert (body (u "node_modules", m) (mkWorld t n tr)
              = (Ok tt, mkWorld t n tr)) as ->.
      { unfold body. cbn [fst snd].
        rewrite bool_decide_eq_true_2 by reflexivity. reflexivity. }
      unfold keptEntries. rewrite filter_cons_True by reflexivity.
      fold (keptEntries entries).
      replace (kept ++ (u "node_modules", m) :: keptEntries entries)
        with ((kept ++ [(u "node_modules", m)]) ++ keptEntries entries)
        by (rewrite <- app_assoc; reflexivity).
      apply IH.
      * rewrite <- app_assoc. exact Hn.
      * intros y Hy. rewrite lookup_entry_app, (Hkept y Hy). cbn [lookup_entry].
        rewrite decide_False by congruence. reflexivity.
    + pose proof (remove_at_child x _ n Hn) as Hremove.
      rewrite (remove_entry_app _ _ _ _ (Hkept x Hx)) in Hremove.
      assert (get_node [projectName; x] n = Some m) as Hxm.
      { change [projectName; x] with ([projectName] ++ [x]).
        rewrite get_node_app, Hn. cbn [get_node].
        rewrite lookup_entry_app, (Hkept x Hx). cbn [lookup_entry].
        rewrite decide_True by reflexivity. reflexivity. }
      assert (body (x, m) (mkWorld t n tr)
              = (Ok tt,
                 mkWorld t
                   (replace_at [projectName] (Dir (kept ++ entries)) n) tr))
        as ->.
      { unfold body. cbn [fst snd].
        rewrite bool_decide_eq_false_2 by exact Hx. cbn [negb].
        unfold Backup.projectRoot. cbn [app].
        destruct m as [c|sub].
        - unfold Backup.unlink. cbn [fs]. rewrite Hxm, Hremove. reflexivity.
        - unfold Backup.rm. cbn [fs]. rewrite Hremove. reflexivity. }
      unfold keptEntries. rewrite filter_cons_False by exact Hx.
      fold (keptEntries entries).
      rewrite (IH kept (replace_at [projectName] (Dir (kept ++ entries)) n)).
      * rewrite replace_at_twice. reflexivity.
      * eapply get_node_replace_at, Hn.
      * exact Hkept.
Qed.

End BackupRuns.

Lemma createBackup_run
    (errorMessage : Backup.fsFailure -> path -> jsstring)
    (projectName : jsstring) (fuel : nat) (now : jsstring)
    (es items : list (jsstring * node)) (t : Tool) (tr : list event) :
  uniqueNames (Dir items) ->
  lookup_entry projectName es = Some (Dir items) ->
  lookup_entry (Backup.backupIdAt now) es = None ->
  height (Dir items) <= fuel ->
  Backup.createBackup errorMessage projectName fuel now (mkWorld t (Dir es) tr)
  = (Ok tt,
     mkWorld (pushFix (u "Created backup: " ++ Backup.backupIdAt now) t)
       (Dir (es ++ [(Backup.backupIdAt now, backupImage (Dir items))])) tr).
Proof.
  intros Hu Hproject Hfresh Hheight.
  unfold Backup.createBackup, try_catch. unfold bind at 1.
  unfold Backup.mkdir at 1. cbn [fs].
  change [Backup.backupIdAt now] with ([] ++ [Backup.backupIdAt now]).
  rewrite (mkdirp_fresh [] _ es (Dir es) eq_refl Hfresh).
  unfold Backup.setTree. cbn [tool trace replace_at app].
  unfold bind at 1. unfold Backup.projectRoot.
  assert (projectName <> Backup.backupIdAt now) as Hne
    by (intros Heq; rewrite Heq in Hproject; congruence).
  rewrite (copyDirectory_run errorMessage projectName (Backup.backupIdAt now)
             fuel Hne items [] [] []).
  - unfold modifyTool. cbn [tool fs trace replace_at app].
    rewrite (update_entry_app_r _ _ _ _ Hfresh). cbn [update_entry].
    rewrite decide_True by reflexivity. reflexivity.
  - cbn [get_node]. rewrite lookup_entry_app, Hproject. reflexivity.
  - cbn [get_node]. rewrite lookup_entry_app, Hfresh. cbn [lookup_entry].
    rewrite decide_True by reflexivity. reflexivity.
  - exact Hu.
  - exact Hheight.
  - intros x _. reflexivity.
Qed.


Lemma rollback_run
    (errorMessage : Backup.fsFailure -> path -> jsstring)
    (showPath : path -> jsstring)
    (projectName : jsstring) (fuel : nat) (backupId : jsstring)
    (es current saved : list (jsstring * node)) (t : Tool)
    (tr : list event) :
  backupId <> projectName ->
  lookup_entry projectName es = Some (Dir current) ->
  lookup_entry backupId es = Some (Dir saved) ->
  uniqueNames (Dir saved) ->
  height (Dir saved) <= fuel ->
  Backup.rollback errorMessage showPath projectName fuel backupId
    (mkWorld t (Dir es) tr)
  = (Ok tt,
     mkWorld t
       (Dir (update_entry projectName
               (fun _ => Dir (keptEntries current ++ imageEntries saved)) es))
       tr).
Proof.
  intros Hne Hproject Hbackup Hu Hheight.
  unfold Backup.rollback. unfold bind at 1, existsSync, exists_path.
  cbn [fs get_node]. rewrite Hbackup. cbn [negb].
  unfold try_catch. unfold bind at 1. unfold Backup.readdir at 1.
  unfold Backup.projectRoot at 1. cbn [fs get_node]. rewrite Hproject.
  unfold bind at 1.
  rewrite (removal_run errorMessage projectName current [] (Dir es) t tr).
  - unfold Backup.projectRoot. cbn [app].
    set (n1 := replace_at [projectName] (Dir (keptEntries current)) (Dir es)).
    assert (get_node [projectName] n1 = Some (Dir (keptEntries current)))
      as Hn1.
    { eapply get_node_replace_at. cbn [get_node]. rewrite Hproject.
      reflexivity. }
    rewrite (copyDirectory_run errorMessage backupId projectName fuel Hne
               saved [] [] (keptEntries current) n1 t tr).
    + unfold n1. rewrite replace_at_twice. reflexivity.
    + unfold n1. rewrite get_node_replace_at_other by exact Hne.
      cbn [get_node]. rewrite Hbackup. reflexivity.
    + exact Hn1.
    + exact Hu.
    + exact Hheight.
    + intros x Hx. apply imageEntries_names in Hx as (_ & Hx).
      apply keptEntries_names, Hx.
  - cbn [get_node app]. rewrite Hproject. reflexivity.
  - intros x _. reflexivity.
Qed.

Lemma read_restored (q : path) (current saved : list (jsstring * node)) :
  forallb (fun x => negb (Backup.skipped x)) q = true ->
  read_file q (Dir (keptEntries current ++ imageEntries saved))
  = read_file q (Dir saved).
Proof.
  intros Hq. rewrite <- (read_file_backupImage q (Dir saved) Hq).
  destruct q as [|x q]; [reflexivity|].
  cbn [forallb] in Hq. apply andb_true_iff in Hq as (Hx & _).
  apply negb_true_iff in Hx.
  unfold read_file. cbn [get_node backupImage]. fold (imageEntries saved).
  rewrite lookup_entry_app, (keptEntries_names _ _ Hx). reflexivity.
Qed.

(** X10. When the parent directory holds no entry under the new backup id,
    [createBackup] ends normally: it adds that entry, whose content is the
    image of the project directory (every file and directory of the project
    but those named [node_modules] or [backup-...], at every level), leaves
    the project and every other entry as they were, and logs the fix
    [Created backup: <id>] and no issue.  A path that avoids the skipped
    names reads in the backup as in the project. *)
Theorem createBackup_makes_image
    (errorMessage : Backup.fsFailure -> path -> jsstring)
    (projectName : jsstring) (fuel : nat) (now : jsstring)
    (es items : list (jsstring * node)) (t : Tool) (tr : list event) :
  uniqueNames (Dir items) ->
  lookup_entry projectName es = Some (Dir items) ->
  lookup_entry (Backup.backupIdAt now) es = None ->
  height (Dir items) <= fuel ->
  Backup.createBackup errorMessage projectName fuel now (mkWorld t (Dir es) tr)
  = (Ok tt,
     mkWorld (pushFix (u "Created backup: " ++ Backup.backupIdAt now) t)
       (Dir (es ++ [(Backup.backupIdAt now, backupImage (Dir items))])) tr)
  /\ forall q,
       forallb (fun x => negb (Backup.skipped x)) q = true ->
       read_file q (backupImage (Dir items)) = read_file q (Dir items).
Proof.
  intros Hu Hproject Hfresh Hheight. split.
  - apply createBackup_run; assumption.
  - intros q Hq. apply read_file_backupImage, Hq.
Qed.

(** X11. When the parent directory holds the backup as a directory,
    [rollback] ends normally: the project directory then holds the
    [node_modules] entry it had, followed by the image of the backup, and
    every other entry of the parent directory is as it was.  A path that
    avoids the skipped names reads in the project as in the backup, so that
    after [createBackup] and any changes to the project, [rollback] brings
    back each file that was backed up. *)
Theorem rollback_restores
    (errorMessage : Backup.fsFailure -> path -> jsstring)
    (showPath : path -> jsstring)
    (projectName : jsstring) (fuel : nat) (backupId : jsstring)
    (es current saved : list (jsstring * node)) (t : Tool)
    (tr : list event) :
  backupId <> projectName ->
  lookup_entry projectName es = Some (Dir current) ->
  lookup_entry backupId es = Some (Dir saved) ->
  uniqueNames (Dir saved) ->
  height (Dir saved) <= fuel ->
  Backup.rollback errorMessage showPath projectName fuel backupId
    (mkWorld t (Dir es) tr)
  = (Ok tt,
     mkWorld t
       (Dir (update_entry projectName
               (fun _ => Dir (keptEntries current ++ imageEntries saved)) es))
       tr)
  /\ forall q,
       forallb (fun x => negb (Backup.skipped x)) q = true ->
       read_file q (Dir (keptEntries current ++ imageEntries saved))
       = read_file q (Dir saved).
Proof.
  intros Hne Hproject Hbackup Hu Hheight. split.
  - apply rollback_run; assumption.
  - intros q Hq. apply read_restored, Hq.
Qed.

Section RoundTrip.

Lemma uniqueNames_Dir (es : list (jsstring * node)) :
  uniqueNames (Dir es)
  <-> NoDup (map fst es) /\ Forall (fun e => uniqueNames (snd e)) es.
Proof.
  cbn [uniqueNames]. split; intros (Hnd & Hall); (split; [exact Hnd|]);
    clear Hnd; induction es as [|e es IH].
  - constructor.
  - destruct Hall as (He & Hall). constructor; [exact He | apply IH, Hall].
  - exact I.
  - apply Forall_cons in Hall as (He & Hall). split; [exact He | apply IH, Hall].
Qed.

Lemma uniqueNames_backupImage (n : node) :
  uniqueNames n -> uniqueNames (backupImage n).
Proof.
  induction n as [c|es IH] using node_induction; [intros _; exact I|].
  rewrite uniqueNames_Dir. intros (Hnd & Hall).
  cbn [backupImage]. fold (imageEntries es). apply uniqueNames_Dir.
  induction es as [|[x m] es IHes]; [split; constructor|].
  cbn [map fst] in Hnd. apply NoDup_cons in Hnd as (Hx & Hnd).
  apply Forall_cons in Hall as (Hm & Hall).
  apply Forall_cons in IH as (IHm & IH). cbn [snd] in *.
  destruct (IHes IH Hnd Hall) as (Hnd' & Hall').
  destruct (Backup.skipped x) eqn:Hskip.
  - rewrite (imageEntries_cons_skipped _ _ _ Hskip). auto.
  - rewrite (imageEntries_cons_kept _ _ _ Hskip). cbn [map fst]. split.
    + apply NoDup_cons. split; [|exact Hnd'].
      rewrite list_elem_of_In. intros Hin.
      apply imageEntries_names in Hin as (Hin & _).
      apply Hx, list_elem_of_In, Hin.
    + constructor; [apply IHm, Hm | exact Hall'].
Qed.

Lemma height_backupImage (n : node) : height (backupImage n) <= height n.
Proof.
  induction n as [c|es IH] using node_induction; [reflexivity|].
  cbn [backupImage height]. apply le_n_S.
  induction es as [|[x m] es IHes]; [reflexivity|].
  apply Forall_cons in IH as (IHm & IH). cbn [snd] in IHm.
  specialize (IHes IH). cbn [flat_map fst snd fold_right].
  destruct (Backup.skipped x); cbn [app fold_right snd]; lia.
Qed.

Lemma read_file_cons (x : jsstring) (q : path) (es : list (jsstring * node)) :
  read_file (x :: q) (Dir es) =
    match lookup_entry x es with
    | Some m => read_file q m
    | None => None
    end.
Proof.
  unfold read_file. cbn [get_node]. destruct (lookup_entry x es); reflexivity.
Qed.

End RoundTrip.

(** X12. A backup made by [createBackup] under a new id, then any change
    to the content of the project directory, then [rollback] to that id:
    the rollback ends normally, and every path of the project that avoids
    the names [node_modules] and [backup-...] reads as it did when the
    backup was made. *)
Theorem backup_then_rollback
    (errorMessage : Backup.fsFailure -> path -> jsstring)
    (showPath : path -> jsstring)
    (projectName : jsstring) (fuel : nat) (now : jsstring)
    (es items current : list (jsstring * node)) (t : Tool)
    (tr : list event) :
  uniqueNames (Dir items) ->
  lookup_entry projectName es = Some (Dir items) ->
  lookup_entry (Backup.backupIdAt now) es = None ->
  height (Dir items) <= fuel ->
  let w1 :=
    snd (Backup.createBackup errorMessage projectName fuel now
           (mkWorld t (Dir es) tr)) in
  let w2 :=
    mkWorld (tool w1) (replace_at [projectName] (Dir current) (fs w1))
      (trace w1) in
  let r :=
    Backup.rollback errorMessage showPath projectName fuel
      (Backup.backupIdAt now) w2 in
  fst r = Ok tt
  /\ forall q,
       forallb (fun x => negb (Backup.skipped x)) q = true ->
       read_file (projectName :: q) (fs (snd r)) = read_file q (Dir items).
Proof.
  intros Hu Hproject Hfresh Hheight. cbv zeta.
  rewrite (createBackup_run _ _ _ _ _ _ _ _ Hu Hproject Hfresh Hheight).
  cbn [snd tool fs trace replace_at].
  assert (Backup.backupIdAt now <> projectName) as Hne
    by (intros Heq; rewrite Heq in Hfresh; congruence).
  rewrite (rollback_run errorMessage showPath projectName fuel
             (Backup.backupIdAt now) _ current (imageEntries items)).
  - split; [reflexivity|]. intros q Hq. cbn [snd fs].
    rewrite read_file_cons, !lookup_update_entry.
    rewrite !decide_True by reflexivity.
    rewrite lookup_entry_app, Hproject. cbn [option_map].
    rewrite (read_restored q current (imageEntries items) Hq).
    exact (read_file_backupImage q (Dir items) Hq).
  - exact Hne.
  - rewrite lookup_update_entry, decide_True by reflexivity.
    rewrite lookup_entry_app, Hproject. reflexivity.
  - rewrite lookup_update_entry, decide_False by exact Hne.
    rewrite lookup_entry_app, Hfresh. cbn [lookup_entry].
    rewrite decide_True by reflexivity. reflexivity.
  - exact (uniqueNames_backupImage (Dir items) Hu).
  - pose proof (height_backupImage (Dir items)) as H. cbn [backupImage] in H.
    unfold imageEntries. lia.
Qed.

Lemma uniqueNames_demoProjectEntries : uniqueNames (Dir demoProjectEntries).
Proof.
  unfold demoProjectEntries, demoSources. cbn [uniqueNames map fst snd].
  repeat split; apply (bool_decide_unpack _); vm_compute; exact I.
Qed.

Lemma createBackup_makes_image_witness :
  uniqueNames (Dir demoProjectEntries)
  /\ lookup_entry (u "app") demoParentEntries = Some (Dir demoProjectEntries)
  /\ lookup_entry (Backup.backupIdAt demoNow) demoParentEntries = None
  /\ height (Dir demoProjectEntries) <= 4
  /\ Backup.createBackup demoErrorMessage (u "app") 4 demoNow
       (mkWorld newTool (Dir demoParentEntries) [])
     = (Ok tt,
        mkWorld
          (pushFix (u "Created backup: " ++ Backup.backupIdAt demoNow) newTool)
          (Dir (demoParentEntries
                ++ [(Backup.backupIdAt demoNow,
                     backupImage (Dir demoProjectEntries))])) [])
  /\ forall q,
       forallb (fun x => negb (Backup.skipped x)) q = true ->
       read_file q (backupImage (Dir demoProjectEntries))
       = read_file q (Dir demoProjectEntries).
Proof.
  assert (uniqueNames (Dir demoProjectEntries)) as unique
    by exact uniqueNames_demoProjectEntries.
  assert (lookup_entry (u "app") demoParentEntries
          = Some (Dir demoProjectEntries)) as project
    by (vm_compute; reflexivity).
  assert (lookup_entry (Backup.backupIdAt demoNow) demoParentEntries = None)
    as fresh by (vm_compute; reflexivity).
  assert (height (Dir demoProjectEntries) <= 4) as bounded
    by (vm_compute; lia).
  split; [exact unique|]. split; [exact project|]. split; [exact fresh|].
  split; [exact bounded|].
  exact (createBackup_makes_image demoErrorMessage (u "app") 4 demoNow
           demoParentEntries demoProjectEntries newTool [] unique project
           fresh bounded).
Defined.

Lemma uniqueNames_demoImage : uniqueNames (Dir (imageEntries demoProjectEntries)).
Proof.
  exact (uniqueNames_backupImage (Dir demoProjectEntries)
           uniqueNames_demoProjectEntries).
Qed.

Lemma rollback_restores_witness :
  u "backup-old" <> u "app"
  /\ lookup_entry (u "app") demoChangedParentEntries
     = Some (Dir [ (u "node_modules", Dir []);
                   (u "README.md", File (u "changed")) ])
  /\ lookup_entry (u "backup-old") demoChangedParentEntries
     = Some (Dir (imageEntries demoProjectEntries))
  /\ uniqueNames (Dir (imageEntries demoProjectEntries))
  /\ height (Dir (imageEntries demoProjectEntries)) <= 4
  /\ Backup.rollback demoErrorMessage demoShowPath (u "app") 4 (u "backup-old")
       (mkWorld newTool (Dir demoChangedParentEntries) [])
     = (Ok tt,
        mkWorld newTool
          (Dir (update_entry (u "app")
                  (fun _ =>
                     Dir (keptEntries [ (u "node_modules", Dir []);
                                        (u "README.md", File (u "changed")) ]
                          ++ imageEntries (imageEntries demoProjectEntries)))
                  demoChangedParentEntries))
          [])
  /\ forall q,
       forallb (fun x => negb (Backup.skipped x)) q = true ->
       read_file q
         (Dir (keptEntries [ (u "node_modules", Dir []);
                             (u "README.md", File (u "changed")) ]
               ++ imageEntries (imageEntries demoProjectEntries)))
       = read_file q (Dir (imageEntries demoProjectEntries)).
Proof.
  assert (u "backup-old" <> u "app") as distinct by discriminate.
  assert (lookup_entry (u "app") demoChangedParentEntries
          = Some (Dir [ (u "node_modules", Dir []);
                        (u "README.md", File (u "changed")) ])) as project
    by reflexivity.
  assert (lookup_entry (u "backup-old") demoChangedParentEntries
          = Some (Dir (imageEntries demoProjectEntries))) as backup
    by reflexivity.
  assert (uniqueNames (Dir (imageEntries demoProjectEntries))) as unique
    by exact uniqueNames_demoImage.
  assert (height (Dir (imageEntries demoProjectEntries)) <= 4) as bounded
    by (vm_compute; lia).
  split; [exact distinct|]. split; [exact project|]. split; [exact backup|].
  split; [exact unique|]. split; [exact bounded|].
  exact (rollback_restores demoErrorMessage demoShowPath (u "app") 4
           (u "backup-old") demoChangedParentEntries _ _ newTool []
           distinct project backup unique bounded).
Defined.

Lemma backup_then_rollback_witness :
  uniqueNames (Dir demoProjectEntries)
  /\ lookup_entry (u "app") demoParentEntries = Some (Dir demoProjectEntries)
  /\ lookup_entry (Backup.backupIdAt demoNow) demoParentEntries = None
  /\ height (Dir demoProjectEntries) <= 4
  /\ (let w1 :=
        snd (Backup.createBackup demoErrorMessage (u "app") 4 demoNow
               (mkWorld newTool (Dir demoParentEntries) [])) in
      let w2 :=
        mkWorld (tool w1)
          (replace_at [u "app"] (Dir [ (u "README.md", File (u "changed")) ])
             (fs w1))
          (trace w1) in
      let r :=
        Backup.rollback demoErrorMessage demoShowPath (u "app") 4
          (Backup.backupIdAt demoNow) w2 in
      fst r = Ok tt
      /\ forall q,
           forallb (fun x => negb (Backup.skipped x)) q = true ->
           read_file (u "app" :: q) (fs (snd r))
           = read_file q (Dir demoProjectEntries)).
Proof.
  assert (uniqueNames (Dir demoProjectEntries)) as unique
    by exact uniqueNames_demoProjectEntries.
  assert (lookup_entry (u "app") demoParentEntries
          = Some (Dir demoProjectEntries)) as project
    by (vm_compute; reflexivity).
  assert (lookup_entry (Backup.backupIdAt demoNow) demoParentEntries = None)
    as fresh by (vm_compute; reflexivity).
  assert (height (Dir demoProjectEntries) <= 4) as bounded
    by (vm_compute; lia).
  split; [exact unique|]. split; [exact project|]. split; [exact fresh|].
  split; [exact bounded|].
  exact (backup_then_rollback demoErrorMessage demoShowPath (u "app") 4 demoNow
           demoParentEntries demoProjectEntries
           [ (u "README.md", File (u "changed")) ] newTool [] unique project
           fresh bounded).
Defined.

(** ** The choice of the files to transform *)

Section SelectionFacts.
Import JS.






Variables (projectRootText sep : jsstring).



End SelectionFacts.



(** ** Class components *)

Section Through.
Import JS.

(** A successful match goes through its continuation, on a suffix of the
    text. *)
Lemma star_greedy_through {X : Type} (p : N -> bool) (s : jsstring)
    (k : jsstring -> option X) (x : X) :
  star_greedy p s k = Some x ->
  exists front s', s = front ++ s' /\ k s' = Some x.
Proof.
  induction s as [|a s IH]; cbn [star_greedy].
  - intros H. exists [], []. auto.
  - destruct (p a).
    + destruct (star_greedy p s k) as [y|] eqn:Hy.
      * intros [= ->]. destruct (IH eq_refl) as (front & s' & -> & Hk).
        exists (a :: front), s'. auto.
      * intros H. exists [], (a :: s). auto.
    + intros H. exists [], (a :: s). auto.
Qed.

(** A lazy star stops at the first place where the rest matches. *)
Lemma star_lazy_first {X : Type} (p : N -> bool) (s : jsstring)
    (k : jsstring -> option X) (x : X) :
  star_lazy p s k = Some x ->
  exists front s',
    s = front ++ s' /\ k s' = Some x
    /\ forall front1 c front2,
         front = front1 ++ c :: front2 -> k (c :: front2 ++ s') = None.
Proof.
  induction s as [|a s IH]; cbn [star_lazy].
  - destruct (k []) as [y|] eqn:Hy; [|discriminate].
    intros [= ->]. exists [], []. repeat split; auto.
    intros [|? ?] ? ? H; discriminate H.
  - destruct (k (a :: s)) as [y|] eqn:Hy.
    + intros [= ->]. exists [], (a :: s). repeat split; auto.
      intros [|? ?] ? ? H; discriminate H.
    + destruct (p a); [|discriminate]. intros H.
      destruct (IH H) as (front & s' & -> & Hk & Hfirst).
      exists (a :: front), s'. repeat split; auto.
      intros [|b front1] c front2 Heq.
      * injection Heq as <- <-. exact Hy.
      * injection Heq as _ Heq. apply (Hfirst _ _ _ Heq).
Qed.

Lemma rep_through {X : Type} (q : quant) (g : bool) (p : N -> bool)
    (s : jsstring) (k : jsstring -> option X) (x : X) :
  rep q g p s k = Some x ->
  exists front s', s = front ++ s' /\ k s' = Some x.
Proof.
  assert (forall s0, star g p s0 k = Some x ->
            exists front s', s0 = front ++ s' /\ k s' = Some x) as Hstar.
  { intros s0. destruct g; cbn [star].
    - apply star_greedy_through.
    - intros H. apply star_lazy_first in H as (front & s' & Hs & Hk & _).
      eauto. }
  destruct q; cbn [rep].
  - apply Hstar.
  - destruct s as [|a s]; [discriminate|]. destruct (p a); [|discriminate].
    intros H. apply Hstar in H as (front & s' & -> & Hk).
    exists (a :: front), s'. auto.
  - destruct s as [|a s]; [intros H; exists [], []; auto|].
    destruct (p a).
    + destruct g.
      * destruct (k s) as [y|] eqn:Hy.
        -- intros [= ->]. exists [a], s. auto.
        -- intros H. exists [], (a :: s). auto.
      * destruct (k (a :: s)) as [y|] eqn:Hy.
        -- intros [= ->]. exists [], (a :: s). auto.
        -- intros H. exists [a], s. auto.
    + intros H. exists [], (a :: s). auto.
Qed.

Lemma rmatch_through {X : Type} (r : regex) :
  forall (s : jsstring) (c : caps) (k : jsstring -> caps -> option X) (x : X),
    rmatch r s c k = Some x ->
    exists front s' c', s = front ++ s' /\ k s' c' = Some x.
Proof.
  induction r as [l|p|q g p|a IHa b IHb|a IHa b IHb|n a IHa|];
    intros s c k x; cbn [rmatch].
  - destruct (lit_prefix l s) as [s'|] eqn:Hs; [|discriminate].
    apply lit_prefix_Some in Hs. intros H. exists l, s', c. auto.
  - destruct s as [|a s]; [discriminate|]. destruct (p a); [|discriminate].
    intros H. exists [a], s, c. auto.
  - intros H. apply rep_through in H as (front & s' & Hs & Hk).
    exists front, s', c. auto.
  - intros H. apply IHa in H as (front & s1 & c1 & -> & H).
    apply IHb in H as (front' & s2 & c2 & -> & H).
    exists (front ++ front'), s2, c2. rewrite <- app_assoc. auto.
  - destruct (rmatch a s c k) as [y|] eqn:Hy.
    + intros [= ->]. apply IHa in Hy. exact Hy.
    + apply IHb.
  - intros H. apply IHa in H as (front & s' & c' & Hs & H). eauto.
  - destruct s as [|a s]; [|discriminate]. intros H. exists [], [], c. auto.
Qed.

Lemma test_true_suffix (r : regex) (s : jsstring) :
  test r s = true ->
  exists front s' found, s = front ++ s' /\ exec_at r s' = Some found.
Proof.
  induction s as [|a s IH]; cbn [test].
  - destruct (exec_at r []) as [found|] eqn:H; [|discriminate].
    intros _. exists [], [], found. auto.
  - destruct (exec_at r (a :: s)) as [found|] eqn:H.
    + intros _. exists [], (a :: s), found. auto.
    + intros Ht. destruct (IH Ht) as (front & s' & found & -> & Hf).
      exists (a :: front), s', found. auto.
Qed.

End Through.

Section ClassBody.
Import JS.

Lemma closing_brace_app (a b : jsstring) :
  existsb (N.eqb 125) (a ++ b) = existsb (N.eqb 125) a || existsb (N.eqb 125) b.
Proof. apply existsb_app. Qed.

(** A match of [stateRegex] holds a closing brace. *)
Lemma stateRegex_needs_brace (s : jsstring) :
  existsb (N.eqb 125) s = false -> test ClassRule.stateRegex s = false.
Proof.
  intros Hs. destruct (test ClassRule.stateRegex s) eqn:Ht; [|reflexivity].
  exfalso. apply test_true_suffix in Ht as (front & s' & found & -> & Hf).
  rewrite closing_brace_app in Hs. apply orb_false_iff in Hs as (_ & Hs).
  revert Hf. unfold exec_at, ClassRule.stateRegex. cbn [Rules.cat rmatch].
  intros H.
  destruct (lit_prefix (u "this.state") s') as [s1|] eqn:H1; [|discriminate].
  apply lit_prefix_Some in H1. subst s'.
  rewrite closing_brace_app in Hs. apply orb_false_iff in Hs as (_ & Hs).
  apply rep_through in H as (f1 & s2 & -> & H).
  rewrite closing_brace_app in Hs. apply orb_false_iff in Hs as (_ & Hs).
  destruct (lit_prefix (u "=") s2) as [s3|] eqn:H3; [|discriminate].
  apply lit_prefix_Some in H3. subst s2.
  rewrite closing_brace_app in Hs. apply orb_false_iff in Hs as (_ & Hs).
  apply rep_through in H as (f2 & s4 & -> & H).
  rewrite closing_brace_app in Hs. apply orb_false_iff in Hs as (_ & Hs).
  destruct (lit_prefix (u "{") s4) as [s5|] eqn:H5; [|discriminate].
  apply lit_prefix_Some in H5. subst s4.
  rewrite closing_brace_app in Hs. apply orb_false_iff in Hs as (_ & Hs).
  apply rep_through in H as (f3 & s6 & -> & H).
  rewrite closing_brace_app in Hs. apply orb_false_iff in Hs as (_ & Hs).
  destruct (lit_prefix (u "}") s6) as [s7|] eqn:H7; [|discriminate].
  apply lit_prefix_Some in H7. subst s6. discriminate Hs.
Qed.

(** The class body that [classComponentRegex] captures ends before the
    first closing brace. *)
Lemma class_body_cut (s m : jsstring) (c : caps) :
  exec_at ClassRule.classComponentRegex s = Some (m, c) ->
  existsb (N.eqb 125) (cap 2 c) = false.
Proof.
  unfold exec_at, ClassRule.classComponentRegex. cbn [Rules.cat rmatch].
  intros H.
  do 9 (first
          [ match type of H with
            | match lit_prefix ?l ?t with _ => _ end = _ =>
                destruct (lit_prefix l t); [|discriminate H]
            end
          | apply rep_through in H as (? & ? & _ & H) ]).
  cbn [rep star] in H.
  apply star_lazy_first in H as (body & rest & Hs & Hk & Hfirst).
  subst. destruct (lit_prefix (u "}") rest) as [rest'|] eqn:Hrest;
    [|discriminate].
  injection Hk as _ <-. unfold cap. cbn [find fst snd Nat.eqb].
  rewrite length_app, Nat.add_sub, firstn_app, Nat.sub_diag, firstn_all.
  cbn [firstn]. rewrite app_nil_r.
  destruct (existsb (N.eqb 125) body) eqn:Hbody; [|reflexivity].
  exfalso. apply existsb_exists in Hbody as (b & Hin & Hb).
  apply N.eqb_eq in Hb. subst b.
  apply in_split in Hin as (front1 & front2 & ->).
  specialize (Hfirst front1 125%N front2 eq_refl).
  cbn [lit_prefix] in Hfirst. discriminate Hfirst.
Qed.

End ClassBody.

(** X14. Every match of [classComponentRegex] stops at the first closing
    brace after the opening brace of the class: the class body that the
    replacement function receives holds no closing brace, and so the
    conversion of [this.state = {...}] to [useState], which needs one, never
    applies to it; the function that replaces the class is made from the
    other three substitutions alone. *)
Theorem class_body_stops_at_first_brace (s m : jsstring) (c : JS.caps) :
  JS.exec_at ClassRule.classComponentRegex s = Some (m, c) ->
  existsb (N.eqb 125) (JS.cap 2 c) = false
  /\ JS.replace_all ClassRule.stateRegex ClassRule.useStateCall (JS.cap 2 c)
     = JS.cap 2 c
  /\ ClassRule.functionalComponent m c
     = u "const " ++ JS.cap 1 c ++ u " = (props) => {" ++ LF ++
       u "  " ++
       JS.replace_all ClassRule.renderRegex ClassRule.returnStatement
         (JS.replace_all ClassRule.propsRegex (Rules.const_repl (u "props."))
            (JS.replace_all ClassRule.setStateRegex
               (Rules.const_repl (u "setState(")) (JS.cap 2 c))) ++
       LF ++ u "};".
Proof.
  intros Hmatch. pose proof (class_body_cut s m c Hmatch) as Hbody.
  assert (JS.replace_all ClassRule.stateRegex ClassRule.useStateCall
            (JS.cap 2 c) = JS.cap 2 c) as Hstate
    by (apply replace_all_no_match, stateRegex_needs_brace, Hbody).
  split; [exact Hbody|]. split; [exact Hstate|].
  unfold ClassRule.functionalComponent, ClassRule.functionalBody.
  rewrite Hstate. reflexivity.
Qed.

Lemma class_body_stops_at_first_brace_witness :
  JS.exec_at ClassRule.classComponentRegex demoClass
    = Some (fst demoClassMatch, snd demoClassMatch)
  /\ existsb (N.eqb 125) (JS.cap 2 (snd demoClassMatch)) = false
  /\ JS.replace_all ClassRule.stateRegex ClassRule.useStateCall
       (JS.cap 2 (snd demoClassMatch))
     = JS.cap 2 (snd demoClassMatch)
  /\ ClassRule.functionalComponent (fst demoClassMatch) (snd demoClassMatch)
     = u "const " ++ JS.cap 1 (snd demoClassMatch) ++ u " = (props) => {" ++
       LF ++ u "  " ++
       JS.replace_all ClassRule.renderRegex ClassRule.returnStatement
         (JS.replace_all ClassRule.propsRegex (Rules.const_repl (u "props."))
            (JS.replace_all ClassRule.setStateRegex
               (Rules.const_repl (u "setState("))
               (JS.cap 2 (snd demoClassMatch)))) ++
       LF ++ u "};".
Proof.
  assert (JS.exec_at ClassRule.classComponentRegex demoClass
          = Some (fst demoClassMatch, snd demoClassMatch)) as found
    by (vm_compute; reflexivity).
  split; [exact found|].
  exact (class_body_stops_at_first_brace demoClass (fst demoClassMatch)
           (snd demoClassMatch) found).
Defined.

(** ** The import that the type-declaration rule adds *)

Section PropTypesImport.
Import JS.

Lemma getSubstitution_plain (matched before after repl : jsstring) :
  existsb (N.eqb 36) repl = false ->
  getSubstitution matched before after repl = repl.
Proof.
  induction repl as [|c repl IH]; [reflexivity|].
  cbn [existsb getSubstitution]. rewrite N.eqb_sym.
  destruct (N.eqb c 36); [discriminate|]. cbn [orb].
  intros H. rewrite (IH H). reflexivity.
Qed.

Lemma replace_str_from_unfold (before_rev s pat repl : jsstring) :
  replace_str_from before_rev s pat repl =
    match lit_prefix pat s with
    | Some rest => getSubstitution pat (rev before_rev) rest repl ++ rest
    | None =>
        match s with
        | [] => []
        | a :: s' => a :: replace_str_from (a :: before_rev) s' pat repl
        end
    end.
Proof. destruct s; reflexivity. Qed.

Lemma replace_str_from_first (before_rev front pat rest repl : jsstring) :
  (forall front1 front2,
     front = front1 ++ front2 -> front2 <> [] ->
     lit_prefix pat (front2 ++ pat ++ rest) = None) ->
  replace_str_from before_rev (front ++ pat ++ rest) pat repl
  = front ++ getSubstitution pat (rev before_rev ++ front) rest repl ++ rest.
Proof.
  revert before_rev. induction front as [|a front IH]; intros before_rev Hfirst.
  - cbn [app]. rewrite replace_str_from_unfold, lit_prefix_app, app_nil_r.
    reflexivity.
  - rewrite replace_str_from_unfold.
    rewrite (Hfirst [] (a :: front) eq_refl) by discriminate.
    cbn [app]. rewrite IH.
    + cbn [rev]. rewrite <- app_assoc. reflexivity.
    + intros front1 front2 -> Hne. apply (Hfirst (a :: front1) front2);
        [reflexivity | exact Hne].
Qed.

Lemma exec_at_front (r : regex) (s m : jsstring) (c : caps) :
  exec_at r s = Some (m, c) -> exists rest, s = m ++ rest.
Proof.
  unfold exec_at. intros H.
  apply rmatch_through in H as (front & s' & c' & -> & H).
  injection H as <- _. exists s'.
  rewrite length_app, Nat.add_sub, firstn_app, Nat.sub_diag, firstn_all.
  cbn [firstn]. rewrite app_nil_r. reflexivity.
Qed.

(** [s.match(r)] gives the text of the leftmost match. *)
Lemma match_first_split (r : regex) (s m : jsstring) :
  match_first r s = Some m ->
  exists front rest c,
    s = front ++ m ++ rest
    /\ exec_at r (m ++ rest) = Some (m, c)
    /\ forall front1 front2,
         front = front1 ++ front2 -> front2 <> [] ->
         exec_at r (front2 ++ m ++ rest) = None.
Proof.
  induction s as [|a s IH]; cbn [match_first].
  - destruct (exec_at r []) as [[m' c]|] eqn:Hexec; [|discriminate].
    intros [= ->]. destruct (exec_at_front _ _ _ _ Hexec) as (rest & Hrest).
    exists [], rest, c. cbn [app]. rewrite <- Hrest.
    repeat split; auto. intros [|? ?] ? H; [|discriminate H].
    cbn [app] in H. subst. contradiction.
  - destruct (exec_at r (a :: s)) as [[m' c]|] eqn:Hexec.
    + intros [= ->]. destruct (exec_at_front _ _ _ _ Hexec) as (rest & Hrest).
      exists [], rest, c. cbn [app]. rewrite <- Hrest.
      repeat split; auto. intros [|? ?] ? H; [|discriminate H].
      cbn [app] in H. subst. contradiction.
    + intros H. destruct (IH H) as (front & rest & c & -> & Hm & Hfirst).
      exists (a :: front), rest, c. repeat split; auto.
      intros [|b front1] front2 Heq Hne.
      * cbn [app] in Heq. subst front2. exact Hexec.
      * injection Heq as _ Heq. apply (Hfirst _ _ Heq Hne).
Qed.

Lemma star_greedy_class {X : Type} (p : N -> bool) (s : jsstring)
    (k : jsstring -> option X) (x : X) :
  star_greedy p s k = Some x ->
  exists front s', s = front ++ s' /\ forallb p front = true /\ k s' = Some x.
Proof.
  induction s as [|a s IH]; cbn [star_greedy].
  - intros H. exists [], []. auto.
  - destruct (p a) eqn:Hp.
    + destruct (star_greedy p s k) as [y|] eqn:Hy.
      * intros [= ->]. destruct (IH eq_refl) as (front & s' & -> & Hf & Hk).
        exists (a :: front), s'. cbn [forallb]. rewrite Hp. auto.
      * intros H. exists [], (a :: s). auto.
    + intros H. exists [], (a :: s). auto.
Qed.

Lemma star_greedy_reaches {X : Type} (p : N -> bool) (front s' : jsstring)
    (k : jsstring -> option X) :
  forallb p front = true ->
  k s' <> None ->
  (forall a z, s' = a :: z -> p a = false) ->
  star_greedy p (front ++ s') k <> None.
Proof.
  intros Hfront Hk Hstop. induction front as [|a front IH].
  - cbn [app]. destruct s' as [|b z]; cbn [star_greedy]; [exact Hk|].
    rewrite (Hstop b z eq_refl). exact Hk.
  - cbn [forallb] in Hfront. apply andb_true_iff in Hfront as (Ha & Hfront).
    cbn [app star_greedy]. rewrite Ha.
    specialize (IH Hfront).
    destruct (star_greedy p (front ++ s') k); [discriminate|].
    contradiction.
Qed.

(** What [/import React[^;]+;/] matches: the words, then at least one code
    unit other than a semicolon, up to the first semicolon. *)
Lemma importReact_match (s m : jsstring) (c : caps) :
  exec_at Rules.importReactRegex s = Some (m, c) ->
  exists body,
    m = u "import React" ++ body ++ u ";"
    /\ body <> [] /\ forallb (isNot 59) body = true.
Proof.
  intros Hexec. destruct (exec_at_front _ _ _ _ Hexec) as (rest & ->).
  revert Hexec. unfold exec_at, Rules.importReactRegex.
  cbn [Rules.cat rmatch rep star].
  destruct (lit_prefix (u "import React") (m ++ rest)) as [s1|] eqn:H1;
    [|discriminate].
  apply lit_prefix_Some in H1.
  destruct s1 as [|a s1]; [discriminate|].
  destruct (isNot 59 a) eqn:Ha; [|discriminate].
  intros H. apply star_greedy_class in H as (front & s2 & -> & Hfront & H).
  destruct (lit_prefix (u ";") s2) as [s3|] eqn:H3; [|discriminate].
  apply lit_prefix_Some in H3. subst s2. injection H as Hm.
  exists (a :: front). split; [|split; [discriminate|]].
  - rewrite <- Hm, H1.
    replace (length (u "import React" ++ a :: front ++ u ";" ++ s3) - length s3)
      with (length (u "import React" ++ a :: front ++ u ";"))
      by (rewrite !length_app; cbn [length]; rewrite !length_app; lia).
    replace (u "import React" ++ a :: front ++ u ";" ++ s3)
      with ((u "import React" ++ a :: front ++ u ";") ++ s3)
      by (rewrite <- !app_assoc; cbn [app]; rewrite <- app_assoc; reflexivity).
    rewrite firstn_app, Nat.sub_diag, firstn_all. cbn [firstn].
    rewrite app_nil_r. reflexivity.
  - cbn [forallb]. rewrite Ha. exact Hfront.
Qed.

Lemma importReact_matches (body rest : jsstring) :
  body <> [] -> forallb (isNot 59) body = true ->
  exec_at Rules.importReactRegex ((u "import React" ++ body ++ u ";") ++ rest)
    <> None.
Proof.
  intros Hne Hbody. unfold exec_at, Rules.importReactRegex.
  cbn [Rules.cat rmatch rep star]. rewrite <- app_assoc, lit_prefix_app.
  destruct body as [|a body]; [contradiction|].
  cbn [forallb] in Hbody. apply andb_true_iff in Hbody as (Ha & Hbody).
  cbn [app]. rewrite Ha. rewrite <- app_assoc.
  apply star_greedy_reaches; [exact Hbody | |].
  - change (u ";") with [59%N]. cbn [app lit_prefix]. rewrite N.eqb_refl.
    discriminate.
  - change (u ";") with [59%N]. intros b z [= <- _]. reflexivity.
Qed.

End PropTypesImport.

(** X15. When the content mentions [React.PropTypes], holds no import of
    [prop-types] yet, and its first [import React...;] statement holds no
    dollar sign, [transformPropTypes] returns the content with the line
    [import PropTypes from 'prop-types';] put right after that statement and
    every [React.PropTypes] then replaced by [PropTypes], and logs one
    fix. *)
Theorem propTypes_import_inserted (content fileName importMatch : jsstring)
    (t : Tool) :
  JS.includes content (u "React.PropTypes") = true ->
  JS.includes content Rules.importPropTypes = false ->
  JS.match_first Rules.importReactRegex content = Some importMatch ->
  existsb (N.eqb 36) importMatch = false ->
  exists front rest,
    content = front ++ importMatch ++ rest
    /\ (forall front1 front2,
          front = front1 ++ front2 -> front2 <> [] ->
          JS.exec_at Rules.importReactRegex (front2 ++ importMatch ++ rest)
            = None)
    /\ fst (Rules.transformPropTypes content fileName t)
       = JS.replace_all (JS.Lit (u "React.PropTypes"))
           (Rules.const_repl (u "PropTypes"))
           (front ++ importMatch ++ LF ++
            u "import PropTypes from 'prop-types';" ++ rest)
    /\ fixes (snd (Rules.transformPropTypes content fileName t))
       = fixes t
         ++ [fileName ++ u ": Migrated React.PropTypes to prop-types package"].
Proof.
  intros Huses Hnone Hmatch Hplain.
  destruct (match_first_split _ _ _ Hmatch)
    as (front & rest & c & Hcontent & Hexec & Hfirst).
  exists front, rest. split; [exact Hcontent|]. split; [exact Hfirst|].
  unfold Rules.transformPropTypes. rewrite Huses, Hnone, Hmatch.
  cbn [negb fst snd fixes pushFix]. split; [|reflexivity].
  f_equal. unfold JS.replace_str. rewrite Hcontent.
  destruct (importReact_match _ _ _ Hexec) as (body & Hm & Hne & Hbody).
  rewrite replace_str_from_first.
  - rewrite getSubstitution_plain.
    + rewrite <- !app_assoc. reflexivity.
    + rewrite existsb_app, Hplain. reflexivity.
  - intros front1 front2 Hsplit Hne2.
    destruct (JS.lit_prefix importMatch (front2 ++ importMatch ++ rest))
      as [rest'|] eqn:Hearlier; [|reflexivity].
    exfalso. apply lit_prefix_Some in Hearlier.
    pose proof (Hfirst front1 front2 Hsplit Hne2) as Hno.
    rewrite Hearlier, Hm in Hno.
    exact (importReact_matches body rest' Hne Hbody Hno).
Qed.

Lemma propTypes_import_inserted_witness :
  JS.includes demoPropTypesSource (u "React.PropTypes") = true
  /\ JS.includes demoPropTypesSource Rules.importPropTypes = false
  /\ JS.match_first Rules.importReactRegex demoPropTypesSource
     = Some demoImportStatement
  /\ existsb (N.eqb 36) demoImportStatement = false
  /\ exists front rest,
       demoPropTypesSource = front ++ demoImportStatement ++ rest
       /\ (forall front1 front2,
             front = front1 ++ front2 -> front2 <> [] ->
             JS.exec_at Rules.importReactRegex
               (front2 ++ demoImportStatement ++ rest) = None)
       /\ fst (Rules.transformPropTypes demoPropTypesSource (u "App.jsx")
                 newTool)
          = JS.replace_all (JS.Lit (u "React.PropTypes"))
              (Rules.const_repl (u "PropTypes"))
              (front ++ demoImportStatement ++ LF ++
               u "import PropTypes from 'prop-types';" ++ rest)
       /\ fixes (snd (Rules.transformPropTypes demoPropTypesSource
                        (u "App.jsx") newTool))
          = fixes newTool
            ++ [u "App.jsx" ++
                u ": Migrated React.PropTypes to prop-types package"].
Proof.
  assert (JS.includes demoPropTypesSource (u "React.PropTypes") = true)
    as uses by (vm_compute; reflexivity).
  assert (JS.includes demoPropTypesSource Rules.importPropTypes = false)
    as fresh by (vm_compute; reflexivity).
  assert (JS.match_first Rules.importReactRegex demoPropTypesSource
          = Some demoImportStatement) as found by (vm_compute; reflexivity).
  assert (existsb (N.eqb 36) demoImportStatement = false)
    as plain by (vm_compute; reflexivity).
  repeat (split; [assumption|]).
  exact (propTypes_import_inserted demoPropTypesSource (u "App.jsx")
           demoImportStatement newTool uses fresh found plain).
Defined.
